(** * robot.result.resultbuilder: the streaming result builder

    A shallow embedding of [src/robot/result/resultbuilder.py]: the
    [ExecutionResult] factory, [ExecutionResultBuilder] with its two event
    stream filters ([_omit_keywords], [_flatten_keywords]), the status
    message rewrite [_create_flattened_message] and the [RemoveKeywords]
    visitor, together with the properties the specification states about
    them.

    Conventions.
    - A Python [str] is a [string]; every character stands for one code
      point below 256.  [None] is [option]'s [None].
    - A Python [int] counter is a [Z].
    - An [xml.etree] element is a record of its tag, attributes and text;
      an [iterparse] event is a pair of a phase and an element.
    - A generator over events is a function on event lists that keeps its
      local variables in an explicit state; what the generator does with
      each incoming event (yield it, clear the element, or nothing) is an
      [Action], so that [elem.clear()] stays visible.  Events carry their
      element by value: the filters read the tag of an element, its
      attributes before any [clear()] of it, and its text on Close, and
      [clear()] keeps the tag.
    - Exceptions are values of [Exn]; code that may raise returns a sum. *)

From Stdlib Require Import ZArith Ascii.
From stdpp Require Import base decidable option list gmap strings.

Local Open Scope Z_scope.

(** ** Strings as Python uses them *)

(** [str.isspace] on a code point below 256. *)
Definition py_isspace (c : ascii) : bool :=
  match c with
  | "009" | "010" | "011" | "012" | "013"
  | "028" | "029" | "030" | "031" | " "
  | "133" | "160" => true
  | _ => false
  end%char.

Fixpoint lstrip (s : string) : string :=
  match s with
  | String c s' => if py_isspace c then lstrip s' else s
  | EmptyString => EmptyString
  end.

Definition rstrip (s : string) : string :=
  String.rev (lstrip (String.rev s)).

(** [s.strip()] *)
Definition strip (s : string) : string := rstrip (lstrip s).

(** [s.startswith(p)] *)
Definition startswith (s p : string) : bool := String.prefix p s.

(** [s[n:]] for [n >= 0] *)
Fixpoint slice_from (n : nat) (s : string) : string :=
  match n, s with
  | O, _ => s
  | S n', String _ s' => slice_from n' s'
  | S _, EmptyString => EmptyString
  end.

(** Truth value of an optional string: [None] and [''] are false. *)
Definition str_truthy (o : option string) : bool :=
  match o with
  | Some (String _ _) => true
  | _ => false
  end.

(** [x or ''] *)
Definition or_empty (o : option string) : string := default EmptyString o.

(** Modelled from the spec: [robot.utils.html_escape] is not part of the
    sources at hand; the spec only says that plain text is HTML-escaped and
    that ["a < b"] becomes ["a &lt; b"].  This is the usual replacement of
    the three markup characters.  The builder below takes the escaping
    function as a parameter; this definition instantiates it. *)
Fixpoint html_escape_model (s : string) : string :=
  match s with
  | EmptyString => EmptyString
  | String c s' =>
      match c with
      | "&"%char => "&amp;" +:+ html_escape_model s'
      | "<"%char => "&lt;" +:+ html_escape_model s'
      | ">"%char => "&gt;" +:+ html_escape_model s'
      | _ => String c (html_escape_model s')
      end
  end.

(** ** [ExecutionResultBuilder._create_flattened_message] *)

Section FlattenedMessage.
Variable html_escape : string → string.

Definition _create_flattened_message (original : option string) : string :=
  let start :=
    match original with
    | None => ""
    | Some o =>
        if negb (str_truthy original) then ""
        else if startswith o "*HTML*" then strip (slice_from 6 o) +:+ "<hr>"
        else html_escape o +:+ "<hr>"
    end in
  "*HTML* " +:+ start +:+ "<i>Content flattened.</i>".
End FlattenedMessage.

(** ** Elements and parse events *)

(** The two events [ET.iterparse] is asked for: ['start'] and ['end']. *)
Inductive Phase := EvStart | EvEnd.

Global Instance Phase_eq_dec : EqDecision Phase.
Proof. solve_decision. Defined.

(** An [xml.etree.ElementTree.Element] as far as the builder reads it. *)
Record Element := mkElement {
  tag : string;
  attrib : gmap string string;
  text : option string
}.

Global Instance Element_eq_dec : EqDecision Element.
Proof. solve_decision. Defined.

(** [elem.get(key)] *)
Definition elem_get (elem : Element) (key : string) : option string :=
  attrib elem !! key.

(** [elem.text = value] *)
Definition set_text (elem : Element) (value : option string) : Element :=
  {| tag := tag elem; attrib := attrib elem; text := value |}.

Definition Event : Type := Phase * Element.

(** What a filter does with the event it has just read: hand it on to its
    consumer, call [elem.clear()], or neither. *)
Inductive Action :=
  | Yield (ev : Event)
  | Clear (elem : Element)
  | Skip.

Global Instance Action_eq_dec : EqDecision Action.
Proof. solve_decision. Defined.

(** The events a generator's consumer receives. *)
Fixpoint yielded (acts : list Action) : list Event :=
  match acts with
  | [] => []
  | Yield ev :: acts' => ev :: yielded acts'
  | _ :: acts' => yielded acts'
  end.

(** Modelled from the spec: the event source ([ET.iterparse], external)
    "produces a lazy, ordered sequence of (phase, element) pairs for a tree
    of named elements": a document is a tree of elements, and its events are
    the Open of the root, the events of the children in order, and the
    Close of the root. *)
#[local] Unset Elimination Schemes.
Inductive Xml := Node (elem : Element) (children : list Xml).
#[local] Set Elimination Schemes.

Fixpoint events (t : Xml) : list Event :=
  match t with
  | Node elem children =>
      (EvStart, elem) :: flat_map events children ++ [(EvEnd, elem)]
  end.

Definition root (t : Xml) : Element := match t with Node elem _ => elem end.
Definition children (t : Xml) : list Xml := match t with Node _ cs => cs end.

(** ** [ExecutionResultBuilder._omit_keywords] *)

(** [elem.tag in ('kw', 'for', 'if') and elem.get('type') != 'TEARDOWN'] *)
Definition omit_of (elem : Element) : bool :=
  bool_decide (tag elem ∈ ["kw"; "for"; "if"])
  && negb (bool_decide (elem_get elem "type" = Some "TEARDOWN")).

Definition is_start (event : Phase) : bool := bool_decide (event = EvStart).

(** The counter as the loop body has it when it decides whether to yield:
    [if omit and start: omitted_kws += 1]. *)
Definition omit_enter (omitted_kws : Z) (ev : Event) : Z :=
  if omit_of ev.2 && is_start ev.1 then omitted_kws + 1 else omitted_kws.

(** One iteration of the loop: the new counter and what was done with the
    event. *)
Definition omit_step (omitted_kws : Z) (ev : Event) : Z * Action :=
  let '(event, elem) := ev in
  let omit := omit_of elem in
  let start := is_start event in
  let omitted_kws := if omit && start then omitted_kws + 1 else omitted_kws in
  let act :=
    if bool_decide (omitted_kws = 0) then Yield (event, elem)
    else if negb start then Clear elem
    else Skip in
  let omitted_kws := if omit && negb start then omitted_kws - 1 else omitted_kws in
  (omitted_kws, act).

Fixpoint omit_loop (omitted_kws : Z) (context : list Event) : list Action :=
  match context with
  | [] => []
  | ev :: context' =>
      let '(omitted_kws', act) := omit_step omitted_kws ev in
      act :: omit_loop omitted_kws' context'
  end.

(** What the omission filter does with an event it does not forward:
    [elif not start: elem.clear()]. *)
Definition suppress (ev : Event) : Action :=
  if is_start ev.1 then Skip else Clear ev.2.

(** The counter after the loop has gone through [context]. *)
Definition omit_counter (omitted_kws : Z) (context : list Event) : Z :=
  foldl (λ n ev, (omit_step n ev).1) omitted_kws context.

Definition _omit_keywords (context : list Event) : list Action :=
  omit_loop 0 context.

(** The document without the subtrees the omission drops: every subtree
    whose root is a [kw], [for] or [if] without [type="TEARDOWN"]. *)
Fixpoint strip_omitted (t : Xml) : list Xml :=
  match t with
  | Node elem children =>
      if omit_of elem then []
      else [Node elem (flat_map strip_omitted children)]
  end.

(** A teardown keyword that calls another keyword. *)
Definition teardown_with_child : Xml :=
  Node (mkElement "kw" {[ "type" := "TEARDOWN" ]} None)
       [Node (mkElement "kw" {[ "name" := "Log" ]} None) []].

(** ** [ExecutionResultBuilder._flatten_keywords] *)

(** The three matchers of [robot.result.flattenkeywordmatcher] (not part of
    the sources at hand) as [_get_matcher] returns them: the [match] method
    and the truth value of the matcher. *)
Record Matchers := mkMatchers {
  name_match : string → option string → bool;
  by_name : bool;
  type_match : string → bool;
  by_type : bool;
  tags_match : list string → bool;
  by_tags : bool
}.

(** The local variables of the generator. *)
Record FlattenState := mkFlattenState {
  started : Z;
  tags : list string;
  inside : Z
}.

Global Instance FlattenState_eq_dec : EqDecision FlattenState.
Proof. solve_decision. Defined.

Definition flatten_init : FlattenState :=
  {| started := -1; tags := []; inside := 0 |}.

Definition containers : list string :=
  ["kw"; "for"; "while"; "iter"; "if"; "try"].

Definition in_containers (tag : string) : bool :=
  bool_decide (tag ∈ containers).

(** [elem.get('owner') or elem.get('library')] *)
Definition owner_or_library (elem : Element) : option string :=
  if str_truthy (elem_get elem "owner") then elem_get elem "owner"
  else elem_get elem "library".

Section Flatten.
Variable html_escape : string → string.
Variable m : Matchers.

(** Whether the name matcher or the type matcher accepts a container on
    its Open: the conditions of the two [elif] branches that set
    [started = 0]. *)
Definition trigger_matches (elem : Element) : bool :=
  by_name m
  && name_match m (default "" (elem_get elem "name")) (owner_or_library elem)
  || by_type m && type_match m (tag elem).

(** The first part of the loop body, up to the decision to yield: the
    updates of [inside], [started] and [tags], and the rewrite of a
    status text. *)
Definition flatten_update (st : FlattenState) (ev : Event)
    : FlattenState * Element :=
  let '(event, elem) := ev in
  let tag := tag elem in
  match event with
  | EvStart =>
      if in_containers tag then
        let inside := inside st + 1 in
        let started :=
          if bool_decide (0 ≤ started st) then started st + 1
          else if by_name m
                  && name_match m (default "" (elem_get elem "name"))
                                  (owner_or_library elem) then 0
          else if by_type m && type_match m tag then 0
          else started st in
        ({| started := started; tags := []; inside := inside |}, elem)
      else (st, elem)
  | EvEnd =>
      if in_containers tag then
        ({| started := started st; tags := tags st;
            inside := inside st - 1 |}, elem)
      else if by_tags m && negb (bool_decide (inside st = 0))
              && bool_decide (started st < 0) && bool_decide (tag = "tag") then
        let tags := tags st ++ [or_empty (text elem)] in
        let started := if tags_match m tags then 0 else started st in
        ({| started := started; tags := tags; inside := inside st |}, elem)
      else if bool_decide (started st = 0) && bool_decide (tag = "status") then
        (st, set_text elem
               (Some (_create_flattened_message html_escape (text elem))))
      else (st, elem)
  end.

(** One iteration of the loop. *)
Definition flatten_step (st : FlattenState) (ev : Event)
    : FlattenState * Action :=
  let '(st1, elem1) := flatten_update st ev in
  let event := ev.1 in
  let tag := tag ev.2 in
  let act :=
    if bool_decide (started st1 ≤ 0) || bool_decide (tag = "msg")
    then Yield (event, elem1)
    else Clear elem1 in
  let st2 :=
    if bool_decide (0 ≤ started st1) && bool_decide (event = EvEnd)
       && in_containers tag
    then {| started := started st1 - 1; tags := tags st1;
            inside := inside st1 |}
    else st1 in
  (st2, act).

Fixpoint flatten_loop (st : FlattenState) (context : list Event)
    : list Action :=
  match context with
  | [] => []
  | ev :: context' =>
      let '(st', act) := flatten_step st ev in
      act :: flatten_loop st' context'
  end.

(** The local variables after the loop has gone through [context]. *)
Definition flatten_state (st : FlattenState) (context : list Event)
    : FlattenState :=
  foldl (λ st ev, (flatten_step st ev).1) st context.

Definition _flatten_keywords (context : list Event) : list Action :=
  flatten_loop flatten_init context.
End Flatten.

(** An event of a [msg] element. *)
Definition is_msg (ev : Event) : Prop := tag ev.2 = "msg".

Global Instance is_msg_dec ev : Decision (is_msg ev).
Proof. unfold is_msg. apply _. Defined.
Global Typeclasses Opaque is_msg.

(** What the flattening filter does with the events of a region it has
    collapsed: messages pass, everything else is cleared. *)
Definition collapse (ev : Event) : Action :=
  if bool_decide (is_msg ev) then Yield ev else Clear ev.2.

(** What the flattening filter forwards of a subtree that lies in a
    flattened container at its own nesting level (counter [started] at 0):
    a container is reduced to its messages; any other element is forwarded,
    a [status] with its text rewritten on Close, and its children are
    treated in the same way. *)
Fixpoint flattened_events (html_escape : string → string) (t : Xml)
    : list Event :=
  match t with
  | Node elem cs =>
      if in_containers (tag elem)
      then filter is_msg
             ((EvStart, elem) :: flat_map events cs ++ [(EvEnd, elem)])
      else (EvStart, elem)
           :: flat_map (flattened_events html_escape) cs
           ++ [(EvEnd,
                if bool_decide (tag elem = "status")
                then set_text elem
                       (Some (_create_flattened_message html_escape (text elem)))
                else elem)]
  end.

(** Matchers to run the filter on examples: keywords named ["Flat"], all
    [for] loops, and keywords tagged ["flat"]. *)
Definition sample_matchers : Matchers :=
  {| name_match := λ name owner, bool_decide (name = "Flat");
     by_name := true;
     type_match := λ tag, bool_decide (tag = "for");
     by_type := true;
     tags_match := λ tags, bool_decide ("flat" ∈ tags);
     by_tags := true |}.

(** Elements for examples. *)
Definition named (tag name : string) : Element :=
  mkElement tag {[ "name" := name ]} None.
Definition with_text (tag text : string) : Element :=
  mkElement tag ∅ (Some text).

(** Three keywords nested in each other, each with a status; only the
    middle one is named ["Flat"]. *)
Definition three_deep : Xml :=
  Node (named "kw" "Outer")
    [Node (named "kw" "Flat")
       [Node (named "kw" "Inner") [Node (with_text "status" "inner") []];
        Node (with_text "status" "middle") []];
     Node (with_text "status" "outer") []].

(** ** The result model *)

(** Modelled from the spec: the result classes ([robot.result.model],
    [robot.result.executionresult]) are not part of the sources at hand.
    The spec describes the result tree as "hierarchical suite, test,
    keyword/control-structure nodes with a terminal status"; [RemoveKeywords]
    below assigns to [suite.setup], [suite.teardown] and [test.body].  A
    step is a keyword, control structure or message with its status and the
    steps below it; the remaining data of a node is kept as the element it
    was built from. *)
#[local] Unset Elimination Schemes.
Inductive Step :=
  MkStep (step_elem : Element) (step_status : option Element)
         (step_body : list Step).
#[local] Set Elimination Schemes.

Record TestCase := mkTestCase {
  test_elem : Element;
  test_status : option Element;
  test_setup : option Step;
  test_teardown : option Step;
  test_body : list Step
}.

#[local] Unset Elimination Schemes.
Inductive TestSuite := MkSuite {
  suite_elem : option Element;
  suite_status : option Element;
  suite_setup : option Step;
  suite_teardown : option Step;
  suite_suites : list TestSuite;
  suite_tests : list TestCase
}.
#[local] Set Elimination Schemes.

(** A data source: a path or the XML text itself. *)
Definition Source : Type := string.

Record Result := mkResult {
  result_source : Source;
  result_rpa : option bool;
  result_suite : TestSuite
}.

Definition empty_suite : TestSuite :=
  MkSuite None None None None [] [].

(** [Result(source, rpa=rpa)] *)
Definition Result_new (source : Source) (rpa : option bool) : Result :=
  {| result_source := source; result_rpa := rpa; result_suite := empty_suite |}.

(** ** [RemoveKeywords] *)

(** Modelled from the spec: [robot.model.SuiteVisitor] is not part of the
    sources at hand.  The spec calls detail stripping a "tree-wide pass" over
    suites and tests: visiting a suite calls [start_suite] on it and then
    visits its child suites and its tests.  A visitor is given by the two
    methods [RemoveKeywords] overrides; [start_suite] works on the fields of
    the suite itself, the child suites and tests are those of the suite
    visited. *)
Record SuiteVisitor := mkVisitor {
  start_suite : TestSuite → TestSuite;
  visit_test : TestCase → TestCase
}.

Fixpoint visit_suite (v : SuiteVisitor) (suite : TestSuite) : TestSuite :=
  let started := start_suite v suite in
  MkSuite (suite_elem started) (suite_status started)
          (suite_setup started) (suite_teardown started)
          (map (visit_suite v) (suite_suites suite))
          (map (visit_test v) (suite_tests suite)).

(** [suite.setup = None; suite.teardown = None] *)
Definition RemoveKeywords_start_suite (suite : TestSuite) : TestSuite :=
  MkSuite (suite_elem suite) (suite_status suite) None None
          (suite_suites suite) (suite_tests suite).

(** [test.body = []] *)
Definition RemoveKeywords_visit_test (test : TestCase) : TestCase :=
  {| test_elem := test_elem test; test_status := test_status test;
     test_setup := test_setup test; test_teardown := test_teardown test;
     test_body := [] |}.

Definition RemoveKeywords : SuiteVisitor :=
  {| start_suite := RemoveKeywords_start_suite;
     visit_test := RemoveKeywords_visit_test |}.

(** The suite and all suites below it; all tests in or below it. *)
Fixpoint all_suites (suite : TestSuite) : list TestSuite :=
  suite :: flat_map all_suites (suite_suites suite).

Fixpoint all_tests (suite : TestSuite) : list TestCase :=
  suite_tests suite ++ flat_map all_tests (suite_suites suite).

(** Everything of a test but its body, and everything of a suite but its
    setup, its teardown and the bodies of its tests. *)
Record TestFrame := mkTestFrame {
  frame_test_elem : Element;
  frame_test_status : option Element;
  frame_test_setup : option Step;
  frame_test_teardown : option Step
}.

#[local] Unset Elimination Schemes.
Inductive SuiteFrame :=
  Frame (elem : option Element) (status : option Element)
        (suites : list SuiteFrame) (tests : list TestFrame).
#[local] Set Elimination Schemes.

Definition test_frame (test : TestCase) : TestFrame :=
  {| frame_test_elem := test_elem test;
     frame_test_status := test_status test;
     frame_test_setup := test_setup test;
     frame_test_teardown := test_teardown test |}.

Fixpoint suite_frame (suite : TestSuite) : SuiteFrame :=
  Frame (suite_elem suite) (suite_status suite)
        (map suite_frame (suite_suites suite))
        (map test_frame (suite_tests suite)).

(** ** Exceptions and the sources opened *)

(** The exceptions the builder can meet: an [IOError] with its [strerror]
    ([None] when it was raised without one, as by [IOError('text')]) and
    with what [str()] gives for it, a [DataError] with its message, and any
    other exception (a parse error of the tokenizer, a [TypeError], ...)
    with its class name and message. *)
Inductive Exn :=
  | IOError (strerror : option string) (message : string)
  | DataError (message : string)
  | OtherError (name message : string).

Inductive Outcome (A : Type) :=
  | Returns (a : A)
  | Raises (e : Exn).
Arguments Returns {A} a.
Arguments Raises {A} e.

Definition obind {A B} (f : A → Outcome B) (x : Outcome A) : Outcome B :=
  match x with
  | Returns a => f a
  | Raises e => Raises e
  end.

(** A computation that may open sources: it extends the list of the sources
    opened so far and returns or raises. *)
Definition M (A : Type) : Type := list Source → list Source * Outcome A.

Definition ret {A} (a : A) : M A := λ opened, (opened, Returns a).
Definition raise {A} (e : Exn) : M A := λ opened, (opened, Raises e).
Definition lift {A} (x : Outcome A) : M A := λ opened, (opened, x).
Definition bind {A B} (x : M A) (f : A → M B) : M B :=
  λ opened,
    match x opened with
    | (opened', Returns a) => f a opened'
    | (opened', Raises e) => (opened', Raises e)
    end.

Definition omap {A B} (f : A → B) (x : Outcome A) : Outcome B :=
  match x with
  | Returns a => Returns (f a)
  | Raises e => Raises e
  end.

Global Instance Outcome_bind : MBind Outcome := @obind.
Global Instance Outcome_fmap : FMap Outcome := @omap.
Global Instance M_ret : MRet M := @ret.
Global Instance M_bind : MBind M := λ A B f x, bind x f.

(** [str(x)] for an optional string inside an f-string. *)
Definition str_of (o : option string) : string := default "None" o.

(** What [ET.iterparse] yields for an opened source: the events read, and
    the exception that ended the reading if there was one. *)
Record Context := mkContext {
  ctx_events : list Event;
  ctx_failure : option Exn
}.

(** The keyword arguments of [ExecutionResult]; [opt_other] lists the
    names of arguments that [ExecutionResultBuilder] does not have. *)
Record Options := mkOptions {
  opt_merge : bool;
  opt_rpa : option bool;
  opt_include_keywords : bool;
  opt_flattened_keywords : option (list string);
  opt_other : list string
}.

(** The collaborators of the builder that are not part of the sources at
    hand, taken as parameters: the escaping function and error formatter of
    [robot.utils], [ETSource] (its [str] and what entering it and parsing
    give), the matchers, [XmlElementHandler], the method
    [handle_suite_teardown_failures] of [Result], [Merger] and
    [CombinedResult]. *)
Record Env := mkEnv {
  html_escape : string → string;
  get_error_message : Exn → string;
  ets_str : Source → string;
  ets_enter : Source → Outcome Context;
  get_matchers : list string → Outcome Matchers;
  Handler : Type;
  XmlElementHandler : Result → Handler;
  handler_start : Element → Handler → Outcome Handler;
  handler_end : Element → Handler → Outcome Handler;
  handler_result : Handler → Result;
  handle_suite_teardown_failures : Result → Result;
  merger_merge : Result → Result → Outcome Result;
  CombinedResult : list Result → Result
}.

(** ** [ExecutionResultBuilder] *)

Record ExecutionResultBuilder := mkBuilder {
  _source : Source;
  _include_keywords : bool;
  _flattened_keywords : option (list string)
}.

(** Truth value of an optional list: [None] and [[]] are false. *)
Definition list_truthy (o : option (list string)) : bool :=
  match o with
  | Some (_ :: _) => true
  | _ => false
  end.

(** Which generator [_parse] wraps around the event source. *)
Inductive Filter :=
  | NoFilter
  | Omission
  | Flattening (flattened : list string).

(** [if not self._include_keywords: ... elif self._flattened_keywords: ...] *)
Definition select_filter (self : ExecutionResultBuilder) : Filter :=
  if negb (_include_keywords self) then Omission
  else if list_truthy (_flattened_keywords self)
       then Flattening (default [] (_flattened_keywords self))
  else NoFilter.

Section Builder.
Variable env : Env.

(** The wrapped context, run over the events read. *)
Definition apply_filter (f : Filter) (context : list Event)
    : Outcome (list Action) :=
  match f with
  | NoFilter => Returns (map Yield context)
  | Omission => Returns (_omit_keywords context)
  | Flattening flattened =>
      m ← get_matchers env flattened ;
      Returns (_flatten_keywords (html_escape env) m context)
  end.

(** The loop of [_parse]: [start(elem)] on a start event, [end(elem)] and
    [elem.clear()] on an end event. *)
Fixpoint consume (acts : list Action) (handler : Handler env)
    : Outcome (Handler env) :=
  match acts with
  | [] => Returns handler
  | Yield (EvStart, elem) :: acts' =>
      handler' ← handler_start env elem handler ; consume acts' handler'
  | Yield (EvEnd, elem) :: acts' =>
      handler' ← handler_end env elem handler ; consume acts' handler'
  | _ :: acts' => consume acts' handler
  end.

Definition _parse (self : ExecutionResultBuilder) (source : Context)
    (handler : Handler env) : Outcome (Handler env) :=
  acts ← apply_filter (select_filter self) (ctx_events source) ;
  handler' ← consume acts handler ;
  match ctx_failure source with
  | Some e => Raises e
  | None => Returns handler'
  end.

(** [with self._source as source]: the source is opened. *)
Definition enter (source : Source) : M Context :=
  λ opened, (opened ++ [source], ets_enter env source).

(** The part of [build] after parsing. *)
Definition finish (self : ExecutionResultBuilder) (result : Result)
    : Result :=
  let result := handle_suite_teardown_failures env result in
  if negb (_include_keywords self)
  then {| result_source := result_source result;
          result_rpa := result_rpa result;
          result_suite := visit_suite RemoveKeywords (result_suite result) |}
  else result.

Definition build (self : ExecutionResultBuilder) (result : Result)
    : M Result :=
  let handler := XmlElementHandler env result in
  source ← enter (_source self) ;
  handler' ← lift (_parse self source handler) ;
  ret (finish self (handler_result env handler')).

(** [ExecutionResultBuilder(ets, **options)]: an argument the constructor
    does not have is a [TypeError]. *)
Definition ExecutionResultBuilder_new (source : Source) (options : Options)
    : Outcome ExecutionResultBuilder :=
  match opt_other options with
  | [] => Returns {| _source := source;
                     _include_keywords := opt_include_keywords options;
                     _flattened_keywords := opt_flattened_keywords options |}
  | name :: _ =>
      Raises (OtherError "TypeError"
                ("ExecutionResultBuilder.__init__() got an unexpected keyword argument '"
                 +:+ name +:+ "'"))
  end.

(** The text [_single_result] reports for an exception. *)
Definition error_of (e : Exn) : string :=
  match e with
  | IOError strerror _ => str_of strerror
  | _ => get_error_message env e
  end.

(** The error [_single_result] raises for the exception [err]. *)
Definition report (source : Source) (err : Exn) : Exn :=
  DataError ("Reading XML source '" +:+ ets_str env source
             +:+ "' failed: " +:+ error_of err).

Definition _single_result (source : Source) (options : Options) : M Result :=
  let ets := source in
  let result := Result_new source (opt_rpa options) in
  λ opened,
    match (builder ← lift (ExecutionResultBuilder_new ets options) ;
           build builder result) opened with
    | (opened', Returns result') => (opened', Returns result')
    | (opened', Raises err) =>
        (opened', Raises (report ets err))
    end.

(** The loop of [_merge_results]; [ExecutionResult(path, **options)] with
    one source and without [merge] is [_single_result path options]. *)
Fixpoint merge_all (result : Result) (merged : list Source)
    (options : Options) : M Result :=
  match merged with
  | [] => ret result
  | path :: merged' =>
      other ← _single_result path options ;
      result' ← lift (merger_merge env result other) ;
      merge_all result' merged' options
  end.

Definition _merge_results (original : Source) (merged : list Source)
    (options : Options) : M Result :=
  result ← _single_result original options ;
  merge_all result merged options.

Fixpoint all_results (sources : list Source) (options : Options)
    : M (list Result) :=
  match sources with
  | [] => ret []
  | src :: sources' =>
      r ← _single_result src options ;
      rs ← all_results sources' options ;
      ret (r :: rs)
  end.

Definition _combine_results (sources : list Source) (options : Options)
    : M Result :=
  rs ← all_results sources options ;
  ret (CombinedResult env rs).

(** [options.pop('merge', False)]: the options without [merge]. *)
Definition pop_merge (options : Options) : Options :=
  {| opt_merge := false; opt_rpa := opt_rpa options;
     opt_include_keywords := opt_include_keywords options;
     opt_flattened_keywords := opt_flattened_keywords options;
     opt_other := opt_other options |}.

Definition ExecutionResult (sources : list Source) (options : Options)
    : M Result :=
  match sources with
  | [] => raise (DataError "One or more data source needed.")
  | original :: merged =>
      if opt_merge options
      then _merge_results original merged (pop_merge options)
      else if bool_decide (1 < length sources)%nat
           then _combine_results sources (pop_merge options)
      else _single_result original (pop_merge options)
  end.
End Builder.

(** ** A tree-building handler *)

(** Modelled from the spec: [XmlElementHandler]
    ([robot.result.xmlelementhandlers]) is not part of the sources at hand.
    The spec says of the tree builder that it "per Open/Close pair,
    constructs or finalizes a corresponding result-tree node", "polymorphic
    over tag name", and that "unknown/unhandled tags are ignored".  The
    handler keeps the elements that are open, innermost first, each with
    the subtrees already closed below it (latest first); when the root
    closes, the suite is built from the tree by tag: [suite] and [test]
    children become suites and tests, a [kw] with [type="SETUP"] or
    [type="TEARDOWN"] the setup or teardown, the last [status] child the
    status, containers and messages the steps of a body, and any other
    element is ignored.  The root of a document has to be a [robot]
    element with the suite below it: the handler refuses any other root,
    when it opens, with the data error ["Incompatible root element
    '<tag>'."]. *)
Record TreeHandler := mkTreeHandler {
  th_result : Result;
  th_open : list (Element * list Xml)
}.

Definition has_tag (name : string) (t : Xml) : bool :=
  bool_decide (tag (root t) = name).

Definition is_fixture (type : string) (t : Xml) : bool :=
  has_tag "kw" t && bool_decide (elem_get (root t) "type" = Some type).

Definition is_step (t : Xml) : bool :=
  in_containers (tag (root t)) || has_tag "msg" t.

Definition status_of (cs : list Xml) : option Element :=
  last (flat_map (λ c, if has_tag "status" c then [root c] else []) cs).

Fixpoint step_of_xml (t : Xml) : Step :=
  match t with
  | Node elem cs =>
      MkStep elem (status_of cs)
             (flat_map (λ c, if is_step c then [step_of_xml c] else []) cs)
  end.

Definition fixture_of (type : string) (cs : list Xml) : option Step :=
  head (flat_map (λ c, if is_fixture type c then [step_of_xml c] else []) cs).

Definition body_of (cs : list Xml) : list Step :=
  flat_map (λ c, if is_step c && negb (is_fixture "SETUP" c)
                    && negb (is_fixture "TEARDOWN" c)
                 then [step_of_xml c] else []) cs.

Definition test_of_xml (t : Xml) : TestCase :=
  {| test_elem := root t;
     test_status := status_of (children t);
     test_setup := fixture_of "SETUP" (children t);
     test_teardown := fixture_of "TEARDOWN" (children t);
     test_body := body_of (children t) |}.

Fixpoint suite_of_xml (t : Xml) : TestSuite :=
  match t with
  | Node elem cs =>
      MkSuite (Some elem) (status_of cs)
              (fixture_of "SETUP" cs) (fixture_of "TEARDOWN" cs)
              (flat_map (λ c, if has_tag "suite" c then [suite_of_xml c]
                              else []) cs)
              (flat_map (λ c, if has_tag "test" c then [test_of_xml c]
                              else []) cs)
  end.

(** The root of a document is a [robot] element with the suite below
    it. *)
Definition root_suite (t : Xml) : option TestSuite :=
  if has_tag "robot" t
  then head (flat_map (λ c, if has_tag "suite" c then [suite_of_xml c]
                            else []) (children t))
  else None.

Definition incompatible_root (elem : Element) : Exn :=
  DataError ("Incompatible root element '" +:+ tag elem +:+ "'.").

Definition set_suite (result : Result) (suite : TestSuite) : Result :=
  {| result_source := result_source result;
     result_rpa := result_rpa result;
     result_suite := suite |}.

Definition tree_start (elem : Element) (h : TreeHandler)
    : Outcome TreeHandler :=
  match th_open h with
  | [] =>
      if bool_decide (tag elem = "robot")
      then Returns {| th_result := th_result h; th_open := [(elem, [])] |}
      else Raises (incompatible_root elem)
  | _ =>
      Returns {| th_result := th_result h;
                 th_open := (elem, []) :: th_open h |}
  end.

Definition tree_end (elem : Element) (h : TreeHandler)
    : Outcome TreeHandler :=
  match th_open h with
  | [] => Raises (DataError "Element closed without being opened.")
  | [(_, below)] =>
      Returns {| th_result :=
                   match root_suite (Node elem (rev below)) with
                   | Some suite => set_suite (th_result h) suite
                   | None => th_result h
                   end;
                 th_open := [] |}
  | (_, below) :: (parent, siblings) :: rest =>
      Returns {| th_result := th_result h;
                 th_open := (parent, Node elem (rev below) :: siblings) :: rest |}
  end.

(** Modelled from the spec: [Result.handle_suite_teardown_failures] is not
    part of the sources at hand.  "If a suite-level teardown step failed,
    every test directly or transitively under that suite is marked failed
    regardless of its own recorded outcome." *)
Definition failed (status : option Element) : bool :=
  match status with
  | Some elem => bool_decide (elem_get elem "status" = Some "FAIL")
  | None => false
  end.

Definition teardown_failed (suite : TestSuite) : bool :=
  match suite_teardown suite with
  | Some (MkStep _ status _) => failed status
  | None => false
  end.

Definition fail_status (status : option Element) : option Element :=
  let elem := default (mkElement "status" ∅ None) status in
  Some (mkElement (tag elem) (<["status" := "FAIL"]> (attrib elem)) (text elem)).

Definition fail_test (test : TestCase) : TestCase :=
  {| test_elem := test_elem test;
     test_status := fail_status (test_status test);
     test_setup := test_setup test;
     test_teardown := test_teardown test;
     test_body := test_body test |}.

Fixpoint propagate_failure (failing : bool) (suite : TestSuite) : TestSuite :=
  let failing := failing || teardown_failed suite in
  MkSuite (suite_elem suite) (suite_status suite)
          (suite_setup suite) (suite_teardown suite)
          (map (propagate_failure failing) (suite_suites suite))
          (map (λ t, if failing then fail_test t else t) (suite_tests suite)).

Definition tree_handle_suite_teardown_failures (result : Result) : Result :=
  set_suite result (propagate_failure false (result_suite result)).

(** How [get_error_message] shows an exception: its class and message. *)
Definition show_error (e : Exn) : string :=
  match e with
  | IOError _ message => "IOError: " +:+ message
  | DataError message => message
  | OtherError name message => name +:+ ": " +:+ message
  end.

(** The builder with the tree-building handler, over a given assignment of
    contents to sources.  The matchers are the sample matchers whatever the
    patterns; merging keeps the original result and combining takes the
    first: the properties below do not involve them. *)
Definition tree_env (contents : Source → Outcome Context) : Env :=
  {| html_escape := html_escape_model;
     get_error_message := show_error;
     ets_str := λ source, source;
     ets_enter := contents;
     get_matchers := λ _, Returns sample_matchers;
     Handler := TreeHandler;
     XmlElementHandler := λ result, mkTreeHandler result [];
     handler_start := tree_start;
     handler_end := tree_end;
     handler_result := th_result;
     handle_suite_teardown_failures := tree_handle_suite_teardown_failures;
     merger_merge := λ result _, Returns result;
     CombinedResult := λ results, default (Result_new "" None) (head results) |}.

(** ** Stripping the finished tree *)

(** The post-hoc stripping the spec compares omission with: "manually
    stripping those same node kinds" (keyword, [for] and [if] nodes that
    are not teardowns) from a finished tree. *)
Fixpoint strip_step (step : Step) : list Step :=
  match step with
  | MkStep elem status body =>
      if omit_of elem then []
      else [MkStep elem status (flat_map strip_step body)]
  end.

Definition strip_fixture (fixture : option Step) : option Step :=
  match fixture with
  | Some step => head (strip_step step)
  | None => None
  end.

Definition strip_test (test : TestCase) : TestCase :=
  {| test_elem := test_elem test;
     test_status := test_status test;
     test_setup := strip_fixture (test_setup test);
     test_teardown := strip_fixture (test_teardown test);
     test_body := flat_map strip_step (test_body test) |}.

Fixpoint strip_suite (suite : TestSuite) : TestSuite :=
  MkSuite (suite_elem suite) (suite_status suite)
          (strip_fixture (suite_setup suite))
          (strip_fixture (suite_teardown suite))
          (map strip_suite (suite_suites suite))
          (map strip_test (suite_tests suite)).

Definition strip_result (result : Result) : Result :=
  set_suite result (strip_suite (result_suite result)).

(** The detail-stripping pass on a result, as [build] runs it. *)
Definition remove_keywords (result : Result) : Result :=
  set_suite result (visit_suite RemoveKeywords (result_suite result)).

(** A suite with one test and a suite teardown. *)
Definition passed : Xml :=
  Node (mkElement "status" {[ "status" := "PASS" ]} None) [].

Definition suite_with_teardown : Xml :=
  Node (named "suite" "S")
    [Node (named "test" "T")
       [Node (named "kw" "Log") [passed]; passed];
     Node (mkElement "kw" {[ "name" := "Cleanup"; "type" := "TEARDOWN" ]} None)
       [passed];
     passed].

(** An output file: the [robot] element with that suite below it. *)
Definition output_with_teardown : Xml :=
  Node (mkElement "robot" ∅ None) [suite_with_teardown].

(** The options of a call without keyword arguments. *)
Definition default_options : Options :=
  {| opt_merge := false; opt_rpa := None; opt_include_keywords := true;
     opt_flattened_keywords := None; opt_other := [] |}.

(** A source that cannot be opened. *)
Definition missing_file : Source → Outcome Context :=
  λ _, Raises (IOError (Some "No such file or directory")
                       "[Errno 2] No such file or directory").




(** A source whose document breaks off after the Open of the suite. *)
Definition truncated_document : Source → Outcome Context :=
  λ _, Returns (mkContext [(EvStart, mkElement "robot" ∅ None);
                           (EvStart, named "suite" "S")]
                  (Some (OtherError "ParseError" "no element found"))).

(** Sources whose content is the events of a complete document. *)
Definition document (t : Xml) : Source → Outcome Context :=
  λ _, Returns (mkContext (events t) None).

(** ** Further notions for the filters *)

(** What the flattening filter leaves of an event whatever it does with
    it: the phase, the tag and the attributes. *)
Definition event_key (ev : Event) : Phase * string * gmap string string :=
  (ev.1, tag ev.2, attrib ev.2).

(** A status element as the flattening filter rewrites it. *)
Definition is_flattened_status (html_escape : string → string) (ev : Event)
    : Prop :=
  ∃ original,
    text ev.2 = Some (_create_flattened_message html_escape original).

(** * robot.running.testlibraries

    A shallow embedding of [src/robot/running/testlibraries.py]: the
    library classes as far as they decide which attributes of a library
    become keywords, keep the library instance, and report errors.

    Conventions for this module.
    - Python objects are records of what the code observes of them: an
      attribute that is a method or function is a [Method] with the results
      of [inspect.isroutine], [isinstance(_, partial)] and of the attribute
      tests the code makes; a library instance or module is a [LibObject]
      with its [dir()], [getattr], the [__dict__]s along its MRO, and the
      attributes the code reads by name.
    - Exceptions keep the part of the class hierarchy the [except] clauses
      tell apart: [DataError] (with its details), other subclasses of
      [Exception], and exceptions outside [Exception].
    - [self] is a [Library]; a method that assigns to it or writes to its
      logger returns the new library next to its result, also when it
      raises. *)

Inductive PyExn :=
  | PyDataError (message details : string)
  | PyException (class_name message : string)
  | PyBaseException (class_name : string).

Inductive Try (A : Type) :=
  | Done (a : A)
  | Fail (e : PyExn).
Arguments Done {A} a.
Arguments Fail {A} e.

(** [except DataError] and [except Exception]. *)
Definition is_DataError (e : PyExn) : bool :=
  match e with PyDataError _ _ => true | _ => false end.

Definition is_Exception (e : PyExn) : bool :=
  match e with PyBaseException _ => false | _ => true end.

(** A method or function object. *)
Record Method := mkMethod {
  method_id : string;
  isroutine : bool;
  ispartial : bool;
  robot_not_keyword : bool;
  has_robot_name : bool
}.

(** [ROBOT_LIBRARY_LISTENER]: missing or [None], list-like, or one
    object. *)
Inductive Listeners :=
  | NoListener
  | ListenerList (listeners : list string)
  | OneListener (listener : string).

(** A library instance or module.  [obj_all] is [None] when the object
    has no [__all__]; otherwise it is the test [name in __all__], which
    answers for a list, tuple or set of names and raises (a [TypeError])
    for a value that is no container. *)
Record LibObject := mkLibObject {
  obj_dir : list string;
  obj_getattr : string → Try Method;
  obj_dicts : list (gmap string bool);
  obj_all : option (string → Try bool);
  ROBOT_AUTO_KEYWORDS : bool;
  ROBOT_LIBRARY_LISTENER : Listeners;
  get_keyword_names : Try (list string);
  run_keyword : Method
}.

Inductive LibClass :=
  | _ModuleLibrary
  | _ClassLibrary
  | _HybridLibrary
  | _DynamicLibrary.

(** The imported code: what [_get_lib_class] asks of it, what calling it
    with the library arguments gives, and, for a module, the module as the
    object it is. *)
Record LibCode := mkLibCode {
  ismodule : bool;
  GetKeywordNames : bool;
  RunKeyword : bool;
  instantiate : list string → list (string * string) → Try LibObject;
  module_object : LibObject
}.

Definition _get_lib_class (libcode : LibCode) : LibClass :=
  if ismodule libcode then _ModuleLibrary
  else if GetKeywordNames libcode then
    if RunKeyword libcode then _DynamicLibrary else _HybridLibrary
  else _ClassLibrary.

(** The class attribute [get_handler_error_level]. *)
Definition get_handler_error_level (cls : LibClass) : string :=
  match cls with
  | _HybridLibrary | _DynamicLibrary => "ERROR"
  | _ => "INFO"
  end.

(** A keyword handler: its name, the greatest number of positional
    arguments it accepts, and its embedded arguments if it has any. *)
Record KeywordHandler := mkHandler {
  handler_name : string;
  maxargs : Z;
  embedded : option (list string)
}.

Record Library := mkLibrary {
  lib_class : LibClass;
  lib_name : string;
  _libcode : LibCode;
  _libinst : option LibObject;
  has_listener : option bool;
  is_global : bool;
  positional_args : list string;
  named_args : list (string * string);
  handlers : list KeywordHandler;
  logger : list (string * string)
}.

(** The collaborators of the library classes that are not part of the
    sources at hand: [get_error_details] and [seq2str2] of [robot.utils],
    the constructor of [Handler] (with the argument, tag and documentation
    getters for a dynamic library), [EmbeddedArguments.from_name], and
    [HandlerStore.add]. *)
Record LibEnv := mkLibEnv {
  get_error_details : PyExn → string * string;
  seq2str2 : list string → string;
  new_handler : LibClass → string → Method → Try KeywordHandler;
  embedded_from_name : string → Try (option (list string));
  store_add : KeywordHandler → bool → list KeywordHandler
              → Try (list KeywordHandler)
}.

(** Methods of a library: the result or exception, and the library
    afterwards. *)
Definition LM (A : Type) : Type := Library → Try A * Library.

Definition lret {A} (a : A) : LM A := λ self, (Done a, self).
Definition lraise {A} (e : PyExn) : LM A := λ self, (Fail e, self).
Definition lbind {A B} (x : LM A) (f : A → LM B) : LM B :=
  λ self,
    match x self with
    | (Done a, self') => f a self'
    | (Fail e, self') => (Fail e, self')
    end.

(** [self.logger.write(message, level)] *)
Definition write (message level : string) : LM unit :=
  λ self,
    (Done tt,
     mkLibrary (lib_class self) (lib_name self) (_libcode self)
               (_libinst self) (has_listener self) (is_global self)
               (positional_args self) (named_args self) (handlers self)
               (logger self ++ [(message, level)])).

Definition set_libinst (instance : option LibObject) (self : Library)
    : Library :=
  mkLibrary (lib_class self) (lib_name self) (_libcode self)
            instance (has_listener self) (is_global self)
            (positional_args self) (named_args self) (handlers self)
            (logger self).

Definition set_has_listener (value : option bool) (self : Library)
    : Library :=
  mkLibrary (lib_class self) (lib_name self) (_libcode self)
            (_libinst self) value (is_global self)
            (positional_args self) (named_args self) (handlers self)
            (logger self).

Definition set_handlers (store : list KeywordHandler) (self : Library)
    : Library :=
  mkLibrary (lib_class self) (lib_name self) (_libcode self)
            (_libinst self) (has_listener self) (is_global self)
            (positional_args self) (named_args self) store (logger self).

Definition newline : string := String "010" EmptyString.

(** ** [lineno] *)

(** The loop over [enumerate(lines)]. *)
Fixpoint lineno_loop (start_lineno increment : Z) (lines : list string) : Z :=
  match lines with
  | [] => start_lineno
  | line :: lines' =>
      if startswith (strip line) "class " then start_lineno + increment
      else lineno_loop start_lineno (increment + 1) lines'
  end.

(** [sourcelines] is what [inspect.getsourcelines] returns, [None] when it
    raises one of the exceptions caught. *)
Definition lineno (is_module : bool) (sourcelines : option (list string * Z))
    : Z :=
  if is_module then 1
  else match sourcelines with
       | None => -1
       | Some (lines, start_lineno) => lineno_loop start_lineno 0 lines
       end.

(** ** Reporting errors *)

Definition report_error (message : string) (details : option string)
    (level details_level : string) : LM unit :=
  λ self,
    let prefix :=
      if bool_decide (level ∈ ["ERROR"; "WARN"]) then "Error in" else "In" in
    lbind (write (prefix +:+ " library '" +:+ lib_name self +:+ "': "
                  +:+ message) level)
          (λ _, if str_truthy details
                then write ("Details:" +:+ newline +:+ or_empty details)
                           details_level
                else lret tt) self.

(** [error] is the message and the details of a [DataError]. *)
Definition _adding_keyword_failed (name : string) (error : string * string)
    (level : string) : LM unit :=
  report_error ("Adding keyword '" +:+ name +:+ "' failed: " +:+ error.1)
               (Some error.2) level "DEBUG".

(** ** The library instance *)

(** The part of [get_listeners] after the instance is there. *)
Definition listeners_of (libinst : LibObject) : list string :=
  match ROBOT_LIBRARY_LISTENER libinst with
  | NoListener => []
  | ListenerList listeners => listeners
  | OneListener listener => [listener]
  end.

(** [bool(x)] of a list *)
Definition nonempty {A} (l : list A) : bool :=
  match l with [] => false | _ => true end.

Section LibraryMethods.
Variable env : LibEnv.

Definition _raise_creating_instance_failed (e : PyExn) : LM LibObject :=
  λ self,
    let '(message, details) := get_error_details env e in
    let args_text :=
      if nonempty (positional_args self) || nonempty (named_args self)
      then "arguments "
           +:+ seq2str2 env
                 (positional_args self
                  ++ map (λ nv, nv.1 +:+ "=" +:+ nv.2) (named_args self))
      else "no arguments" in
    lraise (PyDataError
              ("Initializing library '" +:+ lib_name self +:+ "' with "
               +:+ args_text +:+ " failed: " +:+ message +:+ newline
               +:+ details) "") self.

Definition _get_instance (libcode : LibCode) : LM LibObject :=
  λ self,
    match instantiate libcode (positional_args self) (named_args self) with
    | Done instance => (Done instance, self)
    | Fail e => _raise_creating_instance_failed e self
    end.

Definition _BaseTestLibrary_get_instance (create : bool)
    : LM (option LibObject) :=
  λ self,
    if negb create then (Done (_libinst self), self)
    else
      let created : Try LibObject * Library :=
        match _libinst self with
        | None =>
            match _get_instance (_libcode self) self with
            | (Done instance, self') =>
                (Done instance, set_libinst (Some instance) self')
            | (Fail e, self') => (Fail e, self')
            end
        | Some instance => (Done instance, self)
        end in
      match created with
      | (Fail e, self') => (Fail e, self')
      | (Done instance, self') =>
          let self'' :=
            match has_listener self' with
            | None =>
                set_has_listener (Some (nonempty (listeners_of instance)))
                                 self'
            | Some _ => self'
            end in
          (Done (_libinst self''), self'')
      end.

Definition _ModuleLibrary_get_instance (create : bool)
    : LM (option LibObject) :=
  λ self,
    let libcode := module_object (_libcode self) in
    if negb create then (Done (Some libcode), self)
    else
      let self :=
        match has_listener self with
        | None =>
            set_has_listener (Some (nonempty (listeners_of libcode))) self
        | Some _ => self
        end in
      (Done (Some libcode), self).

Definition get_instance (create : bool) : LM (option LibObject) :=
  λ self,
    match lib_class self with
    | _ModuleLibrary => _ModuleLibrary_get_instance create self
    | _ => _BaseTestLibrary_get_instance create self
    end.

Definition reset_instance (instance : option LibObject)
    : LM (option LibObject) :=
  λ self,
    let prev := _libinst self in
    let self := if negb (is_global self) then set_libinst instance self
                else self in
    (Done prev, self).

(** ** Handler methods *)

Definition _validate_handler_method (method : Method) : Try Method :=
  if negb (isroutine method || ispartial method)
  then Fail (PyDataError "Not a method or function." "")
  else if robot_not_keyword method
  then Fail (PyDataError "Not exposed as a keyword." "")
  else Done method.

(** [getattr(libcode, name)] with an exception turned into a
    [DataError]. *)
Definition getattr_or_data_error (libcode : LibObject) (name : string)
    : Try Method :=
  match obj_getattr libcode name with
  | Done method => _validate_handler_method method
  | Fail e =>
      if is_Exception e
      then let '(message, details) := get_error_details env e in
           Fail (PyDataError ("Getting handler method failed: " +:+ message)
                             details)
      else Fail e
  end.

Definition _BaseTestLibrary_get_handler_method (libcode : LibObject)
    (name : string) : Try Method :=
  getattr_or_data_error libcode name.

(** The loop over [(libinst,) + inspect.getmro(libinst.__class__)]. *)
Fixpoint class_lookup (libinst : LibObject) (name : string)
    (items : list (gmap string bool)) : Try Method :=
  match items with
  | [] => Fail (PyDataError "Not a method or function." "")
  | dict :: items' =>
      match dict !! name with
      | Some true => getattr_or_data_error libinst name
      | _ => class_lookup libinst name items'
      end
  end.

Definition _ClassLibrary_get_handler_method (libinst : LibObject)
    (name : string) : Try Method :=
  class_lookup libinst name (obj_dicts libinst).

Definition _ModuleLibrary_get_handler_method (libcode : LibObject)
    (name : string) : Try Method :=
  match _BaseTestLibrary_get_handler_method libcode name with
  | Done method =>
      match obj_all libcode with
      | Some contains =>
          match contains name with
          | Done false => Fail (PyDataError "Not exposed as a keyword." "")
          | Done true => Done method
          | Fail e => Fail e
          end
      | None => Done method
      end
  | Fail e => Fail e
  end.

Definition _get_handler_method (cls : LibClass) (libcode : LibObject)
    (name : string) : Try Method :=
  match cls with
  | _ModuleLibrary => _ModuleLibrary_get_handler_method libcode name
  | _ClassLibrary => _ClassLibrary_get_handler_method libcode name
  | _HybridLibrary => _BaseTestLibrary_get_handler_method libcode name
  | _DynamicLibrary => Done (run_keyword libcode)
  end.

(** ** Handler names *)

Definition has_robot_name_of (cls : LibClass) (libcode : LibObject)
    (name : string) : Try bool :=
  match _get_handler_method cls libcode name with
  | Done handler => Done (has_robot_name handler)
  | Fail e => if is_DataError e then Done false else Fail e
  end.

(** [name[:1] != '_'] *)
Definition is_public (name : string) : bool :=
  match name with
  | String "_" _ => false
  | _ => true
  end.

(** The list comprehension [[name for name in dir(libcode) if
    predicate(name)]]. *)
Fixpoint select_names (predicate : string → Try bool) (names : list string)
    : Try (list string) :=
  match names with
  | [] => Done []
  | name :: names' =>
      match predicate name with
      | Fail e => Fail e
      | Done keep =>
          match select_names predicate names' with
          | Fail e => Fail e
          | Done rest => Done (if keep then name :: rest else rest)
          end
      end
  end.

Definition _BaseTestLibrary_get_handler_names (cls : LibClass)
    (libcode : LibObject) : Try (list string) :=
  let predicate :=
    if ROBOT_AUTO_KEYWORDS libcode
    then λ name, if is_public name then Done true
                 else has_robot_name_of cls libcode name
    else has_robot_name_of cls libcode in
  select_names predicate (obj_dir libcode).

Definition _get_handler_names (cls : LibClass) (libcode : LibObject)
    : Try (list string) :=
  match cls with
  | _HybridLibrary | _DynamicLibrary => get_keyword_names libcode
  | _ => _BaseTestLibrary_get_handler_names cls libcode
  end.

(** ** Creating handlers *)

Definition _try_to_get_handler_method (libcode : LibObject) (name : string)
    : LM (option Method) :=
  λ self,
    match _get_handler_method (lib_class self) libcode name with
    | Done method => (Done (Some method), self)
    | Fail (PyDataError message details) =>
        lbind (_adding_keyword_failed name (message, details)
                 (get_handler_error_level (lib_class self)))
              (λ _, lret None) self
    | Fail e => (Fail e, self)
    end.

Definition _get_possible_embedded_args_handler (handler : KeywordHandler)
    : Try (KeywordHandler * bool) :=
  match embedded_from_name env (handler_name handler) with
  | Fail e => Fail e
  | Done None => Done (handler, false)
  | Done (Some args) =>
      if bool_decide (maxargs handler < Z.of_nat (length args))
      then Fail (PyDataError
                   "Keyword must accept at least as many positional arguments as it has embedded arguments."
                   "")
      else Done (mkHandler (handler_name handler) (maxargs handler)
                           (Some args), true)
  end.

Definition _try_to_create_handler (name : string) (method : Method)
    : LM (option KeywordHandler * bool) :=
  λ self,
    match new_handler env (lib_class self) name method with
    | Fail (PyDataError message details) =>
        lbind (_adding_keyword_failed name (message, details) "ERROR")
              (λ _, lret (None, false)) self
    | Fail e => (Fail e, self)
    | Done handler =>
        match _get_possible_embedded_args_handler handler with
        | Fail (PyDataError message details) =>
            lbind (_adding_keyword_failed (handler_name handler)
                     (message, details) "ERROR")
                  (λ _, lret (None, false)) self
        | Fail e => (Fail e, self)
        | Done (handler', is_embedded) =>
            (Done (Some handler', is_embedded), self)
        end
    end.

(** The body of the loop of [_create_handlers] for one name. *)
Definition create_handler_for (libcode : LibObject) (name : string)
    : LM unit :=
  lbind (_try_to_get_handler_method libcode name) (λ method,
    match method with
    | None => lret tt
    | Some method =>
        lbind (_try_to_create_handler name method) (λ created,
          match created.1 with
          | None => lret tt
          | Some handler =>
              λ self,
                match store_add env handler created.2 (handlers self) with
                | Done store =>
                    write ("Created keyword '" +:+ handler_name handler
                           +:+ "'.")
                          "DEBUG" (set_handlers store self)
                | Fail (PyDataError message details) =>
                    _adding_keyword_failed (handler_name handler)
                      (message, details) "ERROR" self
                | Fail e => (Fail e, self)
                end
          end)
    end).

Fixpoint create_handlers_loop (libcode : LibObject) (names : list string)
    : LM unit :=
  match names with
  | [] => lret tt
  | name :: names' =>
      lbind (create_handler_for libcode name)
            (λ _, create_handlers_loop libcode names')
  end.

Definition _create_handlers (libcode : LibObject) : LM unit :=
  λ self,
    match _get_handler_names (lib_class self) libcode with
    | Fail e =>
        if is_Exception e
        then let '(message, details) := get_error_details env e in
             (Fail (PyDataError
                      ("Getting keyword names from library '"
                       +:+ lib_name self +:+ "' failed: " +:+ message)
                      details), self)
        else (Fail e, self)
    | Done names => create_handlers_loop libcode names self
    end.

(** [create_handlers]: [get_instance()] returns the instance it has just
    made sure of. *)
Definition create_handlers : LM unit :=
  lbind (get_instance true) (λ instance,
    match instance with
    | Some libcode =>
        lbind (_create_handlers libcode) (λ _,
          lbind (reset_instance None) (λ _, lret tt))
    | None => lret tt
    end).
End LibraryMethods.

(** A library to run the methods on. *)
Definition sample_lib_env : LibEnv :=
  {| get_error_details := λ e,
       match e with
       | PyDataError message details => (message, details)
       | PyException class_name message =>
           (class_name +:+ ": " +:+ message, "Traceback")
       | PyBaseException class_name => (class_name, "Traceback")
       end;
     seq2str2 := λ items, "[ " +:+ foldr (λ x acc, x +:+ " | " +:+ acc) "]" items;
     new_handler := λ _ name _, Done (mkHandler name 2 None);
     embedded_from_name := λ _, Done None;
     store_add := λ handler _ store, Done (store ++ [handler]) |}.

Definition keyword_method (name : string) : Method :=
  mkMethod name true false false false.

Definition sample_object : LibObject :=
  {| obj_dir := ["__init__"; "_helper"; "log_message"; "version"];
     obj_getattr := λ name,
       if bool_decide (name = "version")
       then Done (mkMethod name false false false false)
       else Done (keyword_method name);
     obj_dicts := [ {[ "version" := false ]};
                    {[ "log_message" := true; "_helper" := true ]} ];
     obj_all := None;
     ROBOT_AUTO_KEYWORDS := true;
     ROBOT_LIBRARY_LISTENER := NoListener;
     get_keyword_names := Done [];
     run_keyword := keyword_method "run_keyword" |}.

Definition sample_libcode : LibCode :=
  {| ismodule := false; GetKeywordNames := false; RunKeyword := false;
     instantiate := λ _ _, Done sample_object;
     module_object := sample_object |}.

Definition sample_library : Library :=
  {| lib_class := _ClassLibrary; lib_name := "Sample";
     _libcode := sample_libcode; _libinst := None; has_listener := None;
     is_global := false; positional_args := []; named_args := [];
     handlers := []; logger := [] |}.

(** A library whose code cannot be called. *)
Definition failing_library : Library :=
  {| lib_class := _ClassLibrary; lib_name := "Broken";
     _libcode :=
       {| ismodule := false; GetKeywordNames := false; RunKeyword := false;
          instantiate := λ _ _, Fail (PyException "ValueError" "bad argument");
          module_object := sample_object |};
     _libinst := None; has_listener := None;
     is_global := false; positional_args := ["x"]; named_args := [];
     handlers := []; logger := [] |}.

(** A module with [ROBOT_AUTO_KEYWORDS = False] and an [__all__] that
    lists two names: [_private] is a function decorated as a keyword (it
    has [robot_name]), [helper] and [log_message] are plain functions and
    [__doc__] is a string. *)
Definition decorated_module : LibObject :=
  {| obj_dir := ["__doc__"; "_private"; "helper"; "log_message"];
     obj_getattr := λ name,
       if bool_decide (name = "__doc__")
       then Done (mkMethod name false false false false)
       else if bool_decide (name = "_private")
       then Done (mkMethod name true false false true)
       else Done (keyword_method name);
     obj_dicts := [];
     obj_all := Some (λ name, Done (bool_decide (name = "_private")
                                    || bool_decide (name = "log_message")));
     ROBOT_AUTO_KEYWORDS := false;
     ROBOT_LIBRARY_LISTENER := NoListener;
     get_keyword_names := Done [];
     run_keyword := keyword_method "run_keyword" |}.



(** A hybrid library whose [get_keyword_names] fails. *)
Definition nameless_object : LibObject :=
  {| obj_dir := obj_dir sample_object;
     obj_getattr := obj_getattr sample_object;
     obj_dicts := obj_dicts sample_object;
     obj_all := None;
     ROBOT_AUTO_KEYWORDS := true;
     ROBOT_LIBRARY_LISTENER := NoListener;
     get_keyword_names := Fail (PyException "RuntimeError" "no names");
     run_keyword := keyword_method "run_keyword" |}.

Definition hybrid_library : Library :=
  {| lib_class := _HybridLibrary; lib_name := "Hybrid";
     _libcode :=
       {| ismodule := false; GetKeywordNames := true; RunKeyword := false;
          instantiate := λ _ _, Done nameless_object;
          module_object := nameless_object |};
     _libinst := Some nameless_object; has_listener := Some false;
     is_global := false; positional_args := []; named_args := [];
     handlers := []; logger := [] |}.

(** Two states of a library that differ at most in the handlers stored
    and in what has been logged, the log of the second extending that of
    the first. *)
Definition same_but_handlers (self self' : Library) : Prop :=
  lib_class self' = lib_class self
  ∧ lib_name self' = lib_name self
  ∧ _libcode self' = _libcode self
  ∧ _libinst self' = _libinst self
  ∧ has_listener self' = has_listener self
  ∧ is_global self' = is_global self
  ∧ positional_args self' = positional_args self
  ∧ named_args self' = named_args self
  ∧ logger self `prefix_of` logger self'.

(** What [name] is kept for by the predicate of [_get_handler_names]. *)
Definition keeps (predicate : string → Try bool) (name : string) : bool :=
  match predicate name with
  | Done true => true
  | _ => false
  end.

(** ** Properties of the message rewrite *)

Lemma str_truthy_Some (s : string) : s ≠ "" → str_truthy (Some s) = true.
Proof. by destruct s. Qed.

Lemma string_app_assoc (s1 s2 s3 : string) :
  (s1 +:+ s2) +:+ s3 = s1 +:+ (s2 +:+ s3).
Proof.
  induction s1 as [|c s1 IH]; [done|].
  change (String c ((s1 +:+ s2) +:+ s3) = String c (s1 +:+ (s2 +:+ s3))).
  by rewrite IH.
Qed.

(** C1.  The flattened message depends on the original status text only and
    has three cases: a missing or empty text gives exactly
    ["*HTML* <i>Content flattened.</i>"]; a text that starts with ["*HTML*"]
    gives ["*HTML* "], the text without its first six characters and
    stripped of surrounding whitespace, and ["<hr><i>Content flattened.</i>"];
    any other text gives ["*HTML* "], the escaped text and
    ["<hr><i>Content flattened.</i>"].  With an escaping function that sends
    ["a < b"] to ["a &lt; b"], the three examples of the spec come out as
    written. *)
Theorem create_flattened_message_cases
    (html_escape : string → string)
    (Hesc : html_escape "a < b" = "a &lt; b") :
  let flat := _create_flattened_message html_escape in
  flat None = "*HTML* <i>Content flattened.</i>" ∧
  flat (Some "") = "*HTML* <i>Content flattened.</i>" ∧
  (∀ s, s ≠ "" → startswith s "*HTML*" = true →
        flat (Some s) =
        "*HTML* " +:+ strip (slice_from 6 s) +:+ "<hr><i>Content flattened.</i>") ∧
  (∀ s, s ≠ "" → startswith s "*HTML*" = false →
        flat (Some s) =
        "*HTML* " +:+ html_escape s +:+ "<hr><i>Content flattened.</i>") ∧
  flat (Some "*HTML* <b>ok</b>") = "*HTML* <b>ok</b><hr><i>Content flattened.</i>" ∧
  flat (Some "a < b") = "*HTML* a &lt; b<hr><i>Content flattened.</i>".
Proof.
  intros flat. subst flat. unfold _create_flattened_message.
  repeat split.
  - intros s Hs Hp. rewrite (str_truthy_Some s Hs), Hp. simpl.
    by rewrite string_app_assoc.
  - intros s Hs Hp. rewrite (str_truthy_Some s Hs), Hp. simpl.
    by rewrite string_app_assoc.
  - simpl. by rewrite Hesc.
Qed.

Lemma create_flattened_message_cases_witness :
  html_escape_model "a < b" = "a &lt; b" ∧
  _create_flattened_message html_escape_model (Some "a < b")
  = "*HTML* a &lt; b<hr><i>Content flattened.</i>".
Proof.
  split; [reflexivity|].
  apply (create_flattened_message_cases html_escape_model). reflexivity.
Defined.

(** ** Induction over documents *)

Lemma Xml_ind (P : Xml → Prop) :
  (∀ elem children, Forall P children → P (Node elem children)) →
  ∀ t, P t.
Proof.
  intros HNode. fix IH 1. intros [elem cs]. apply HNode.
  induction cs as [|c cs IHcs]; constructor; [apply IH | exact IHcs].
Qed.

(** ** The omission filter *)

Arguments omit_step : simpl never.

Lemma omit_step_spec n ev :
  omit_step n ev =
  (omit_enter n ev - (if omit_of ev.2 && negb (is_start ev.1) then 1 else 0),
   if bool_decide (omit_enter n ev = 0) then Yield ev else suppress ev).
Proof.
  destruct ev as [event elem]. unfold omit_step, omit_enter, suppress. simpl.
  destruct (omit_of elem), (is_start event); simpl; f_equal; lia.
Qed.

Lemma omit_loop_cons n ev l :
  omit_loop n (ev :: l) = (omit_step n ev).2 :: omit_loop (omit_step n ev).1 l.
Proof. simpl. by destruct (omit_step n ev). Qed.

Lemma omit_counter_cons n ev l :
  omit_counter n (ev :: l) = omit_counter (omit_step n ev).1 l.
Proof. done. Qed.

Lemma omit_loop_app n l1 l2 :
  omit_loop n (l1 ++ l2) = omit_loop n l1 ++ omit_loop (omit_counter n l1) l2.
Proof.
  revert n. induction l1 as [|ev l1 IH]; intros n; [done|].
  rewrite <- app_comm_cons, !omit_loop_cons, omit_counter_cons, IH. done.
Qed.

Lemma omit_counter_app n l1 l2 :
  omit_counter n (l1 ++ l2) = omit_counter (omit_counter n l1) l2.
Proof. unfold omit_counter. by rewrite foldl_app. Qed.

Lemma omit_loop_length n l : length (omit_loop n l) = length l.
Proof.
  revert n. induction l as [|ev l IH]; intros n; [done|].
  rewrite omit_loop_cons. simpl. by rewrite IH.
Qed.

Lemma yielded_app l1 l2 : yielded (l1 ++ l2) = yielded l1 ++ yielded l2.
Proof.
  induction l1 as [|[] l1 IH]; simpl; [done|by rewrite IH|done..].
Qed.

Lemma yielded_map_suppress l : yielded (map suppress l) = [].
Proof.
  induction l as [|[[] elem] l IH]; simpl; done.
Qed.

Lemma events_Node elem cs :
  events (Node elem cs)
  = (EvStart, elem) :: flat_map events cs ++ [(EvEnd, elem)].
Proof. done. Qed.

Lemma omit_start n elem :
  omit_step n (EvStart, elem)
  = (if omit_of elem then n + 1 else n,
     if bool_decide ((if omit_of elem then n + 1 else n) = 0)
     then Yield (EvStart, elem) else Skip).
Proof. rewrite omit_step_spec. unfold omit_enter, suppress. simpl.
  destruct (omit_of elem); simpl; f_equal; lia. Qed.

Lemma omit_end n elem :
  omit_step n (EvEnd, elem)
  = (if omit_of elem then n - 1 else n,
     if bool_decide (n = 0) then Yield (EvEnd, elem) else Clear elem).
Proof. rewrite omit_step_spec. unfold omit_enter, suppress. simpl.
  destruct (omit_of elem); simpl; f_equal; lia. Qed.

(** The counter is back at its value after the events of a document. *)
Lemma omit_counter_events t n : omit_counter n (events t) = n.
Proof.
  revert n. induction t as [elem cs IH] using Xml_ind. intros n.
  assert (Hcs : ∀ k, omit_counter k (flat_map events cs) = k).
  { induction IH as [|c cs Hc _ IHcs]; intros k; [done|].
    simpl. by rewrite omit_counter_app, Hc, IHcs. }
  rewrite events_Node, omit_counter_cons, omit_counter_app, Hcs.
  rewrite omit_start. cbn [fst snd].
  rewrite omit_counter_cons, omit_end. cbn [fst snd].
  unfold omit_counter. simpl. destruct (omit_of elem); lia.
Qed.

Lemma omit_counter_forest cs n : omit_counter n (flat_map events cs) = n.
Proof.
  revert n. induction cs as [|c cs IH]; intros n; [done|].
  simpl. by rewrite omit_counter_app, omit_counter_events, IH.
Qed.

(** While the counter is positive every event of a document is suppressed. *)
Lemma omit_loop_suppressed t n :
  0 < n → omit_loop n (events t) = map suppress (events t).
Proof.
  revert n. induction t as [elem cs IH] using Xml_ind. intros n Hn.
  assert (Hcs : ∀ k, 0 < k →
            omit_loop k (flat_map events cs) = map suppress (flat_map events cs)).
  { induction IH as [|c cs Hc _ IHcs]; intros k Hk; [done|].
    simpl. rewrite omit_loop_app, omit_counter_events, map_app.
    by rewrite Hc, IHcs. }
  rewrite events_Node, omit_loop_cons, omit_start. cbn [fst snd].
  rewrite omit_loop_app, omit_counter_forest, omit_loop_cons, omit_end.
  cbn [fst snd map]. rewrite map_app. cbn [map omit_loop].
  unfold suppress at 1 3. cbn [fst snd is_start]. simpl bool_decide.
  destruct (omit_of elem); rewrite !bool_decide_eq_false_2 by lia;
    by rewrite Hcs by lia.
Qed.

Lemma omit_loop_forest_suppressed cs n :
  0 < n →
  omit_loop n (flat_map events cs) = map suppress (flat_map events cs).
Proof.
  intros Hn. induction cs as [|c cs IH]; [done|].
  simpl. rewrite omit_loop_app, omit_counter_events, map_app.
  by rewrite omit_loop_suppressed, IH.
Qed.

(** A subtree rooted at an omitted element is suppressed as a whole. *)
Lemma omit_loop_omitted t n :
  0 ≤ n → omit_of (root t) = true →
  omit_loop n (events t) = map suppress (events t).
Proof.
  intros Hn Ho. destruct t as [elem cs]. simpl in Ho.
  rewrite events_Node, omit_loop_cons, omit_start, Ho. cbn [fst snd].
  rewrite omit_loop_app, omit_counter_forest, omit_loop_cons, omit_end.
  cbn [fst snd map]. rewrite map_app. cbn [map omit_loop].
  unfold suppress at 1 3. cbn [fst snd is_start]. simpl bool_decide.
  rewrite !bool_decide_eq_false_2 by lia.
  by rewrite omit_loop_forest_suppressed by lia.
Qed.

(** What is forwarded of a document is the document without its omitted
    subtrees. *)
Lemma omit_yielded_events t :
  yielded (omit_loop 0 (events t)) = flat_map events (strip_omitted t).
Proof.
  induction t as [elem cs IH] using Xml_ind.
  destruct (omit_of elem) eqn:Ho.
  - rewrite omit_loop_omitted by (simpl; done || lia).
    rewrite yielded_map_suppress. simpl. by rewrite Ho.
  - assert (Hcs : yielded (omit_loop 0 (flat_map events cs))
                  = flat_map events (flat_map strip_omitted cs)).
    { induction IH as [|c cs Hc _ IHcs]; [done|].
      simpl. rewrite omit_loop_app, omit_counter_events, yielded_app.
      rewrite flat_map_app. by rewrite Hc, IHcs. }
    rewrite events_Node, omit_loop_cons, omit_start, Ho. cbn [fst snd].
    rewrite bool_decide_eq_true_2 by done. cbn [yielded].
    rewrite omit_loop_app, omit_counter_forest, yielded_app.
    rewrite omit_loop_cons, omit_end, Ho. cbn [fst snd].
    rewrite bool_decide_eq_true_2 by done.
    rewrite Hcs. simpl. rewrite Ho.
    change (flat_map events [Node elem (flat_map strip_omitted cs)])
      with (events (Node elem (flat_map strip_omitted cs)) ++ []).
    by rewrite app_nil_r.
Qed.

Lemma omit_loop_lookup n pre ev post :
  omit_loop n (pre ++ ev :: post) !! length pre
  = Some (omit_step (omit_counter n pre) ev).2.
Proof.
  rewrite omit_loop_app, lookup_app_r by (by rewrite omit_loop_length).
  rewrite omit_loop_length, Nat.sub_diag, omit_loop_cons. done.
Qed.

Lemma omit_of_teardown elem :
  elem_get elem "type" = Some "TEARDOWN" → omit_of elem = false.
Proof.
  intros H. unfold omit_of. rewrite (bool_decide_eq_true_2 _ H).
  apply andb_false_r.
Qed.

Lemma omit_of_other_tag elem :
  tag elem ∉ ["kw"; "for"; "if"] → omit_of elem = false.
Proof. intros H. unfold omit_of. by rewrite (bool_decide_eq_false_2 _ H). Qed.

(** C2, as stated, fails: a subtree rooted at a [kw] with
    [type="TEARDOWN"] is not forwarded as a whole.  Of the teardown keyword
    [teardown_with_child] only the root's own Open and Close are forwarded;
    the keyword it calls is omitted like any other. *)
Lemma omit_teardown_subtree_not_forwarded :
  ¬ (∀ t : Xml,
       tag (root t) ∈ ["kw"; "for"; "if"] →
       elem_get (root t) "type" = Some "TEARDOWN" →
       yielded (_omit_keywords (events t)) = events t).
Proof.
  intros H. specialize (H teardown_with_child).
  assert (Hlen : length (yielded (_omit_keywords (events teardown_with_child)))
                 = 2%nat) by (vm_compute; reflexivity).
  rewrite H in Hlen; [discriminate Hlen| |reflexivity].
  apply list_elem_of_In; simpl; auto.
Qed.

(** C2 (amended).  The omission filter forwards an event if and only if the
    counter of open omitted subtrees, taken after the increment for the
    event itself, is zero; an event that is not forwarded has its element
    cleared if it is a Close.  The counter goes up on the Open of a
    [kw]/[for]/[if] element whose [type] is not ["TEARDOWN"] and down after
    the Close of such an element; [while]/[iter]/[try] elements and elements
    with [type="TEARDOWN"] do not move it.  Hence a subtree of a document
    rooted at a [kw]/[for]/[if] without [type="TEARDOWN"] is suppressed
    as a whole with its own Open and Close, every Close in it clearing its
    element; and what is forwarded of a document is the document without
    these subtrees: of a subtree rooted at an element that does not trigger
    omission (a teardown, a [while], ...) and not lying in an omitted one,
    the root's Open and Close are forwarded, and its children are filtered
    in the same way. *)
Theorem omit_keywords_forwarding :
  (∀ pre ev post,
     _omit_keywords (pre ++ ev :: post) !! length pre
     = Some (if bool_decide (omit_enter (omit_counter 0 pre) ev = 0)
             then Yield ev else suppress ev)) ∧
  (∀ pre ev,
     omit_counter 0 (pre ++ [ev])
     = omit_counter 0 pre
       + (if omit_of ev.2 && is_start ev.1 then 1 else 0)
       - (if omit_of ev.2 && negb (is_start ev.1) then 1 else 0)) ∧
  (∀ elem,
     omit_of elem = true ↔
     tag elem ∈ ["kw"; "for"; "if"] ∧ elem_get elem "type" ≠ Some "TEARDOWN") ∧
  (∀ elem, tag elem ∈ ["while"; "iter"; "try"] → omit_of elem = false) ∧
  (∀ t n, 0 ≤ n → omit_of (root t) = true →
          omit_loop n (events t) = map suppress (events t)) ∧
  (∀ t, omit_of (root t) = false →
        yielded (_omit_keywords (events t))
        = (EvStart, root t)
            :: flat_map events (flat_map strip_omitted (children t))
            ++ [(EvEnd, root t)]) ∧
  (∀ t, yielded (_omit_keywords (events t)) = flat_map events (strip_omitted t)).
Proof.
  repeat apply conj.
  - intros pre ev post. unfold _omit_keywords.
    by rewrite omit_loop_lookup, omit_step_spec.
  - intros pre ev. rewrite omit_counter_app. unfold omit_counter at 1.
    simpl. rewrite omit_step_spec. unfold omit_enter. simpl.
    destruct (omit_of ev.2), (is_start ev.1); simpl; lia.
  - intros elem. unfold omit_of.
    rewrite andb_true_iff, negb_true_iff, bool_decide_eq_true,
      bool_decide_eq_false. done.
  - intros elem H. apply omit_of_other_tag.
    rewrite !elem_of_cons, elem_of_nil in H |- *.
    intros [E|[E|[E|[]]]]; rewrite E in H;
      destruct H as [H|[H|[H|[]]]]; discriminate H.
  - apply omit_loop_omitted.
  - intros [elem cs] Ho. simpl in Ho. unfold _omit_keywords.
    rewrite omit_yielded_events. simpl. rewrite Ho.
    change (flat_map events [Node elem (flat_map strip_omitted cs)])
      with (events (Node elem (flat_map strip_omitted cs)) ++ []).
    by rewrite app_nil_r.
  - intros t. apply omit_yielded_events.
Qed.

Lemma omit_keywords_forwarding_witness :
  omit_of (root teardown_with_child) = false
  ∧ yielded (_omit_keywords (events teardown_with_child))
    = [(EvStart, root teardown_with_child);
       (EvEnd, root teardown_with_child)].
Proof.
  split; [reflexivity|].
  apply (proj1 (proj2 (proj2 (proj2 (proj2 (proj2
           omit_keywords_forwarding))))) teardown_with_child).
  reflexivity.
Defined.

(** ** The flattening filter *)

Section FlattenFacts.
Variable html_escape : string → string.
Variable m : Matchers.

#[local] Abbreviation step := (flatten_step html_escape m).
#[local] Abbreviation loop := (flatten_loop html_escape m).
#[local] Abbreviation state := (flatten_state html_escape m).
#[local] Abbreviation flat := (_create_flattened_message html_escape).

Lemma flatten_loop_cons st ev l :
  loop st (ev :: l) = (step st ev).2 :: loop (step st ev).1 l.
Proof. simpl. by destruct (flatten_step html_escape m st ev). Qed.

Lemma flatten_state_cons st ev l :
  state st (ev :: l) = state (step st ev).1 l.
Proof. done. Qed.

Lemma flatten_state_app st l1 l2 :
  state st (l1 ++ l2) = state (state st l1) l2.
Proof. unfold flatten_state. by rewrite foldl_app. Qed.

Lemma flatten_loop_app st l1 l2 :
  loop st (l1 ++ l2) = loop st l1 ++ loop (state st l1) l2.
Proof.
  revert st. induction l1 as [|ev l1 IH]; intros st; [done|].
  rewrite <- app_comm_cons, !flatten_loop_cons, flatten_state_cons, IH.
  done.
Qed.

Lemma container_not_msg tag :
  in_containers tag = true → bool_decide (tag = "msg") = false.
Proof.
  unfold in_containers, containers. intros H%bool_decide_eq_true.
  apply bool_decide_eq_false. intros ->.
  rewrite !elem_of_cons, elem_of_nil in H.
  destruct H as [H|[H|[H|[H|[H|[H|[]]]]]]]; discriminate H.
Qed.

Lemma container_not_tag tag :
  in_containers tag = true → tag ≠ "tag" ∧ tag ≠ "status".
Proof.
  unfold in_containers, containers. intros H%bool_decide_eq_true.
  rewrite !elem_of_cons, elem_of_nil in H.
  split; intros ->;
    destruct H as [H|[H|[H|[H|[H|[H|[]]]]]]]; discriminate H.
Qed.

(** The loop body on the Open of a container. *)
Lemma flatten_step_open_container st elem :
  in_containers (tag elem) = true →
  let started' :=
    if bool_decide (0 ≤ started st) then started st + 1
    else if trigger_matches m elem then 0 else started st in
  step st (EvStart, elem)
  = ({| started := started'; tags := []; inside := inside st + 1 |},
     if bool_decide (started' ≤ 0) then Yield (EvStart, elem)
     else Clear elem).
Proof.
  intros Hc. unfold flatten_step, flatten_update, trigger_matches.
  rewrite Hc. cbn [fst snd started tags inside].
  rewrite (container_not_msg _ Hc), orb_false_r.
  rewrite (bool_decide_eq_false_2 (EvStart = EvEnd)) by done.
  rewrite andb_false_r. cbn [andb].
  destruct (bool_decide (0 ≤ started st)); [done|].
  destruct (by_name m && _); [done|].
  by destruct (by_type m && _).
Qed.

(** The loop body on the Open of any other element. *)
Lemma flatten_step_open_other st elem :
  in_containers (tag elem) = false →
  step st (EvStart, elem)
  = (st, if bool_decide (started st ≤ 0) || bool_decide (tag elem = "msg")
         then Yield (EvStart, elem) else Clear elem).
Proof.
  intros Hc. unfold flatten_step, flatten_update.
  rewrite Hc. cbn [fst snd]. by rewrite andb_false_r.
Qed.

(** The loop body on the Close of a container. *)
Lemma flatten_step_close_container st elem :
  in_containers (tag elem) = true →
  step st (EvEnd, elem)
  = ({| started := if bool_decide (0 ≤ started st) then started st - 1
                   else started st;
        tags := tags st; inside := inside st - 1 |},
     if bool_decide (started st ≤ 0) then Yield (EvEnd, elem)
     else Clear elem).
Proof.
  intros Hc. unfold flatten_step, flatten_update. cbn [fst snd].
  rewrite Hc. cbn [fst snd started tags inside].
  rewrite (container_not_msg _ Hc), orb_false_r.
  rewrite (bool_decide_eq_true_2 (EvEnd = EvEnd)) by done.
  rewrite andb_true_r. by destruct (bool_decide (0 ≤ started st)).
Qed.

(** The loop body on the Close of a [tag] element. *)
Lemma flatten_step_close_tag st elem :
  tag elem = "tag" →
  let reads :=
    by_tags m && negb (bool_decide (inside st = 0))
    && bool_decide (started st < 0) in
  let tags' := tags st ++ [or_empty (text elem)] in
  step st (EvEnd, elem)
  = (if reads
     then {| started := if tags_match m tags' then 0 else started st;
             tags := tags'; inside := inside st |}
     else st,
     if bool_decide (started st ≤ 0) then Yield (EvEnd, elem)
     else Clear elem).
Proof.
  intros Ht. unfold flatten_step, flatten_update. cbn [fst snd].
  rewrite Ht. change (in_containers "tag") with false.
  simpl bool_decide. cbv iota. rewrite andb_true_r.
  destruct (by_tags m && _ && bool_decide (started st < 0)) eqn:E.
  - cbn [started tags inside]. rewrite andb_false_r, orb_false_r.
    apply andb_true_iff in E as [_ E%bool_decide_eq_true].
    rewrite (bool_decide_eq_true_2 (started st ≤ 0)) by lia.
    destruct (tags_match m _); [done|].
    by rewrite bool_decide_eq_true_2 by lia.
  - rewrite andb_false_r. cbv iota.
    by rewrite andb_false_r, orb_false_r.
Qed.

(** The loop body on the Close of a [status] element. *)
Lemma flatten_step_close_status st elem :
  tag elem = "status" →
  step st (EvEnd, elem)
  = (st,
     if bool_decide (started st ≤ 0)
     then Yield (EvEnd,
                 if bool_decide (started st = 0)
                 then set_text elem (Some (flat (text elem))) else elem)
     else Clear elem).
Proof.
  intros Ht. unfold flatten_step, flatten_update. cbn [fst snd].
  rewrite Ht. change (in_containers "status") with false.
  simpl bool_decide. cbv iota. rewrite andb_false_r, andb_true_r.
  destruct (bool_decide (started st = 0)) eqn:E; cbv iota;
    rewrite andb_false_r, orb_false_r; [|done].
  apply bool_decide_eq_true in E.
  by rewrite bool_decide_eq_true_2 by lia.
Qed.

(** The loop body on the Close of any other element. *)
Lemma flatten_step_close_other st elem :
  in_containers (tag elem) = false →
  tag elem ≠ "tag" → tag elem ≠ "status" →
  step st (EvEnd, elem)
  = (st, if bool_decide (started st ≤ 0) || bool_decide (tag elem = "msg")
         then Yield (EvEnd, elem) else Clear elem).
Proof.
  intros Hc Ht Hs. unfold flatten_step, flatten_update. cbn [fst snd].
  rewrite Hc, (bool_decide_eq_false_2 _ Ht), (bool_decide_eq_false_2 _ Hs).
  rewrite !andb_false_r. done.
Qed.
(** The decision to yield, in terms of the first part of the loop body. *)
Lemma flatten_step_action st ev :
  (step st ev).2
  = if bool_decide (started (flatten_update html_escape m st ev).1 ≤ 0)
       || bool_decide (is_msg ev)
    then Yield (ev.1, (flatten_update html_escape m st ev).2)
    else Clear (flatten_update html_escape m st ev).2.
Proof.
  unfold flatten_step, is_msg.
  by destruct (flatten_update html_escape m st ev).
Qed.

(** The only change the loop body makes to an element: the text of a
    [status] that closes while [started] is [0]. *)
Lemma flatten_update_elem st ev :
  (flatten_update html_escape m st ev).2
  = if bool_decide (started st = 0) && bool_decide (ev.1 = EvEnd)
       && bool_decide (tag ev.2 = "status")
    then set_text ev.2 (Some (flat (text ev.2)))
    else ev.2.
Proof.
  destruct ev as [[] elem]; unfold flatten_update; cbn [fst snd].
  - rewrite (bool_decide_eq_false_2 (EvStart = EvEnd)) by done.
    rewrite andb_false_r. by destruct (in_containers (tag elem)).
  - rewrite (bool_decide_eq_true_2 (EvEnd = EvEnd)) by done.
    rewrite andb_true_r.
    destruct (in_containers (tag elem)) eqn:Hc.
    + destruct (container_not_tag _ Hc) as [_ Hs].
      by rewrite (bool_decide_eq_false_2 _ Hs), andb_false_r.
    + destruct (decide (tag elem = "tag")) as [Ht|Ht].
      * rewrite Ht. simpl bool_decide. rewrite andb_false_r, andb_true_r.
        by destruct (by_tags m && _ && _).
      * rewrite (bool_decide_eq_false_2 _ Ht), andb_false_r.
        by destruct (bool_decide (started st = 0) && _).
Qed.



Lemma bool_decide_is_msg ev :
  bool_decide (is_msg ev) = bool_decide (tag ev.2 = "msg").
Proof. done. Qed.

Lemma collapse_not_msg ev :
  bool_decide (tag ev.2 = "msg") = false → collapse ev = Clear ev.2.
Proof. unfold collapse. rewrite bool_decide_is_msg. by intros ->. Qed.

(** Inside a collapsed region (nesting counter at least 1) only messages
    are forwarded, every other element is cleared, and the counter is
    back at its value after a whole subtree. *)
Lemma flatten_collapsed t st :
  1 ≤ started st →
  loop st (events t) = map collapse (events t)
  ∧ started (state st (events t)) = started st.
Proof.
  revert st. induction t as [elem cs IH] using Xml_ind. intros st Hst.
  assert (Hcs : ∀ st', 1 ≤ started st' →
            loop st' (flat_map events cs) = map collapse (flat_map events cs)
            ∧ started (state st' (flat_map events cs)) = started st').
  { induction IH as [|c cs Hc _ IHcs]; intros st' Hst'; [done|].
    simpl. destruct (Hc st' Hst') as [Hl Hs].
    rewrite flatten_loop_app, flatten_state_app, map_app, Hl.
    destruct (IHcs (state st' (events c))) as [Hl' Hs']; [lia|].
    rewrite Hl', Hs', Hs. done. }
  rewrite events_Node, flatten_loop_cons, flatten_state_cons.
  rewrite flatten_loop_app, flatten_state_app. cbn [map].
  rewrite map_app. cbn [map].
  destruct (in_containers (tag elem)) eqn:Hc.
  - rewrite (flatten_step_open_container _ _ Hc). cbn [fst snd].
    rewrite (bool_decide_eq_true_2 (0 ≤ started st)) by lia.
    rewrite (bool_decide_eq_false_2 (started st + 1 ≤ 0)) by lia.
    set (st1 := {| started := started st + 1; tags := []; inside := _ |}).
    destruct (Hcs st1) as [Hl Hs]; [simpl; lia|].
    rewrite Hl. rewrite flatten_loop_cons, flatten_state_cons.
    rewrite (flatten_step_close_container _ _ Hc). cbn [fst snd flatten_loop].
    rewrite Hs. subst st1. cbn [started].
    rewrite (bool_decide_eq_true_2 (0 ≤ started st + 1)) by lia.
    rewrite (bool_decide_eq_false_2 (started st + 1 ≤ 0)) by lia.
    rewrite !collapse_not_msg by (by apply container_not_msg).
    split; [done|]. unfold flatten_state. simpl. lia.
  - rewrite (flatten_step_open_other _ _ Hc). cbn [fst snd].
    rewrite (bool_decide_eq_false_2 (started st ≤ 0)) by lia. cbn [orb].
    destruct (Hcs st Hst) as [Hl Hs]. rewrite Hl.
    rewrite flatten_loop_cons, flatten_state_cons. cbn [flatten_loop].
    assert (Hend : step (state st (flat_map events cs)) (EvEnd, elem)
                   = (state st (flat_map events cs), collapse (EvEnd, elem))).
    { destruct (decide (tag elem = "tag")) as [Ht|Ht];
        [|destruct (decide (tag elem = "status")) as [Hs'|Hs']].
      - rewrite (flatten_step_close_tag _ _ Ht).
        rewrite (bool_decide_eq_false_2 (_ < 0)) by lia.
        rewrite andb_false_r.
        rewrite (bool_decide_eq_false_2 (_ ≤ 0)) by lia.
        rewrite collapse_not_msg; [done|]. simpl. by rewrite Ht.
      - rewrite (flatten_step_close_status _ _ Hs').
        rewrite (bool_decide_eq_false_2 (_ ≤ 0)) by lia.
        rewrite collapse_not_msg; [done|]. simpl. by rewrite Hs'.
      - rewrite (flatten_step_close_other _ _ Hc Ht Hs').
        rewrite (bool_decide_eq_false_2 (_ ≤ 0)) by lia. done. }
    rewrite Hend. cbn [fst snd]. split; [done|].
    unfold flatten_state at 1. simpl. exact Hs.
Qed.

Lemma flatten_forest_collapsed cs st :
  1 ≤ started st →
  loop st (flat_map events cs) = map collapse (flat_map events cs)
  ∧ started (state st (flat_map events cs)) = started st.
Proof.
  revert st. induction cs as [|c cs IH]; intros st Hst; [done|].
  simpl. destruct (flatten_collapsed c st Hst) as [Hl Hs].
  rewrite flatten_loop_app, flatten_state_app, map_app, Hl.
  destruct (IH (state st (events c))) as [Hl' Hs']; [lia|].
  by rewrite Hl', Hs', Hs.
Qed.

(** A container that opens while the filter is flattening is collapsed
    as a whole. *)
Lemma flatten_nested_container t st :
  0 ≤ started st → in_containers (tag (root t)) = true →
  loop st (events t) = map collapse (events t)
  ∧ started (state st (events t)) = started st.
Proof.
  intros Hst Hc. destruct t as [elem cs]. simpl in Hc.
  rewrite events_Node, flatten_loop_cons, flatten_state_cons.
  rewrite flatten_loop_app, flatten_state_app. cbn [map].
  rewrite map_app. cbn [map].
  rewrite (flatten_step_open_container _ _ Hc). cbn [fst snd].
  rewrite (bool_decide_eq_true_2 (0 ≤ started st)) by lia.
  rewrite (bool_decide_eq_false_2 (started st + 1 ≤ 0)) by lia.
  set (st1 := {| started := started st + 1; tags := []; inside := _ |}).
  destruct (flatten_forest_collapsed cs st1) as [Hl Hs]; [simpl; lia|].
  rewrite Hl. rewrite flatten_loop_cons, flatten_state_cons.
  rewrite (flatten_step_close_container _ _ Hc). cbn [fst snd flatten_loop].
  rewrite Hs. subst st1. cbn [started].
  rewrite (bool_decide_eq_true_2 (0 ≤ started st + 1)) by lia.
  rewrite (bool_decide_eq_false_2 (started st + 1 ≤ 0)) by lia.
  rewrite !collapse_not_msg by (by apply container_not_msg).
  split; [done|]. unfold flatten_state. simpl. lia.
Qed.
Lemma yielded_map_collapse l : yielded (map collapse l) = filter is_msg l.
Proof.
  induction l as [|ev l IH]; [done|].
  cbn [map]. unfold collapse at 1.
  destruct (decide (is_msg ev)) as [Hm|Hm].
  - rewrite (bool_decide_eq_true_2 _ Hm), (filter_cons_True _ _ _ Hm).
    cbn [yielded]. by rewrite IH.
  - rewrite (bool_decide_eq_false_2 _ Hm), (filter_cons_False _ _ _ Hm).
    cbn [yielded]. by rewrite IH.
Qed.

(** At the nesting level of the flattened container itself. *)
Lemma flatten_level0 t st :
  started st = 0 →
  yielded (loop st (events t)) = flattened_events html_escape t
  ∧ started (state st (events t)) = 0.
Proof.
  revert st. induction t as [elem cs IH] using Xml_ind. intros st Hst.
  cbn [flattened_events].
  destruct (in_containers (tag elem)) eqn:Hc.
  - destruct (flatten_nested_container (Node elem cs) st) as [Hl Hs];
      [lia|done|].
    rewrite Hl, Hs, yielded_map_collapse. done.
  - assert (Hcs : ∀ st', started st' = 0 →
              yielded (loop st' (flat_map events cs))
              = flat_map (flattened_events html_escape) cs
              ∧ started (state st' (flat_map events cs)) = 0).
    { induction IH as [|c cs Hx _ IHcs]; intros st' Hst'; [done|].
      simpl. destruct (Hx st' Hst') as [Hl Hs].
      rewrite flatten_loop_app, flatten_state_app, yielded_app, Hl.
      destruct (IHcs (state st' (events c)) Hs) as [Hl' Hs'].
      by rewrite Hl', Hs'. }
    rewrite events_Node, flatten_loop_cons, flatten_state_cons.
    rewrite (flatten_step_open_other _ _ Hc). cbn [fst snd].
    rewrite (bool_decide_eq_true_2 (started st ≤ 0)) by lia.
    cbn [orb yielded].
    rewrite flatten_loop_app, flatten_state_app, yielded_app.
    destruct (Hcs st Hst) as [Hl Hs]. rewrite Hl.
    rewrite flatten_loop_cons, flatten_state_cons. cbn [flatten_loop].
    set (st2 := state st (flat_map events cs)) in *.
    destruct (decide (tag elem = "tag")) as [Ht|Ht];
      [|destruct (decide (tag elem = "status")) as [Hs'|Hs']].
    + rewrite (flatten_step_close_tag _ _ Ht).
      rewrite (bool_decide_eq_false_2 (started st2 < 0)) by lia.
      rewrite andb_false_r.
      rewrite (bool_decide_eq_true_2 (started st2 ≤ 0)) by lia.
      rewrite Ht. simpl bool_decide. cbn [fst snd yielded].
      split; [done|]. unfold flatten_state. simpl. exact Hs.
    + rewrite (flatten_step_close_status _ _ Hs').
      rewrite (bool_decide_eq_true_2 (started st2 ≤ 0)) by lia.
      rewrite (bool_decide_eq_true_2 (started st2 = 0)) by lia.
      rewrite (bool_decide_eq_true_2 _ Hs'). cbn [fst snd yielded].
      split; [done|]. unfold flatten_state. simpl. exact Hs.
    + rewrite (flatten_step_close_other _ _ Hc Ht Hs').
      rewrite (bool_decide_eq_true_2 (started st2 ≤ 0)) by lia.
      rewrite (bool_decide_eq_false_2 _ Hs'). cbn [orb fst snd yielded].
      split; [done|]. unfold flatten_state. simpl. exact Hs.
Qed.

Lemma flatten_forest_level0 cs st :
  started st = 0 →
  yielded (loop st (flat_map events cs))
  = flat_map (flattened_events html_escape) cs
  ∧ started (state st (flat_map events cs)) = 0.
Proof.
  revert st. induction cs as [|c cs IH]; intros st Hst; [done|].
  simpl. destruct (flatten_level0 c st Hst) as [Hl Hs].
  rewrite flatten_loop_app, flatten_state_app, yielded_app, Hl.
  destruct (IH (state st (events c)) Hs) as [Hl' Hs'].
  by rewrite Hl', Hs'.
Qed.

(** A container that the name or type matcher accepts while the filter
    is not flattening: its own Open and Close are forwarded, its contents
    are flattened, and the filter has stopped flattening after it. *)
Lemma flatten_matched_container elem cs st :
  started st < 0 → in_containers (tag elem) = true →
  trigger_matches m elem = true →
  yielded (loop st (events (Node elem cs)))
  = (EvStart, elem) :: flat_map (flattened_events html_escape) cs
    ++ [(EvEnd, elem)]
  ∧ started (state st (events (Node elem cs))) = -1.
Proof.
  intros Hst Hc Hm.
  rewrite events_Node, flatten_loop_cons, flatten_state_cons.
  rewrite (flatten_step_open_container _ _ Hc). cbn [fst snd].
  rewrite (bool_decide_eq_false_2 (0 ≤ started st)) by lia.
  rewrite Hm. simpl bool_decide. cbn [yielded].
  set (st1 := {| started := 0; tags := []; inside := _ |}).
  rewrite flatten_loop_app, flatten_state_app, yielded_app.
  destruct (flatten_forest_level0 cs st1) as [Hl Hs]; [done|].
  rewrite Hl, flatten_loop_cons, flatten_state_cons. cbn [flatten_loop].
  rewrite (flatten_step_close_container _ _ Hc). cbn [fst snd].
  rewrite Hs. simpl bool_decide. cbn [yielded].
  split; [done|]. unfold flatten_state. simpl. lia.
Qed.
End FlattenFacts.

Lemma container_not_is_msg event elem :
  in_containers (tag elem) = true → ¬ is_msg (event, elem).
Proof.
  intros Hc. apply (proj1 (bool_decide_eq_false _)).
  by apply container_not_msg.
Qed.

Lemma status_not_is_msg event elem :
  tag elem = "status" → ¬ is_msg (event, elem).
Proof. unfold is_msg. cbn [snd]. by intros ->. Qed.



(** While the filter is flattening no matcher is consulted, whatever the
    event: the loop body does the same for any two sets of matchers. *)
Lemma flatten_step_flattening_matchers
    (html_escape : string → string) (m m' : Matchers)
    (st : FlattenState) (ev : Event) :
  0 ≤ started st →
  flatten_step html_escape m st ev = flatten_step html_escape m' st ev.
Proof.
  intros Hst. destruct ev as [[] elem]; unfold flatten_step, flatten_update;
    cbn [fst snd].
  - destruct (in_containers (tag elem)); [|done].
    by rewrite (bool_decide_eq_true_2 (0 ≤ started st)) by lia.
  - destruct (in_containers (tag elem)); [done|].
    rewrite (bool_decide_eq_false_2 (started st < 0)) by lia.
    by rewrite !andb_false_r.
Qed.

(** While the filter is flattening only the Open and the Close of a
    container change its state: the Close of a [tag] is not read. *)
Lemma flatten_step_flattening_other
    (html_escape : string → string) (m : Matchers)
    (st : FlattenState) (ev : Event) :
  0 ≤ started st → in_containers (tag ev.2) = false →
  (flatten_step html_escape m st ev).1 = st.
Proof.
  intros Hst Hc. destruct ev as [[] elem]; cbn [snd] in Hc;
    unfold flatten_step, flatten_update; cbn [fst snd]; rewrite Hc.
  - cbn [fst snd]. by rewrite andb_false_r.
  - rewrite (bool_decide_eq_false_2 (started st < 0)) by lia.
    rewrite !andb_false_r. cbn [andb].
    destruct (bool_decide (started st = 0) && bool_decide (tag elem = "status"));
      cbn [fst snd]; by rewrite andb_false_r.
Qed.

(** C4.  While the filter is flattening ([0 ≤ started]) the Open of a
    container adds one to [started] whatever the matchers are (they are not
    consulted), and the only change the filter makes to an element is the
    rewrite of the text of a [status] that closes while [started] is
    exactly 0, applied once.  Hence a container that matches while an outer
    one is being flattened does not trigger again, and for three nested
    containers of which the middle one matches and the outer one does not,
    only the status at the middle container's level is rewritten: the
    outer status is forwarded as it is and the inner one is not forwarded
    at all.  While the filter is flattening no event makes it consult a
    matcher, not the Open of a container and not the Close of a [tag]
    either: the loop body does the same for any other matchers, and an
    event of an element that is no container leaves [started], [tags] and
    [inside] as they are.  A container that the name or type matcher
    accepts is flattened as a whole, whatever it contains (containers and
    tags that match included), and the filter has stopped flattening when
    it closes. *)
Theorem flatten_nesting_counter
    (html_escape : string → string) (m : Matchers) :
  (∀ m' st elem,
     0 ≤ started st → in_containers (tag elem) = true →
     flatten_step html_escape m st (EvStart, elem)
     = flatten_step html_escape m' st (EvStart, elem)
     ∧ (flatten_step html_escape m st (EvStart, elem)).1
       = {| started := started st + 1; tags := []; inside := inside st + 1 |}) ∧
  (∀ st ev,
     (flatten_update html_escape m st ev).2
     = if bool_decide (started st = 0) && bool_decide (ev.1 = EvEnd)
          && bool_decide (tag ev.2 = "status")
       then set_text ev.2
              (Some (_create_flattened_message html_escape (text ev.2)))
       else ev.2) ∧
  (∀ st ev,
     (flatten_step html_escape m st ev).2
     = Yield (ev.1, (flatten_update html_escape m st ev).2)
     ∨ (flatten_step html_escape m st ev).2
       = Clear (flatten_update html_escape m st ev).2) ∧
  (∀ outer middle inner s_outer s_middle s_inner,
     in_containers (tag outer) = true →
     in_containers (tag middle) = true →
     in_containers (tag inner) = true →
     tag s_outer = "status" → tag s_middle = "status" →
     tag s_inner = "status" →
     trigger_matches m outer = false →
     trigger_matches m middle = true →
     yielded (_flatten_keywords html_escape m
                (events (Node outer
                           [Node middle
                              [Node inner [Node s_inner []];
                               Node s_middle []];
                            Node s_outer []])))
     = [(EvStart, outer);
        (EvStart, middle);
        (EvStart, s_middle);
        (EvEnd, set_text s_middle
                  (Some (_create_flattened_message html_escape (text s_middle))));
        (EvEnd, middle);
        (EvStart, s_outer);
        (EvEnd, s_outer);
        (EvEnd, outer)]) ∧
  (∀ m' st ev,
     0 ≤ started st →
     flatten_step html_escape m st ev = flatten_step html_escape m' st ev) ∧
  (∀ st ev,
     0 ≤ started st → in_containers (tag ev.2) = false →
     (flatten_step html_escape m st ev).1 = st) ∧
  (∀ st elem cs,
     started st < 0 → in_containers (tag elem) = true →
     trigger_matches m elem = true →
     yielded (flatten_loop html_escape m st (events (Node elem cs)))
     = (EvStart, elem) :: flat_map (flattened_events html_escape) cs
       ++ [(EvEnd, elem)]
     ∧ started (flatten_state html_escape m st (events (Node elem cs))) = -1).
Proof.
  repeat apply conj;
    [| | | |intros m' st ev; apply flatten_step_flattening_matchers
     |intros st ev; apply flatten_step_flattening_other
     |intros st elem cs; apply flatten_matched_container].
  - intros m' st elem Hst Hc.
    rewrite !(flatten_step_open_container _ _ _ _ Hc). cbn zeta.
    by rewrite (bool_decide_eq_true_2 (0 ≤ started st)) by lia.
  - apply flatten_update_elem.
  - intros st ev. rewrite flatten_step_action. destruct (_ || _); auto.
  - intros outer middle inner s_outer s_middle s_inner
      Ho Hm Hi Hso Hsm Hsi Hno Hyes.
    unfold _flatten_keywords.
    rewrite events_Node, flatten_loop_cons.
    rewrite (flatten_step_open_container _ _ _ _ Ho). cbn [fst snd].
    rewrite Hno. simpl bool_decide. cbn [yielded]. f_equal.
    set (st1 := {| started := started flatten_init; tags := [];
                   inside := _ |}).
    cbn [flat_map]. rewrite app_nil_r, <- app_assoc.
    rewrite flatten_loop_app, yielded_app.
    destruct (flatten_matched_container html_escape m middle
                [Node inner [Node s_inner []]; Node s_middle []] st1)
      as [Hl Hs]; [done..|].
    rewrite Hl. clear Hl.
    set (st2 := flatten_state html_escape m st1 _) in *.
    assert (Hin : in_containers "status" = false) by done.
    (* the contents of the middle container *)
    assert (Hmid : flat_map (flattened_events html_escape)
                     [Node inner [Node s_inner []]; Node s_middle []]
                   = [(EvStart, s_middle);
                      (EvEnd, set_text s_middle
                         (Some (_create_flattened_message html_escape
                                  (text s_middle))))]).
    { cbn [flat_map flattened_events]. rewrite Hi, Hsm, Hin.
      simpl bool_decide. rewrite events_Node. cbn [flat_map app].
      rewrite (filter_cons_False _ _ _ (container_not_is_msg EvStart _ Hi)).
      rewrite (filter_cons_False _ _ _ (status_not_is_msg EvStart _ Hsi)).
      rewrite (filter_cons_False _ _ _ (status_not_is_msg EvEnd _ Hsi)).
      rewrite (filter_cons_False _ _ _ (container_not_is_msg EvEnd _ Hi)).
      done. }
    rewrite Hmid. cbn [app]. do 4 f_equal.
    (* the rest of the outer container *)
    rewrite (events_Node s_outer). cbn [flat_map app].
    rewrite !flatten_loop_cons.
    assert (Hco : in_containers (tag s_outer) = false) by (by rewrite Hso).
    rewrite (flatten_step_open_other _ _ _ _ Hco). cbn [fst snd].
    rewrite (flatten_step_close_status _ _ _ _ Hso). cbn [fst snd].
    rewrite (flatten_step_close_container _ _ _ _ Ho). cbn [fst snd].
    rewrite Hs. simpl bool_decide. done.
Qed.

(** The spec's nesting example on the sample matchers: of three nested
    keywords of which the middle one matches, the outer status passes as it
    is, the middle status is rewritten, and the inner keyword is dropped
    with its status.  And a keyword named ["Flat"] that holds another
    keyword named ["Flat"], itself tagged ["flat"]: the inner keyword does
    not trigger again, its tag and status are dropped and only the status
    of the outer keyword is rewritten. *)
Lemma flatten_nesting_counter_witness :
  trigger_matches sample_matchers (named "kw" "Outer") = false
  ∧ trigger_matches sample_matchers (named "kw" "Flat") = true
  ∧ yielded (_flatten_keywords html_escape_model sample_matchers
               (events three_deep))
    = [(EvStart, named "kw" "Outer");
       (EvStart, named "kw" "Flat");
       (EvStart, with_text "status" "middle");
       (EvEnd, with_text "status"
                 "*HTML* middle<hr><i>Content flattened.</i>");
       (EvEnd, named "kw" "Flat");
       (EvStart, with_text "status" "outer");
       (EvEnd, with_text "status" "outer");
       (EvEnd, named "kw" "Outer")]
  ∧ yielded (_flatten_keywords html_escape_model sample_matchers
               (events (Node (named "kw" "Flat")
                          [Node (named "kw" "Flat")
                             [Node (with_text "tag" "flat") [];
                              Node (with_text "status" "inner") []];
                           Node (with_text "status" "outer") []])))
    = [(EvStart, named "kw" "Flat");
       (EvStart, with_text "status" "outer");
       (EvEnd, with_text "status"
                 "*HTML* outer<hr><i>Content flattened.</i>");
       (EvEnd, named "kw" "Flat")].
Proof.
  split; [reflexivity|]. split; [reflexivity|]. split.
  - apply (proj1 (proj2 (proj2 (proj2
             (flatten_nesting_counter html_escape_model sample_matchers)))));
      reflexivity.
  - refine (proj1 (proj2 (proj2 (proj2 (proj2 (proj2 (proj2
              (flatten_nesting_counter html_escape_model sample_matchers))))))
              flatten_init (named "kw" "Flat") _ _ _ _));
      reflexivity.
Defined.

(** C5, as stated, fails: a [tag] that closes inside a test but outside
    any container is not read.  With the tag matcher configured and
    accepting ["flat"], the accumulator is still empty after the events of
    the tag ["flat"] directly below a test. *)
Lemma flatten_test_tags_not_read :
  ¬ (∀ (m : Matchers) (test tag_elem : Element),
       tag test = "test" → tag tag_elem = "tag" → by_tags m = true →
       tags (flatten_state html_escape_model m flatten_init
               [(EvStart, test); (EvStart, tag_elem); (EvEnd, tag_elem)])
       = [or_empty (text tag_elem)]).
Proof.
  intros H.
  specialize (H sample_matchers (named "test" "T") (with_text "tag" "flat")
                eq_refl eq_refl eq_refl).
  vm_compute in H. discriminate H.
Qed.

(** C5 (amended).  The flattening filter appends the text of a [tag]
    element to the accumulator exactly when the element closes while the
    tag matcher is configured, the filter is inside at least one open
    container ([inside] is not 0) and flattening has not started; if the
    accumulated texts then match, [started] is set to 0 at that Close, and
    the event is forwarded either way.  On any other event the accumulator
    is left as it is, or emptied on the Open of a container.  So a tag
    directly below a test, outside any container, is not read, and a tag
    of a keyword is. *)
Theorem flatten_tag_accumulation
    (html_escape : string → string) (m : Matchers) :
  (∀ st elem,
     tag elem = "tag" → by_tags m = true → inside st ≠ 0 → started st < 0 →
     flatten_step html_escape m st (EvEnd, elem)
     = ({| started := if tags_match m (tags st ++ [or_empty (text elem)])
                      then 0 else started st;
           tags := tags st ++ [or_empty (text elem)];
           inside := inside st |},
        Yield (EvEnd, elem))) ∧
  (∀ st ev,
     ¬ (ev.1 = EvEnd ∧ tag ev.2 = "tag" ∧ by_tags m = true
        ∧ inside st ≠ 0 ∧ started st < 0) →
     tags (flatten_step html_escape m st ev).1
     = if bool_decide (ev.1 = EvStart) && in_containers (tag ev.2)
       then [] else tags st) ∧
  (∀ test tag_elem,
     in_containers (tag test) = false → tag tag_elem = "tag" →
     flatten_state html_escape m flatten_init
       [(EvStart, test); (EvStart, tag_elem); (EvEnd, tag_elem)]
     = flatten_init) ∧
  (∀ test kw tag_elem,
     in_containers (tag test) = false → in_containers (tag kw) = true →
     trigger_matches m kw = false → tag tag_elem = "tag" →
     by_tags m = true →
     flatten_state html_escape m flatten_init
       [(EvStart, test); (EvStart, kw); (EvStart, tag_elem); (EvEnd, tag_elem)]
     = {| started := if tags_match m [or_empty (text tag_elem)]
                     then 0 else -1;
          tags := [or_empty (text tag_elem)];
          inside := 1 |}).
Proof.
  repeat apply conj.
  - intros st elem Ht Hby Hin Hst.
    rewrite (flatten_step_close_tag _ _ _ _ Ht). cbn zeta.
    rewrite Hby, (bool_decide_eq_false_2 _ Hin).
    rewrite (bool_decide_eq_true_2 (started st < 0)) by lia.
    rewrite (bool_decide_eq_true_2 (started st ≤ 0)) by lia.
    done.
  - intros st [[] elem] Hn; cbn [fst snd] in *; simpl bool_decide; cbn [andb].
    + destruct (in_containers (tag elem)) eqn:Hc.
      * by rewrite (flatten_step_open_container _ _ _ _ Hc).
      * by rewrite (flatten_step_open_other _ _ _ _ Hc).
    + destruct (in_containers (tag elem)) eqn:Hc;
        [by rewrite (flatten_step_close_container _ _ _ _ Hc)|].
      destruct (decide (tag elem = "tag")) as [Ht|Ht];
        [|destruct (decide (tag elem = "status")) as [Hs|Hs]].
      * rewrite (flatten_step_close_tag _ _ _ _ Ht). cbn zeta.
        destruct (by_tags m) eqn:Hby; [|done].
        destruct (decide (inside st = 0)) as [Hi|Hi];
          [by rewrite (bool_decide_eq_true_2 _ Hi)|].
        destruct (decide (started st < 0)) as [Hst|Hst];
          [|by rewrite (bool_decide_eq_false_2 _ Hst), andb_false_r].
        exfalso. apply Hn. done.
      * by rewrite (flatten_step_close_status _ _ _ _ Hs).
      * by rewrite (flatten_step_close_other _ _ _ _ Hc Ht Hs).
  - intros test tag_elem Hc Ht.
    assert (Hct : in_containers (tag tag_elem) = false) by (by rewrite Ht).
    rewrite !flatten_state_cons.
    rewrite (flatten_step_open_other _ _ _ _ Hc). cbn [fst].
    rewrite (flatten_step_open_other _ _ _ _ Hct). cbn [fst].
    rewrite (flatten_step_close_tag _ _ _ _ Ht). cbn [fst].
    simpl bool_decide. rewrite andb_false_r. done.
  - intros test kw tag_elem Hc Hk Hno Ht Hby.
    assert (Hct : in_containers (tag tag_elem) = false) by (by rewrite Ht).
    rewrite !flatten_state_cons.
    rewrite (flatten_step_open_other _ _ _ _ Hc). cbn [fst].
    rewrite (flatten_step_open_container _ _ _ _ Hk). cbn [fst].
    rewrite Hno. simpl bool_decide. cbv iota.
    rewrite (flatten_step_open_other _ _ _ _ Hct). cbn [fst].
    rewrite (flatten_step_close_tag _ _ _ _ Ht). cbn [fst].
    rewrite Hby. simpl bool_decide. done.
Qed.

Lemma flatten_tag_accumulation_witness :
  trigger_matches sample_matchers (named "kw" "Log") = false
  ∧ flatten_state html_escape_model sample_matchers flatten_init
      [(EvStart, named "test" "T"); (EvStart, named "kw" "Log");
       (EvStart, with_text "tag" "flat"); (EvEnd, with_text "tag" "flat")]
    = {| started := 0; tags := ["flat"]; inside := 1 |}.
Proof.
  split; [reflexivity|].
  apply (proj2 (proj2 (proj2
           (flatten_tag_accumulation html_escape_model sample_matchers))));
    reflexivity.
Defined.

(** ** The detail-stripping pass *)

Lemma TestSuite_ind (P : TestSuite → Prop) :
  (∀ elem status setup teardown suites tests,
     Forall P suites → P (MkSuite elem status setup teardown suites tests)) →
  ∀ suite, P suite.
Proof.
  intros HSuite. fix IH 1. intros [elem status setup teardown suites tests].
  apply HSuite.
  induction suites as [|s suites IHs]; constructor; [apply IH | exact IHs].
Qed.

Lemma visit_suite_unfold v suite :
  visit_suite v suite
  = MkSuite (suite_elem (start_suite v suite))
            (suite_status (start_suite v suite))
            (suite_setup (start_suite v suite))
            (suite_teardown (start_suite v suite))
            (map (visit_suite v) (suite_suites suite))
            (map (visit_test v) (suite_tests suite)).
Proof. by destruct suite. Qed.

Lemma remove_keywords_suites suite :
  Forall (λ s, suite_setup s = None ∧ suite_teardown s = None)
         (all_suites (visit_suite RemoveKeywords suite)).
Proof.
  induction suite as [elem status setup teardown suites tests IH]
    using TestSuite_ind.
  rewrite visit_suite_unfold. cbn [all_suites suite_suites].
  constructor; [done|].
  cbn [suite_suites]. induction IH as [|s suites Hs _ IHs]; [constructor|].
  cbn [map flat_map]. apply Forall_app. split; [exact Hs | exact IHs].
Qed.

Lemma remove_keywords_tests suite :
  Forall (λ t, test_body t = [])
         (all_tests (visit_suite RemoveKeywords suite)).
Proof.
  induction suite as [elem status setup teardown suites tests IH]
    using TestSuite_ind.
  rewrite visit_suite_unfold. cbn [all_tests suite_suites suite_tests].
  apply Forall_app. split.
  - apply Forall_forall. intros t [t0 [-> _]]%list_elem_of_fmap. done.
  - induction IH as [|s suites Hs _ IHs]; [constructor|].
    cbn [map flat_map]. apply Forall_app. split; [exact Hs | exact IHs].
Qed.

Lemma remove_keywords_frame suite :
  suite_frame (visit_suite RemoveKeywords suite) = suite_frame suite.
Proof.
  induction suite as [elem status setup teardown suites tests IH]
    using TestSuite_ind.
  rewrite visit_suite_unfold. cbn [suite_frame suite_elem suite_status
    suite_suites suite_tests RemoveKeywords start_suite
    RemoveKeywords_start_suite].
  f_equal.
  - rewrite map_map. induction IH as [|s suites Hs _ IHs]; [done|].
    cbn [map]. by rewrite Hs, IHs.
  - rewrite map_map. by apply map_ext.
Qed.

(** C9.  The detail-stripping pass leaves every suite of the tree without
    setup and teardown and every test with an empty body, and changes
    nothing else: the tree has the same suites and tests with all their
    other fields as before.  [build] runs the pass, after
    [handle_suite_teardown_failures], exactly when [include_keywords] is
    false; when it is true the result is left as it is. *)
Theorem remove_keywords_pass (env : Env) :
  (∀ suite,
     Forall (λ s, suite_setup s = None ∧ suite_teardown s = None)
            (all_suites (visit_suite RemoveKeywords suite))) ∧
  (∀ suite,
     Forall (λ t, test_body t = [])
            (all_tests (visit_suite RemoveKeywords suite))) ∧
  (∀ suite,
     suite_frame (visit_suite RemoveKeywords suite) = suite_frame suite) ∧
  (∀ self result,
     _include_keywords self = false →
     let result' := handle_suite_teardown_failures env result in
     finish env self result
     = {| result_source := result_source result';
          result_rpa := result_rpa result';
          result_suite := visit_suite RemoveKeywords (result_suite result') |}) ∧
  (∀ self result,
     _include_keywords self = true →
     finish env self result = handle_suite_teardown_failures env result).
Proof.
  repeat apply conj.
  - apply remove_keywords_suites.
  - apply remove_keywords_tests.
  - apply remove_keywords_frame.
  - intros self result H. unfold finish. by rewrite H.
  - intros self result H. unfold finish. by rewrite H.
Qed.

Lemma remove_keywords_pass_witness :
  let result := set_suite (Result_new "output.xml" None)
                          (suite_of_xml suite_with_teardown) in
  let env := tree_env (document suite_with_teardown) in
  _include_keywords (mkBuilder "output.xml" false None) = false
  ∧ finish env (mkBuilder "output.xml" false None) result
    = remove_keywords (tree_handle_suite_teardown_failures result).
Proof.
  intros result env. split; [reflexivity|].
  apply (proj1 (proj2 (proj2 (proj2 (remove_keywords_pass env))))
           (mkBuilder "output.xml" false None) result).
  reflexivity.
Defined.

(** ** The choice of the filter *)

(** C8, as stated, fails: with [include_keywords] false the omission
    filter is applied also when flatten patterns are given. *)
Lemma flatten_patterns_do_not_exclude_omission :
  ¬ (∀ self : ExecutionResultBuilder,
       list_truthy (_flattened_keywords self) = true →
       select_filter self ≠ Omission).
Proof.
  intros H.
  apply (H {| _source := "output.xml"; _include_keywords := false;
              _flattened_keywords := Some ["for"] |}); reflexivity.
Qed.

(** C8 (amended).  [_parse] wraps the event source in at most one filter,
    and omission comes first: the omission filter is applied exactly when
    [include_keywords] is false, whether or not flatten patterns are given;
    the flattening filter is applied exactly when [include_keywords] is
    true and the flatten patterns are a non-empty list; otherwise the events
    reach the handler as they are. *)
Theorem parse_filter_selection (env : Env) :
  (∀ self, select_filter self = Omission ↔ _include_keywords self = false) ∧
  (∀ self flattened,
     select_filter self = Flattening flattened ↔
     _include_keywords self = true
     ∧ list_truthy (_flattened_keywords self) = true
     ∧ _flattened_keywords self = Some flattened) ∧
  (∀ self,
     select_filter self = NoFilter ↔
     _include_keywords self = true
     ∧ list_truthy (_flattened_keywords self) = false) ∧
  (∀ self context,
     _include_keywords self = false →
     apply_filter env (select_filter self) context
     = Returns (_omit_keywords context)) ∧
  (∀ self flattened context,
     _include_keywords self = true →
     list_truthy (_flattened_keywords self) = true →
     _flattened_keywords self = Some flattened →
     apply_filter env (select_filter self) context
     = m ← get_matchers env flattened;
       Returns (_flatten_keywords (html_escape env) m context)) ∧
  (∀ self context,
     _include_keywords self = true →
     list_truthy (_flattened_keywords self) = false →
     apply_filter env (select_filter self) context
     = Returns (map Yield context)).
Proof.
  repeat apply conj.
  - intros [src [] fl]; unfold select_filter; cbn.
    + split; [|done]. by destruct (list_truthy fl).
    + done.
  - intros [src [] fl] flattened; unfold select_filter; cbn.
    + destruct fl as [[|p fl]|]; cbn; split; try done;
        try (by intros (_ & ? & _)).
      * intros [= <-]. done.
      * intros (_ & _ & [= <-]). done.
    + split; [done|]. by intros [? _].
  - intros [src [] fl]; unfold select_filter; cbn.
    + destruct (list_truthy fl); split; try done. by intros [_ ?].
    + split; [done|]. by intros [? _].
  - intros self context H. unfold select_filter. by rewrite H.
  - intros self flattened context H1 H2 H3. unfold select_filter.
    by rewrite H1, H2, H3.
  - intros self context H1 H2. unfold select_filter. by rewrite H1, H2.
Qed.

Lemma parse_filter_selection_witness :
  apply_filter (tree_env (document teardown_with_child))
    (select_filter (mkBuilder "output.xml" false (Some ["for"])))
    (events teardown_with_child)
  = Returns (_omit_keywords (events teardown_with_child)).
Proof.
  apply (proj1 (proj2 (proj2 (proj2
           (parse_filter_selection (tree_env (document teardown_with_child)))))));
    reflexivity.
Defined.

(** ** The factory *)

(** C10.  [ExecutionResult] without sources raises the data error
    ["One or more data source needed."]; no source has been opened and no
    result has been made. *)
Theorem execution_result_needs_source
    (env : Env) (options : Options) (opened : list Source) :
  ExecutionResult env [] options opened
  = (opened, Raises (DataError "One or more data source needed.")).
Proof. reflexivity. Qed.

(** ** Failures of a single ingestion *)

Lemma single_result_unfold env source options opened :
  _single_result env source options opened
  = match ExecutionResultBuilder_new source options with
    | Raises err => (opened, Raises (report env source err))
    | Returns self =>
        (opened ++ [source],
         match (ctx ← ets_enter env source;
                h ← _parse env self ctx
                      (XmlElementHandler env
                         (Result_new source (opt_rpa options)));
                Returns (finish env self (handler_result env h))) with
         | Returns r => Returns r
         | Raises err => Raises (report env source err)
         end)
    end.
Proof.
  unfold _single_result, report, build, enter, lift, ret.
  unfold mbind, M_bind, bind, Outcome_bind, obind.
  destruct (ExecutionResultBuilder_new source options) as [self|err] eqn:Hnew;
    [|done].
  assert (Hsrc : _source self = source).
  { unfold ExecutionResultBuilder_new in Hnew.
    destruct (opt_other options); by simplify_eq. }
  rewrite Hsrc.
  destruct (ets_enter env source) as [ctx|err]; [|done].
  by destruct (_parse env self ctx _).
Qed.

Lemma parse_unfold env self ctx handler :
  _parse env self ctx handler
  = acts ← apply_filter env (select_filter self) (ctx_events ctx);
    handler' ← consume env acts handler;
    match ctx_failure ctx with
    | Some e => Raises e
    | None => Returns handler'
    end.
Proof. done. Qed.





(** A handler that raises: the tree-building handler refuses a document
    whose root is a [suite]; the caller gets that error and no result. *)
Example single_result_incompatible_root :
  _single_result (tree_env (document suite_with_teardown)) "suite.xml"
    default_options []
  = (["suite.xml"],
     Raises (DataError
       "Reading XML source 'suite.xml' failed: Incompatible root element 'suite'.")).
Proof. reflexivity. Qed.

(** A document that breaks off: the handler has taken the Open of the
    suite, the tokenizer fails, and the caller gets the error and no
    result; the source was opened once. *)
Example single_result_truncated_document :
  _single_result (tree_env truncated_document) "broken.xml" default_options []
  = (["broken.xml"],
     Raises (DataError
       "Reading XML source 'broken.xml' failed: ParseError: no element found")).
Proof. reflexivity. Qed.

(** ** Omission and the finished tree *)

(** No event of an omitted kind is left in the stripped document. *)
Lemma strip_omitted_events t :
  Forall (λ ev : Event, omit_of ev.2 = false)
         (flat_map events (strip_omitted t)).
Proof.
  induction t as [elem cs IH] using Xml_ind.
  simpl. destruct (omit_of elem) eqn:Ho; [constructor|].
  change (flat_map events [Node elem (flat_map strip_omitted cs)])
    with (events (Node elem (flat_map strip_omitted cs)) ++ []).
  rewrite app_nil_r, events_Node.
  constructor; [done|]. apply Forall_app. split; [|by constructor].
  induction IH as [|c cs Hc _ IHcs]; [constructor|].
  simpl. rewrite flat_map_app. apply Forall_app. by split.
Qed.

(** The handler sees the events a filter yields and nothing else. *)
Lemma consume_yielded env acts handler :
  consume env acts handler = consume env (map Yield (yielded acts)) handler.
Proof.
  revert handler. induction acts as [|[[[] elem]|elem|] acts IH];
    intros handler; cbn [consume yielded map]; [done| | |done..].
  - destruct (handler_start env elem handler); cbn; [apply IH|done].
  - destruct (handler_end env elem handler); cbn; [apply IH|done].
Qed.

Lemma build_unfold env self result opened :
  build env self result opened
  = (opened ++ [_source self],
     ctx ← ets_enter env (_source self);
     h ← _parse env self ctx (XmlElementHandler env result);
     Returns (finish env self (handler_result env h))).
Proof.
  unfold build, enter, lift, ret.
  unfold mbind, M_bind, bind, Outcome_bind, obind.
  destruct (ets_enter env (_source self)) as [ctx|err]; [|done].
  by destruct (_parse env self ctx _).
Qed.

(** With omission the handler is run on the events of the stripped
    document. *)
Lemma parse_omitted env src src' flattened t failure handler :
  _parse env (mkBuilder src false flattened) (mkContext (events t) failure)
         handler
  = _parse env (mkBuilder src' true None)
           (mkContext (flat_map events (strip_omitted t)) failure) handler.
Proof.
  rewrite !parse_unfold. unfold select_filter. cbn.
  rewrite consume_yielded. unfold _omit_keywords.
  by rewrite omit_yielded_events.
Qed.

(** *** The tree-building handler on a document *)

Section TreeHandlerFacts.
Variable contents : Source → Outcome Context.

#[local] Abbreviation run := (consume (tree_env contents)).

Lemma consume_app_start elem acts result parent rest :
  run (Yield (EvStart, elem) :: acts) (mkTreeHandler result (parent :: rest))
  = run acts (mkTreeHandler result ((elem, []) :: parent :: rest)).
Proof. done. Qed.

(** The Open of the root: only a [robot] element is taken. *)
Lemma consume_root_start elem acts result :
  run (Yield (EvStart, elem) :: acts) (mkTreeHandler result [])
  = if bool_decide (tag elem = "robot")
    then run acts (mkTreeHandler result [(elem, [])])
    else Raises (incompatible_root elem).
Proof.
  cbn [consume]. change (handler_start (tree_env contents)) with tree_start.
  unfold tree_start. cbn [th_open th_result].
  by destruct (bool_decide (tag elem = "robot")).
Qed.

(** The events of a subtree, read below an open element, add the subtree
    to what is closed below that element. *)
Lemma tree_consume_subtree t acts result parent siblings rest :
  run (map Yield (events t) ++ acts)
      (mkTreeHandler result ((parent, siblings) :: rest))
  = run acts (mkTreeHandler result ((parent, t :: siblings) :: rest)).
Proof.
  revert acts result parent siblings rest.
  induction t as [elem cs IH] using Xml_ind.
  intros acts result parent siblings rest.
  assert (Hcs : ∀ acts' below,
            run (map Yield (flat_map events cs) ++ acts')
                (mkTreeHandler result
                   ((elem, below) :: (parent, siblings) :: rest))
            = run acts'
                (mkTreeHandler result
                   ((elem, rev cs ++ below) :: (parent, siblings) :: rest))).
  { induction IH as [|c cs Hc _ IHcs]; intros acts' below; [done|].
    cbn [flat_map]. rewrite map_app, <- app_assoc, Hc, IHcs.
    cbn [rev]. by rewrite <- app_assoc. }
  rewrite events_Node. cbn [map app]. rewrite consume_app_start.
  cbn [th_result th_open].
  rewrite map_app, <- app_assoc, Hcs, app_nil_r.
  cbn [map app consume]. cbn. by rewrite rev_involutive.
Qed.

(** The events of a whole document, read by a fresh handler, set the
    suite of the result when the root is a [robot] element, and are
    refused at the first of them otherwise. *)
Lemma tree_consume_document t result :
  run (map Yield (events t)) (mkTreeHandler result [])
  = if has_tag "robot" t
    then Returns (mkTreeHandler
                    (match root_suite t with
                     | Some suite => set_suite result suite
                     | None => result
                     end) [])
    else Raises (incompatible_root (root t)).
Proof.
  destruct t as [elem cs].
  assert (Hcs : ∀ (l : list Xml) acts' below,
            run (map Yield (flat_map events l) ++ acts')
                (mkTreeHandler result [(elem, below)])
            = run acts' (mkTreeHandler result [(elem, rev l ++ below)])).
  { induction l as [|c l IHl]; intros acts' below; [done|].
    cbn [flat_map]. rewrite map_app, <- app_assoc.
    rewrite tree_consume_subtree, IHl.
    cbn [rev]. by rewrite <- app_assoc. }
  rewrite events_Node. cbn [map app]. rewrite consume_root_start.
  unfold has_tag. cbn [root].
  destruct (bool_decide (tag elem = "robot")) eqn:Hroot; [|done].
  rewrite map_app, Hcs, app_nil_r. cbn [map consume].
  change (handler_end (tree_env contents)) with tree_end.
  unfold tree_end. cbn [th_open th_result mbind Outcome_bind obind].
  by rewrite rev_involutive.
Qed.
End TreeHandlerFacts.

(** *** Stripping the document and stripping the tree *)

Lemma flat_map_flat_map {A B C} (f : B → list C) (g : A → list B) l :
  flat_map f (flat_map g l) = flat_map (λ x, flat_map f (g x)) l.
Proof.
  induction l as [|x l IH]; [done|].
  cbn [flat_map]. by rewrite flat_map_app, IH.
Qed.

Lemma flat_map_Forall_ext {A B} (f g : A → list B) l :
  Forall (λ x, f x = g x) l → flat_map f l = flat_map g l.
Proof.
  induction 1 as [|x l Hx _ IH]; [done|]. cbn [flat_map]. by rewrite Hx, IH.
Qed.

Lemma strip_omitted_Node elem cs :
  strip_omitted (Node elem cs)
  = if omit_of elem then [] else [Node elem (flat_map strip_omitted cs)].
Proof. done. Qed.

Lemma omit_of_tag elem :
  omit_of elem = true → tag elem ∈ ["kw"; "for"; "if"].
Proof.
  unfold omit_of. intros [H _]%andb_true_iff. by apply bool_decide_eq_true in H.
Qed.

Lemma omit_of_has_tag name t :
  name ∉ ["kw"; "for"; "if"] → omit_of (root t) = true → has_tag name t = false.
Proof.
  intros Hn Ho%omit_of_tag. apply bool_decide_eq_false. by intros <-.
Qed.

Lemma not_step_tag name :
  name ∈ ["status"; "suite"; "test"; "robot"] →
  name ∉ ["kw"; "for"; "if"].
Proof.
  rewrite !elem_of_cons, !elem_of_nil.
  intros [->|[->|[->|[->|[]]]]] [H|[H|[H|[]]]]; discriminate H.
Qed.

Lemma omit_of_not_tag name elem :
  name ∉ ["kw"; "for"; "if"] → tag elem = name → omit_of elem = false.
Proof.
  intros Hn Ht. apply omit_of_other_tag. by rewrite Ht.
Qed.

Lemma status_of_stripped cs :
  status_of (flat_map strip_omitted cs) = status_of cs.
Proof.
  unfold status_of. f_equal. rewrite flat_map_flat_map.
  apply flat_map_Forall_ext, Forall_forall. intros [elem cs'] _.
  rewrite strip_omitted_Node. unfold has_tag. cbn [root].
  destruct (bool_decide (tag elem = "status")) eqn:Hs.
  - apply bool_decide_eq_true in Hs.
    rewrite (omit_of_not_tag "status" elem) by (done || by apply not_step_tag;
      rewrite !elem_of_cons; auto).
    cbn [flat_map root]. by rewrite bool_decide_eq_true_2.
  - destruct (omit_of elem); [done|]. cbn [flat_map root]. by rewrite Hs.
Qed.

(** Stripping a step built from a subtree is building the step from the
    stripped subtree. *)
Lemma strip_step_of_xml t :
  strip_step (step_of_xml t) = map step_of_xml (strip_omitted t).
Proof.
  induction t as [elem cs IH] using Xml_ind.
  rewrite strip_omitted_Node. cbn [step_of_xml strip_step].
  destruct (omit_of elem); [done|]. cbn [map step_of_xml].
  rewrite status_of_stripped. do 2 f_equal.
  rewrite !flat_map_flat_map.
  apply flat_map_Forall_ext. eapply Forall_impl; [exact IH|].
  intros c Hc. cbn beta.
  destruct c as [e cs']. rewrite strip_omitted_Node in *.
  unfold is_step, has_tag. cbn [root].
  destruct (in_containers (tag e) || bool_decide (tag e = "msg")) eqn:Hs.
  - cbn [flat_map]. rewrite app_nil_r, Hc.
    destruct (omit_of e); [done|]. cbn [map flat_map root].
    unfold is_step, has_tag. cbn [root]. by rewrite Hs.
  - destruct (omit_of e); [done|]. cbn [flat_map root].
    unfold is_step, has_tag. cbn [root]. by rewrite Hs.
Qed.

Lemma is_fixture_setup_omitted t :
  is_fixture "SETUP" t = true → omit_of (root t) = true.
Proof.
  unfold is_fixture, has_tag, omit_of.
  intros [Ht%bool_decide_eq_true Hy%bool_decide_eq_true]%andb_true_iff.
  rewrite Ht, Hy. done.
Qed.

Lemma is_fixture_teardown_kept t :
  is_fixture "TEARDOWN" t = true → omit_of (root t) = false.
Proof.
  unfold is_fixture.
  intros [_ Hy%bool_decide_eq_true]%andb_true_iff.
  by apply omit_of_teardown.
Qed.

Lemma no_setup_in_stripped cs :
  flat_map (λ c, if is_fixture "SETUP" c then [step_of_xml c] else [])
    (flat_map strip_omitted cs) = [].
Proof.
  rewrite flat_map_flat_map.
  induction cs as [|[elem cs'] cs IH]; [done|].
  cbn [flat_map]. rewrite IH, app_nil_r, strip_omitted_Node.
  destruct (omit_of elem) eqn:Ho; [done|]. cbn [flat_map].
  destruct (is_fixture "SETUP" (Node elem _)) eqn:Hf; [|done].
  apply is_fixture_setup_omitted in Hf. cbn [root] in Hf. congruence.
Qed.

Lemma setup_of_stripped cs :
  fixture_of "SETUP" (flat_map strip_omitted cs)
  = strip_fixture (fixture_of "SETUP" cs).
Proof.
  unfold fixture_of. rewrite no_setup_in_stripped. cbn [head].
  induction cs as [|c cs IH]; [done|].
  cbn [flat_map]. destruct (is_fixture "SETUP" c) eqn:Hf; [|exact IH].
  apply is_fixture_setup_omitted in Hf. destruct c as [elem cs'].
  cbn [root] in Hf. cbn [app head strip_fixture step_of_xml strip_step].
  by rewrite Hf.
Qed.

Lemma teardown_of_stripped cs :
  fixture_of "TEARDOWN" (flat_map strip_omitted cs)
  = strip_fixture (fixture_of "TEARDOWN" cs).
Proof.
  unfold fixture_of. rewrite flat_map_flat_map.
  induction cs as [|[elem cs'] cs IH]; [done|].
  cbn [flat_map]. rewrite strip_omitted_Node.
  destruct (is_fixture "TEARDOWN" (Node elem cs')) eqn:Hf.
  - pose proof (is_fixture_teardown_kept _ Hf) as Ho. cbn [root] in Ho.
    rewrite Ho. cbn [flat_map app head strip_fixture].
    rewrite strip_step_of_xml, strip_omitted_Node, Ho. cbn [map head].
    unfold is_fixture, has_tag in *. cbn [root] in *. by rewrite Hf.
  - cbn [app]. rewrite <- IH.
    destruct (omit_of elem); [done|]. cbn [flat_map].
    unfold is_fixture, has_tag in *. cbn [root] in *. by rewrite Hf.
Qed.

Lemma body_keep_root elem cs cs' :
  is_step (Node elem cs) && negb (is_fixture "SETUP" (Node elem cs))
  && negb (is_fixture "TEARDOWN" (Node elem cs))
  = is_step (Node elem cs') && negb (is_fixture "SETUP" (Node elem cs'))
    && negb (is_fixture "TEARDOWN" (Node elem cs')).
Proof. done. Qed.

Lemma body_of_stripped cs :
  body_of (flat_map strip_omitted cs) = flat_map strip_step (body_of cs).
Proof.
  unfold body_of. rewrite !flat_map_flat_map.
  apply flat_map_Forall_ext, Forall_forall. intros [elem cs'] _.
  rewrite strip_omitted_Node. destruct (omit_of elem) eqn:Ho.
  - destruct (_ && _ && _); [|done].
    cbn [flat_map step_of_xml strip_step]. by rewrite Ho.
  - cbn [flat_map].
    rewrite (body_keep_root elem (flat_map strip_omitted cs') cs').
    destruct (_ && _ && _); [|done].
    cbn [flat_map]. by rewrite strip_step_of_xml, strip_omitted_Node, Ho.
Qed.

Lemma test_of_stripped elem cs :
  test_of_xml (Node elem (flat_map strip_omitted cs))
  = strip_test (test_of_xml (Node elem cs)).
Proof.
  unfold test_of_xml, strip_test. cbn [root children test_elem test_status
    test_setup test_teardown test_body].
  by rewrite status_of_stripped, setup_of_stripped, teardown_of_stripped,
    body_of_stripped.
Qed.

Lemma tests_of_stripped cs :
  flat_map (λ c, if has_tag "test" c then [test_of_xml c] else [])
    (flat_map strip_omitted cs)
  = map strip_test
      (flat_map (λ c, if has_tag "test" c then [test_of_xml c] else []) cs).
Proof.
  rewrite flat_map_flat_map.
  induction cs as [|[elem cs'] cs IH]; [done|].
  cbn [flat_map]. rewrite map_app, <- IH. f_equal.
  rewrite strip_omitted_Node. unfold has_tag. cbn [root].
  destruct (bool_decide (tag elem = "test")) eqn:Ht.
  - apply bool_decide_eq_true in Ht.
    rewrite (omit_of_not_tag "test" elem) by (done || by apply not_step_tag;
      rewrite !elem_of_cons; auto).
    cbn [flat_map root map]. rewrite bool_decide_eq_true_2 by done.
    by rewrite test_of_stripped.
  - destruct (omit_of elem); [done|]. cbn [flat_map root]. by rewrite Ht.
Qed.

Lemma suite_of_xml_Node elem cs :
  suite_of_xml (Node elem cs)
  = MkSuite (Some elem) (status_of cs)
            (fixture_of "SETUP" cs) (fixture_of "TEARDOWN" cs)
            (flat_map (λ c, if has_tag "suite" c then [suite_of_xml c]
                            else []) cs)
            (flat_map (λ c, if has_tag "test" c then [test_of_xml c]
                            else []) cs).
Proof. done. Qed.

Lemma strip_suite_unfold suite :
  strip_suite suite
  = MkSuite (suite_elem suite) (suite_status suite)
            (strip_fixture (suite_setup suite))
            (strip_fixture (suite_teardown suite))
            (map strip_suite (suite_suites suite))
            (map strip_test (suite_tests suite)).
Proof. by destruct suite. Qed.

(** Building a suite from the stripped subtree is stripping the suite built
    from the subtree. *)
Lemma suite_of_stripped t :
  suite_of_xml (Node (root t) (flat_map strip_omitted (children t)))
  = strip_suite (suite_of_xml t).
Proof.
  induction t as [e cs IH] using Xml_ind. cbn [root children].
  rewrite !suite_of_xml_Node, strip_suite_unfold.
  cbn [suite_elem suite_status suite_setup suite_teardown suite_suites
       suite_tests].
  rewrite status_of_stripped, setup_of_stripped, teardown_of_stripped,
    tests_of_stripped.
  f_equal. rewrite flat_map_flat_map.
  induction IH as [|c cs' Hc _ IHcs]; [done|].
  cbn [flat_map]. rewrite map_app, <- IHcs. f_equal.
  destruct c as [ec csc]. cbn [root children] in Hc.
  rewrite strip_omitted_Node. unfold has_tag. cbn [root].
  destruct (bool_decide (tag ec = "suite")) eqn:Ht.
  - apply bool_decide_eq_true in Ht.
    rewrite (omit_of_not_tag "suite" ec) by (done || by apply not_step_tag;
      rewrite !elem_of_cons; auto).
    cbn [flat_map root map]. rewrite bool_decide_eq_true_2 by done.
    by rewrite Hc.
  - destruct (omit_of ec); [done|]. cbn [flat_map root]. by rewrite Ht.
Qed.

Lemma suites_of_stripped cs :
  flat_map (λ c, if has_tag "suite" c then [suite_of_xml c] else [])
    (flat_map strip_omitted cs)
  = map strip_suite
      (flat_map (λ c, if has_tag "suite" c then [suite_of_xml c] else []) cs).
Proof.
  rewrite flat_map_flat_map.
  induction cs as [|[ec csc] cs IH]; [done|].
  cbn [flat_map]. rewrite map_app, <- IH. f_equal.
  rewrite strip_omitted_Node. unfold has_tag. cbn [root].
  destruct (bool_decide (tag ec = "suite")) eqn:Ht.
  - apply bool_decide_eq_true in Ht.
    rewrite (omit_of_not_tag "suite" ec) by (done || by apply not_step_tag;
      rewrite !elem_of_cons; auto).
    cbn [flat_map root map]. rewrite bool_decide_eq_true_2 by done.
    by rewrite <- (suite_of_stripped (Node ec csc)).
  - destruct (omit_of ec); [done|]. cbn [flat_map root]. by rewrite Ht.
Qed.

Lemma head_map {A B} (f : A → B) l : head (map f l) = f <$> head l.
Proof. by destruct l. Qed.

Lemma root_suite_stripped elem cs :
  root_suite (Node elem (flat_map strip_omitted cs))
  = strip_suite <$> root_suite (Node elem cs).
Proof.
  unfold root_suite, has_tag. cbn [root children].
  destruct (bool_decide (tag elem = "robot")); [|done].
  by rewrite suites_of_stripped, head_map.
Qed.

Lemma root_suite_omitted t : omit_of (root t) = true → root_suite t = None.
Proof.
  intros Ho. unfold root_suite.
  rewrite (omit_of_has_tag "robot"); try done;
    apply not_step_tag; rewrite !elem_of_cons; auto.
Qed.

(** *** Teardown failures and stripping *)

Lemma teardown_failed_stripped cs elem status setup suites tests :
  teardown_failed
    (MkSuite elem status setup
             (strip_fixture (fixture_of "TEARDOWN" cs)) suites tests)
  = teardown_failed
      (MkSuite elem status setup (fixture_of "TEARDOWN" cs) suites tests).
Proof.
  unfold teardown_failed, fixture_of. cbn [suite_teardown].
  induction cs as [|[e cs'] cs IH]; [done|].
  cbn [flat_map]. destruct (is_fixture "TEARDOWN" (Node e cs')) eqn:Hf;
    [|exact IH].
  apply is_fixture_teardown_kept in Hf. cbn [root] in Hf.
  cbn [app head strip_fixture step_of_xml strip_step]. by rewrite Hf.
Qed.

Lemma propagate_failure_unfold failing suite :
  propagate_failure failing suite
  = MkSuite (suite_elem suite) (suite_status suite)
            (suite_setup suite) (suite_teardown suite)
            (map (propagate_failure (failing || teardown_failed suite))
                 (suite_suites suite))
            (map (λ t, if failing || teardown_failed suite
                       then fail_test t else t) (suite_tests suite)).
Proof. by destruct suite. Qed.

(** On a suite built from a document, marking the tests under a failed
    teardown and stripping commute: the teardown and its status are kept
    by the stripping. *)
Lemma propagate_failure_stripped t failing :
  propagate_failure failing (strip_suite (suite_of_xml t))
  = strip_suite (propagate_failure failing (suite_of_xml t)).
Proof.
  revert failing. induction t as [e cs IH] using Xml_ind. intros failing.
  rewrite suite_of_xml_Node.
  rewrite strip_suite_unfold.
  cbn [suite_elem suite_status suite_setup suite_teardown suite_suites
       suite_tests].
  rewrite propagate_failure_unfold.
  cbn [suite_elem suite_status suite_setup suite_teardown suite_suites
       suite_tests].
  rewrite teardown_failed_stripped.
  rewrite (propagate_failure_unfold failing (MkSuite _ _ _ _ _ _)).
  cbn [suite_elem suite_status suite_setup suite_teardown suite_suites
       suite_tests].
  rewrite strip_suite_unfold.
  cbn [suite_elem suite_status suite_setup suite_teardown suite_suites
       suite_tests].
  set (failing' := failing || teardown_failed _).
  f_equal.
  - rewrite !map_map. generalize failing'. clear failing'. intros b.
    induction IH as [|c cs' Hc _ IHcs]; [done|].
    cbn [flat_map]. rewrite !map_app, IHcs. f_equal.
    destruct (has_tag "suite" c); [|done]. cbn [map]. by rewrite Hc.
  - rewrite !map_map. apply map_ext. intros test.
    by destruct failing'.
Qed.

(** *** Building with omission *)

(** For any handler: building a document with omission is building the
    stripped document without a filter and then running the
    detail-stripping pass. *)
Lemma build_omitted env src src' flattened t result opened :
  ets_enter env src = Returns (mkContext (events t) None) →
  ets_enter env src'
  = Returns (mkContext (flat_map events (strip_omitted t)) None) →
  (build env (mkBuilder src false flattened) result opened).2
  = remove_keywords
      <$> (build env (mkBuilder src' true None) result opened).2.
Proof.
  intros Hfull Hstripped. rewrite !build_unfold. cbn [snd _source].
  rewrite Hfull, Hstripped. cbn [mbind Outcome_bind obind].
  rewrite (parse_omitted env src src' flattened t None).
  destruct (_parse env _ _ _) as [h|err]; [|done]. done.
Qed.

Lemma tree_parse_document contents self t result :
  _include_keywords self = true → _flattened_keywords self = None →
  _parse (tree_env contents) self (mkContext (events t) None)
         (mkTreeHandler result [])
  = if has_tag "robot" t
    then Returns (mkTreeHandler
                    (match root_suite t with
                     | Some suite => set_suite result suite
                     | None => result
                     end) [])
    else Raises (incompatible_root (root t)).
Proof.
  intros Hi Hf. rewrite parse_unfold. unfold select_filter.
  rewrite Hi, Hf. cbn [negb list_truthy apply_filter ctx_events ctx_failure].
  cbn [mbind Outcome_bind obind]. rewrite tree_consume_document.
  by destruct (has_tag "robot" t).
Qed.

Lemma tree_parse_stripped contents self t result :
  _include_keywords self = true → _flattened_keywords self = None →
  omit_of (root t) = false →
  _parse (tree_env contents) self
         (mkContext (flat_map events (strip_omitted t)) None)
         (mkTreeHandler result [])
  = if has_tag "robot" t
    then Returns (mkTreeHandler
                    (match root_suite t with
                     | Some suite => set_suite result (strip_suite suite)
                     | None => result
                     end) [])
    else Raises (incompatible_root (root t)).
Proof.
  intros Hi Hf Ho. destruct t as [elem cs]. cbn [root] in Ho.
  rewrite strip_omitted_Node, Ho.
  change (flat_map events [Node elem (flat_map strip_omitted cs)])
    with (events (Node elem (flat_map strip_omitted cs)) ++ []).
  rewrite app_nil_r, tree_parse_document, root_suite_stripped by done.
  change (has_tag "robot" (Node elem (flat_map strip_omitted cs)))
    with (has_tag "robot" (Node elem cs)).
  destruct (has_tag "robot" (Node elem cs)); [|done].
  by destruct (root_suite (Node elem cs)).
Qed.

Lemma root_suite_built t suite :
  root_suite t = Some suite → ∃ t', suite = suite_of_xml t'.
Proof.
  unfold root_suite. destruct (has_tag "robot" t); [|done].
  induction (children t) as [|c cs IH]; [done|].
  cbn [flat_map]. destruct (has_tag "suite" c); [|exact IH].
  intros [= <-]. by exists c.
Qed.

(** For the tree-building handler: building a document with omission is
    building it without, stripping the finished tree, and then running the
    detail-stripping pass, unless the root itself is of a kind that is
    omitted. *)
Lemma tree_build_omitted t src flattened rpa opened :
  omit_of (root t) = false →
  (build (tree_env (document t)) (mkBuilder src false flattened)
         (Result_new src rpa) opened).2
  = remove_keywords
      <$> (strip_result
             <$> (build (tree_env (document t)) (mkBuilder src true None)
                        (Result_new src rpa) opened).2).
Proof.
  intros Ho.
  rewrite !build_unfold. cbn [snd _source].
  change (ets_enter (tree_env (document t)) src)
    with (Returns (mkContext (events t) None)).
  cbn [mbind Outcome_bind obind].
  rewrite (parse_omitted _ src src flattened t None).
  change (XmlElementHandler (tree_env (document t)) (Result_new src rpa))
    with (mkTreeHandler (Result_new src rpa) []).
  rewrite tree_parse_stripped, tree_parse_document by done.
  destruct (has_tag "robot" t); [|done].
  cbn [mbind Outcome_bind obind fmap Outcome_fmap omap]. f_equal.
  change (handler_result (tree_env (document t))) with th_result.
  cbn [th_result]. unfold finish. cbn [_include_keywords negb].
  change (handle_suite_teardown_failures (tree_env (document t)))
    with tree_handle_suite_teardown_failures.
  unfold remove_keywords, strip_result, tree_handle_suite_teardown_failures,
    set_suite.
  destruct (root_suite t) as [suite|] eqn:Hroot; [|done].
  destruct (root_suite_built _ _ Hroot) as [t' ->].
  cbn [result_source result_rpa result_suite].
  by rewrite propagate_failure_stripped.
Qed.

(** C6, as stated, fails: the tree built with omission is not the tree
    built without it and then stripped of the keyword, [for] and [if] nodes
    that are not teardowns.  For the output file [output_with_teardown]
    both builds return a result; the first has no suite teardown (the
    detail-stripping pass has removed it), the second has one. *)
Lemma omission_is_not_post_hoc_stripping :
  ¬ (∀ t : Xml,
       (build (tree_env (document t)) (mkBuilder "output.xml" false None)
              (Result_new "output.xml" None) []).2
       = strip_result
           <$> (build (tree_env (document t)) (mkBuilder "output.xml" true None)
                      (Result_new "output.xml" None) []).2).
Proof.
  intros H. specialize (H output_with_teardown).
  apply (f_equal (omap (λ r, bool_decide
                          (suite_teardown (result_suite r) = None)))) in H.
  vm_compute in H. discriminate H.
Qed.

(** The two builds of that counterexample: both return a suite named
    ["S"] with its test; with omission the suite has no teardown, without
    it and stripped afterwards it has the teardown ["Cleanup"]. *)
Example omission_and_stripping_on_output :
  omap (λ r, (suite_elem (result_suite r),
              length (suite_tests (result_suite r)),
              match suite_teardown (result_suite r) with
              | Some (MkStep elem _ _) => Some elem
              | None => None
              end))
       (build (tree_env (document output_with_teardown))
              (mkBuilder "output.xml" false None)
              (Result_new "output.xml" None) []).2
  = Returns (Some (named "suite" "S"), 1%nat, None)
  ∧ omap (λ r, (suite_elem (result_suite r),
                length (suite_tests (result_suite r)),
                match suite_teardown (result_suite r) with
                | Some (MkStep elem _ _) => Some elem
                | None => None
                end))
         (strip_result
            <$> (build (tree_env (document output_with_teardown))
                       (mkBuilder "output.xml" true None)
                       (Result_new "output.xml" None) []).2)
    = Returns (Some (named "suite" "S"), 1%nat,
               Some (mkElement "kw"
                       {[ "name" := "Cleanup"; "type" := "TEARDOWN" ]} None)).
Proof. split; vm_compute; reflexivity. Qed.

(** C6 (amended).  With omission enabled no event of a keyword, [for] or
    [if] element without [type="TEARDOWN"] reaches the tree builder: the
    builder receives exactly the events of the document without these
    subtrees.  So, for any handler, building a document with omission
    gives what building the stripped document without a filter gives after
    the detail-stripping pass (which also clears suite setups and teardowns
    and empties test bodies); and for the tree-building handler, on a
    document whose root is not itself of an omitted kind (the root of an
    output file is the [robot] element), it gives the tree built without
    omission, stripped of those nodes, after the detail-stripping pass,
    or the same error when the root is refused. *)
Theorem omission_and_stripping :
  (∀ t, Forall (λ ev : Event, omit_of ev.2 = false)
               (yielded (_omit_keywords (events t)))) ∧
  (∀ env src src' flattened t failure handler,
     _parse env (mkBuilder src false flattened)
            (mkContext (events t) failure) handler
     = _parse env (mkBuilder src' true None)
              (mkContext (flat_map events (strip_omitted t)) failure)
              handler) ∧
  (∀ env src src' flattened t result opened,
     ets_enter env src = Returns (mkContext (events t) None) →
     ets_enter env src'
     = Returns (mkContext (flat_map events (strip_omitted t)) None) →
     (build env (mkBuilder src false flattened) result opened).2
     = remove_keywords
         <$> (build env (mkBuilder src' true None) result opened).2) ∧
  (∀ t src flattened rpa opened,
     omit_of (root t) = false →
     (build (tree_env (document t)) (mkBuilder src false flattened)
            (Result_new src rpa) opened).2
     = remove_keywords
         <$> (strip_result
                <$> (build (tree_env (document t)) (mkBuilder src true None)
                           (Result_new src rpa) opened).2)).
Proof.
  repeat apply conj.
  - intros t. unfold _omit_keywords. rewrite omit_yielded_events.
    apply strip_omitted_events.
  - apply parse_omitted.
  - apply build_omitted.
  - apply tree_build_omitted.
Qed.

(** Two sources, an output file and the same file already stripped; and
    the output file built with omission and built without, stripped and
    passed through the detail-stripping pass. *)
Lemma omission_and_stripping_witness :
  let contents (source : Source) :=
    if bool_decide (source = "stripped.xml")
    then Returns (mkContext
                    (flat_map events (strip_omitted output_with_teardown))
                    None)
    else Returns (mkContext (events output_with_teardown) None) in
  (build (tree_env contents) (mkBuilder "output.xml" false None)
         (Result_new "output.xml" None) []).2
  = remove_keywords
      <$> (build (tree_env contents) (mkBuilder "stripped.xml" true None)
                 (Result_new "output.xml" None) []).2
  ∧ (build (tree_env (document output_with_teardown))
           (mkBuilder "output.xml" false None)
           (Result_new "output.xml" None) []).2
    = remove_keywords
        <$> (strip_result
               <$> (build (tree_env (document output_with_teardown))
                          (mkBuilder "output.xml" true None)
                          (Result_new "output.xml" None) []).2).
Proof.
  intros contents. split.
  - apply (proj1 (proj2 (proj2 omission_and_stripping))
             (tree_env contents) "output.xml" "stripped.xml" None
             output_with_teardown);
      reflexivity.
  - apply (proj2 (proj2 (proj2 omission_and_stripping))
             output_with_teardown "output.xml" None None []).
    reflexivity.
Defined.


(** * Further properties of the builder *)

(** ** The flattened message *)

Lemma string_rev_app_app s1 s2 s3 :
  String.rev_app s1 (s2 +:+ s3) = String.rev_app s1 s2 +:+ s3.
Proof.
  revert s2. induction s1 as [|c s1 IH]; intros s2; [done|].
  cbn [String.rev_app]. exact (IH (String c s2)).
Qed.

Lemma string_rev_app_rev s1 s2 :
  String.rev_app s1 s2 = String.rev s1 +:+ s2.
Proof. unfold String.rev. by rewrite <- string_rev_app_app. Qed.

Lemma string_rev_app_snoc s c acc :
  String.rev_app (s +:+ String c "") acc = String c (String.rev_app s acc).
Proof.
  revert acc. induction s as [|d s IH]; intros acc; [reflexivity|].
  change (String d s +:+ String c "") with (String d (s +:+ String c "")).
  cbn [String.rev_app]. apply IH.
Qed.

Lemma string_rev_snoc s c :
  String.rev (s +:+ String c "") = String c (String.rev s).
Proof. apply string_rev_app_snoc. Qed.

Lemma string_rev_cons c s :
  String.rev (String c s) = String.rev s +:+ String c "".
Proof. unfold String.rev. cbn [String.rev_app]. apply string_rev_app_rev. Qed.

(** A text that ends in a character that is no whitespace is left alone by
    [rstrip]. *)
Lemma string_rev_involutive s : String.rev (String.rev s) = s.
Proof.
  induction s as [|c s IH]; [done|].
  by rewrite string_rev_cons, string_rev_snoc, IH.
Qed.

(** A text that ends in a character that is no whitespace is left alone by
    [rstrip]. *)
Lemma rstrip_snoc s c :
  py_isspace c = false → rstrip (s +:+ String c "") = s +:+ String c "".
Proof.
  intros Hc. unfold rstrip. rewrite string_rev_snoc. cbn [lstrip].
  by rewrite Hc, string_rev_cons, string_rev_involutive.
Qed.

Lemma lstrip_snoc s c :
  py_isspace c = false → ∃ s', lstrip (s +:+ String c "") = s' +:+ String c "".
Proof.
  intros Hc. induction s as [|d s IH].
  - exists "". change ("" +:+ String c "") with (String c "").
    cbn [lstrip]. by rewrite Hc.
  - change (String d s +:+ String c "") with (String d (s +:+ String c "")).
    cbn [lstrip]. destruct (py_isspace d); [exact IH|].
    by exists (String d s).
Qed.

Lemma flattened_message_shape html_escape original :
  ∃ body,
    _create_flattened_message html_escape original
    = "*HTML* " +:+ (body +:+ ">").
Proof.
  unfold _create_flattened_message.
  set (start := match original with
                | None => ""
                | Some o => _
                end).
  exists (start +:+ "<i>Content flattened.</i").
  by rewrite string_app_assoc.
Qed.

Lemma flatten_html_message html_escape body :
  _create_flattened_message html_escape (Some ("*HTML* " +:+ (body +:+ ">")))
  = "*HTML* " +:+ lstrip (body +:+ ">") +:+ "<hr><i>Content flattened.</i>".
Proof.
  set (rest := body +:+ ">").
  change ("*HTML* " +:+ rest)
    with (String "*" (String "H" (String "T" (String "M" (String "L"
           (String "*" (String " " rest))))))).
  unfold _create_flattened_message. cbn [str_truthy negb].
  change (startswith (String "*" (String "H" (String "T" (String "M"
            (String "L" (String "*" (String " " rest))))))) "*HTML*")
    with true.
  cbv iota. cbn [slice_from]. unfold strip.
  change (lstrip (String " " rest)) with (lstrip rest).
  subst rest. destruct (lstrip_snoc body ">" eq_refl) as [s' Hs'].
  rewrite Hs', rstrip_snoc by done.
  by rewrite string_app_assoc.
Qed.

(** X1.  Flattening a message that has been flattened before never escapes
    it again, whatever the escaping function: the earlier message without
    its marker is kept as it is (leading whitespace apart) and only the
    rule and the note are added. *)
Theorem reflattening_does_not_escape
    (html_escape html_escape' : string → string) (original : option string) :
  let first := _create_flattened_message html_escape' original in
  _create_flattened_message html_escape (Some first)
  = "*HTML* " +:+ lstrip (slice_from 7 first)
    +:+ "<hr><i>Content flattened.</i>".
Proof.
  intros first. subst first.
  destruct (flattened_message_shape html_escape' original) as [body ->].
  by rewrite flatten_html_message.
Qed.

(** ** The omission filter on arbitrary streams and on documents *)

(** X2.  On any stream and from any counter the omission filter answers
    every event with one action, and what it forwards is a subsequence of
    its input: events are dropped, never changed, added or reordered. *)
Theorem omit_keywords_sublist (n : Z) (context : list Event) :
  length (omit_loop n context) = length context
  ∧ yielded (omit_loop n context) `sublist_of` context.
Proof.
  split; [apply omit_loop_length|].
  revert n. induction context as [|ev context IH]; intros n; [done|].
  rewrite omit_loop_cons, omit_step_spec. cbn [fst snd].
  destruct (bool_decide _).
  - cbn [yielded]. apply sublist_skip, IH.
  - unfold suppress. destruct (is_start ev.1); cbn [yielded];
      apply sublist_cons, IH.
Qed.

Lemma omit_yielded_forest cs :
  yielded (omit_loop 0 (flat_map events cs))
  = flat_map events (flat_map strip_omitted cs).
Proof.
  induction cs as [|c cs IH]; [done|].
  simpl. rewrite omit_loop_app, omit_counter_events, yielded_app, flat_map_app.
  by rewrite omit_yielded_events, IH.
Qed.

Lemma strip_omitted_idempotent t :
  flat_map strip_omitted (strip_omitted t) = strip_omitted t.
Proof.
  induction t as [elem cs IH] using Xml_ind.
  rewrite strip_omitted_Node. destruct (omit_of elem) eqn:Ho; [done|].
  cbn [flat_map]. rewrite app_nil_r, strip_omitted_Node, Ho.
  do 2 f_equal. rewrite flat_map_flat_map.
  by apply flat_map_Forall_ext.
Qed.

(** X3.  On a document the omission filter is idempotent: run again on what
    it has forwarded, it forwards everything. *)
Theorem omit_keywords_idempotent (t : Xml) :
  yielded (_omit_keywords (yielded (_omit_keywords (events t))))
  = yielded (_omit_keywords (events t)).
Proof.
  unfold _omit_keywords.
  by rewrite omit_yielded_events, omit_yielded_forest,
    strip_omitted_idempotent.
Qed.

Lemma prefix_app_or {A} (p l1 l2 : list A) :
  p `prefix_of` l1 ++ l2 →
  p `prefix_of` l1 ∨ ∃ p', p = l1 ++ p' ∧ p' `prefix_of` l2.
Proof.
  revert p. induction l1 as [|x l1 IH]; intros p Hp.
  - right. by exists p.
  - destruct p as [|y p]; [left; apply prefix_nil|].
    cbn [app] in Hp. pose proof (prefix_cons_inv_1 _ _ _ _ Hp) as ->.
    apply prefix_cons_inv_2 in Hp.
    destruct (IH p Hp) as [H|(p' & -> & H)].
    + left. by apply prefix_cons.
    + right. by exists p'.
Qed.

Lemma omit_counter_prefix t n p :
  p `prefix_of` events t → n ≤ omit_counter n p.
Proof.
  revert n p. induction t as [elem cs IH] using Xml_ind. intros n p Hp.
  assert (Hcs : ∀ k q, q `prefix_of` flat_map events cs →
                       k ≤ omit_counter k q).
  { clear Hp. induction IH as [|c cs Hc _ IHcs]; intros k q Hq.
    - apply prefix_nil_inv in Hq as ->. done.
    - cbn [flat_map] in Hq.
      destruct (prefix_app_or _ _ _ Hq) as [H|(q' & -> & H)]; [by apply Hc|].
      rewrite omit_counter_app, omit_counter_events. by apply IHcs. }
  rewrite events_Node in Hp.
  destruct p as [|ev p]; [done|].
  pose proof (prefix_cons_inv_1 _ _ _ _ Hp) as ->.
  apply prefix_cons_inv_2 in Hp.
  rewrite omit_counter_cons, omit_start. cbn [fst].
  set (n1 := if omit_of elem then n + 1 else n).
  assert (n ≤ n1) by (subst n1; destruct (omit_of elem); lia).
  destruct (prefix_app_or _ _ _ Hp) as [Hq|(q' & -> & Hq)].
  - specialize (Hcs n1 p Hq). lia.
  - rewrite omit_counter_app, omit_counter_forest.
    destruct q' as [|ev' q']; [done|].
    pose proof (prefix_cons_inv_1 _ _ _ _ Hq) as ->.
    apply prefix_cons_inv_2, prefix_nil_inv in Hq as ->.
    rewrite omit_counter_cons, omit_end. cbn [fst]. unfold omit_counter.
    cbn [foldl]. subst n1. destruct (omit_of elem); lia.
Qed.

(** X4.  While a document is read the counter of the omission filter never
    goes below zero, and it is back at zero at the end. *)
Theorem omit_counter_never_negative (t : Xml) (p : list Event) :
  p `prefix_of` events t →
  0 ≤ omit_counter 0 p ∧ omit_counter 0 (events t) = 0.
Proof.
  intros Hp. split; [by apply (omit_counter_prefix t)|].
  apply omit_counter_events.
Qed.

Lemma omit_counter_never_negative_witness :
  omit_counter 0 (take 3 (events suite_with_teardown)) = 1
  ∧ 0 ≤ omit_counter 0 (take 3 (events suite_with_teardown)).
Proof.
  split; [reflexivity|].
  apply (omit_counter_never_negative suite_with_teardown).
  exists (drop 3 (events suite_with_teardown)). reflexivity.
Defined.

(** ** The flattening filter on arbitrary streams and on documents *)

Section FlattenMore.
Variable html_escape : string → string.
Variable m : Matchers.

#[local] Abbreviation step := (flatten_step html_escape m).
#[local] Abbreviation loop := (flatten_loop html_escape m).
#[local] Abbreviation state := (flatten_state html_escape m).

Lemma flatten_update_key st ev :
  event_key (ev.1, (flatten_update html_escape m st ev).2) = event_key ev.
Proof.
  rewrite flatten_update_elem. destruct ev as [event elem].
  by destruct (_ && _ && _).
Qed.

Lemma flatten_loop_length st context :
  length (loop st context) = length context.
Proof.
  revert st. induction context as [|ev l IH]; intros st; [done|].
  rewrite flatten_loop_cons. cbn [length]. by rewrite IH.
Qed.

Lemma flatten_loop_no_skip st context :
  Forall (λ act, act ≠ Skip) (loop st context).
Proof.
  revert st. induction context as [|ev l IH]; intros st; [constructor|].
  rewrite flatten_loop_cons. constructor; [|apply IH].
  rewrite flatten_step_action. by destruct (_ || _).
Qed.

Lemma flatten_loop_keys st context :
  event_key <$> yielded (loop st context) `sublist_of` event_key <$> context.
Proof.
  revert st. induction context as [|ev l IH]; intros st; [done|].
  rewrite flatten_loop_cons, flatten_step_action.
  destruct (_ || _); cbn [yielded].
  - rewrite !fmap_cons, flatten_update_key. apply sublist_skip, IH.
  - rewrite fmap_cons. apply sublist_cons, IH.
Qed.

(** With no matcher configured nothing ever starts the flattening. *)
Lemma flatten_nothing_configured st context :
  by_name m = false → by_type m = false → by_tags m = false →
  started st = -1 →
  loop st context = map Yield context.
Proof.
  intros Hn Ht Hg. revert st.
  induction context as [|[event elem] l IH]; intros st Hst; [done|].
  rewrite flatten_loop_cons. cbn [map].
  assert (Hstep : ∃ st', step st (event, elem) = (st', Yield (event, elem))
                         ∧ started st' = -1).
  { destruct event; destruct (in_containers (tag elem)) eqn:Hc.
    - rewrite (flatten_step_open_container _ _ _ _ Hc). cbn zeta.
      unfold trigger_matches. rewrite Hn, Ht, Hst. simpl bool_decide.
      cbv iota. cbn [andb orb]. simpl bool_decide. eauto.
    - rewrite (flatten_step_open_other _ _ _ _ Hc), Hst.
      simpl bool_decide. cbn [orb]. eauto.
    - rewrite (flatten_step_close_container _ _ _ _ Hc), Hst.
      simpl bool_decide. cbv iota. eauto.
    - destruct (decide (tag elem = "tag")) as [Htag|Htag];
        [|destruct (decide (tag elem = "status")) as [Hs|Hs]].
      + rewrite (flatten_step_close_tag _ _ _ _ Htag). cbn zeta.
        rewrite Hg, Hst. cbn [andb]. simpl bool_decide. eauto.
      + rewrite (flatten_step_close_status _ _ _ _ Hs), Hst.
        simpl bool_decide. eauto.
      + rewrite (flatten_step_close_other _ _ _ _ Hc Htag Hs), Hst.
        simpl bool_decide. cbn [orb]. eauto. }
  destruct Hstep as (st' & -> & Hst'). cbn [fst snd]. by rewrite IH.
Qed.
Lemma flatten_step_inside st ev :
  inside (step st ev).1
  = inside st + (if in_containers (tag ev.2)
                 then if is_start ev.1 then 1 else -1
                 else 0).
Proof.
  destruct ev as [[] elem]; cbn [fst snd];
    [change (is_start EvStart) with true|change (is_start EvEnd) with false];
    destruct (in_containers (tag elem)) eqn:Hc.
  - rewrite (flatten_step_open_container _ _ _ _ Hc). done.
  - rewrite (flatten_step_open_other _ _ _ _ Hc). cbn [fst]. lia.
  - rewrite (flatten_step_close_container _ _ _ _ Hc). cbn [fst inside]. lia.
  - destruct (decide (tag elem = "tag")) as [Htag|Htag];
      [|destruct (decide (tag elem = "status")) as [Hs|Hs]].
    + rewrite (flatten_step_close_tag _ _ _ _ Htag). cbn zeta.
      destruct (_ && _ && _); cbn [fst inside]; lia.
    + rewrite (flatten_step_close_status _ _ _ _ Hs). cbn [fst]. lia.
    + rewrite (flatten_step_close_other _ _ _ _ Hc Htag Hs). cbn [fst]. lia.
Qed.

(** [inside] is back at its value after the events of a document. *)
Lemma flatten_inside_document t st :
  inside (state st (events t)) = inside st.
Proof.
  revert st. induction t as [elem cs IH] using Xml_ind. intros st.
  assert (Hcs : ∀ st', inside (state st' (flat_map events cs)) = inside st').
  { induction IH as [|c cs Hc _ IHcs]; intros st'; [done|].
    cbn [flat_map]. by rewrite flatten_state_app, IHcs, Hc. }
  rewrite events_Node, flatten_state_cons, flatten_state_app, flatten_state_cons.
  unfold flatten_state at 1. cbn [foldl].
  rewrite flatten_step_inside, Hcs, flatten_step_inside.
  cbn [fst snd]. change (is_start EvStart) with true.
  change (is_start EvEnd) with false.
  destruct (in_containers (tag elem)); lia.
Qed.

Lemma flatten_inside_forest cs st :
  inside (state st (flat_map events cs)) = inside st.
Proof.
  revert st. induction cs as [|c cs IH]; intros st; [done|].
  cbn [flat_map]. by rewrite flatten_state_app, IH, flatten_inside_document.
Qed.

(** From a state in which the filter is not flattening, a document leaves
    it not flattening, unless a tag has started the flattening at the level
    of the root, which takes an open container around the document and a
    root that is no container. *)
Lemma flatten_started_document t st :
  started st = -1 →
  started (state st (events t)) = -1
  ∨ (started (state st (events t)) = 0 ∧ inside st ≠ 0
     ∧ in_containers (tag (root t)) = false).
Proof.
  revert st. induction t as [elem cs IH] using Xml_ind. intros st Hst.
  assert (Hcs : ∀ st', started st' = -1 ∨ started st' = 0 →
            (started (state st' (flat_map events cs)) = -1
             ∨ started (state st' (flat_map events cs)) = 0)
            ∧ (started st' = -1 → inside st' = 0 →
               started (state st' (flat_map events cs)) = -1)).
  { induction IH as [|c cs Hc _ IHcs]; intros st' Hst'.
    - cbn. split; [done|]. by intros.
    - cbn [flat_map]. rewrite flatten_state_app.
      destruct Hst' as [Hm|Hz].
      + destruct (Hc st' Hm) as [H1|(H0 & Hin & _)].
        * destruct (IHcs (state st' (events c))) as [Hr1 Hr2]; [by left|].
          split; [done|]. intros _ Hi. apply Hr2; [done|].
          by rewrite flatten_inside_document.
        * destruct (IHcs (state st' (events c))) as [Hr1 Hr2]; [by right|].
          split; [done|]. intros _ Hi. done.
      + destruct (flatten_level0 html_escape m c st' Hz) as [_ H0].
        destruct (IHcs (state st' (events c))) as [Hr1 Hr2]; [by right|].
        split; [done|]. intros Hm. lia. }
  rewrite events_Node, flatten_state_cons, flatten_state_app,
    flatten_state_cons.
  unfold flatten_state at 1. cbn [foldl root].
  destruct (in_containers (tag elem)) eqn:Hc.
  - left. rewrite (flatten_step_open_container _ _ _ _ Hc). cbn [fst].
    rewrite (bool_decide_eq_false_2 (0 ≤ started st)) by lia.
    set (st1 := {| started := _; tags := []; inside := _ |}).
    destruct (Hcs st1) as [Hr _].
    { subst st1. cbn [started]. destruct (trigger_matches m elem); lia. }
    rewrite (flatten_step_close_container _ _ _ _ Hc). cbn [fst started].
    destruct Hr as [-> | ->]; simpl bool_decide; lia.
  - rewrite (flatten_step_open_other _ _ _ _ Hc). cbn [fst].
    destruct (Hcs st) as [Hr Hr0]; [by left|].
    set (st2 := state st (flat_map events cs)) in *.
    assert (Hin : inside st2 = inside st) by apply flatten_inside_forest.
    destruct (decide (tag elem = "tag")) as [Htag|Htag];
      [|destruct (decide (tag elem = "status")) as [Hs|Hs]].
    + rewrite (flatten_step_close_tag _ _ _ _ Htag). cbn zeta.
      destruct (decide (inside st = 0)) as [Hi|Hi].
      * left. rewrite Hin, (bool_decide_eq_true_2 _ Hi), andb_false_r.
        cbn [andb fst]. by apply Hr0.
      * destruct (_ && _ && _); cbn [fst started].
        -- destruct (tags_match m _); [by right|].
           destruct Hr as [Hr|Hr]; [by left|by right].
        -- destruct Hr as [Hr|Hr]; [by left|by right].
    + rewrite (flatten_step_close_status _ _ _ _ Hs). cbn [fst].
      destruct (decide (inside st = 0)) as [Hi|Hi]; [left; by apply Hr0|].
      destruct Hr as [Hr|Hr]; [by left|by right].
    + rewrite (flatten_step_close_other _ _ _ _ Hc Htag Hs). cbn [fst].
      destruct (decide (inside st = 0)) as [Hi|Hi]; [left; by apply Hr0|].
      destruct Hr as [Hr|Hr]; [by left|by right].
Qed.

(** The statuses forwarded from the level of a flattened container carry
    the flattened message. *)
Lemma flattened_events_status t :
  Forall (λ ev : Event, ev.1 = EvEnd → tag ev.2 = "status" →
                        is_flattened_status html_escape ev)
         (flattened_events html_escape t).
Proof.
  induction t as [elem cs IH] using Xml_ind.
  cbn [flattened_events]. destruct (in_containers (tag elem)) eqn:Hc.
  - apply Forall_forall. intros ev [Hm _]%list_elem_of_filter _ Hs.
    unfold is_msg in Hm. by rewrite Hm in Hs.
  - constructor; [done|]. apply Forall_app. split.
    + induction IH as [|c cs Hx _ IHcs]; [constructor|].
      cbn [flat_map]. apply Forall_app. by split.
    + constructor; [|constructor]. cbn [fst snd]. intros _.
      destruct (bool_decide (tag elem = "status")) eqn:Hs.
      * intros _. by exists (text elem).
      * intros Ht. by apply bool_decide_eq_false in Hs.
Qed.
End FlattenMore.

(** X5.  On any stream and from any state the flattening filter answers
    every event with one action, either forwarding the event or clearing
    its element; what it forwards is, up to the texts of elements, a
    subsequence of its input: phases, tags and attributes are never
    changed, and events are never added or reordered. *)
Theorem flatten_keywords_sublist
    (html_escape : string → string) (m : Matchers)
    (st : FlattenState) (context : list Event) :
  length (flatten_loop html_escape m st context) = length context
  ∧ Forall (λ act, act ≠ Skip) (flatten_loop html_escape m st context)
  ∧ event_key <$> yielded (flatten_loop html_escape m st context)
    `sublist_of` event_key <$> context.
Proof.
  split; [apply flatten_loop_length|].
  split; [apply flatten_loop_no_skip|apply flatten_loop_keys].
Qed.

(** X6.  When none of the three matchers is configured the flattening
    filter forwards every event of any stream as it is. *)
Theorem flatten_without_matchers
    (html_escape : string → string) (m : Matchers) (context : list Event) :
  by_name m = false → by_type m = false → by_tags m = false →
  _flatten_keywords html_escape m context = map Yield context.
Proof.
  intros Hn Ht Hg. by apply flatten_nothing_configured.
Qed.

Lemma flatten_without_matchers_witness :
  _flatten_keywords html_escape_model
    (mkMatchers (λ _ _, true) false (λ _, true) false (λ _, true) false)
    (events three_deep)
  = map Yield (events three_deep).
Proof.
  apply (flatten_without_matchers html_escape_model); reflexivity.
Defined.

(** X7.  After the events of a document the flattening filter is where it
    began: it is not flattening and no container is open, whatever the
    matchers have matched on the way. *)
Theorem flatten_state_restored
    (html_escape : string → string) (m : Matchers) (t : Xml) :
  started (flatten_state html_escape m flatten_init (events t)) = -1
  ∧ inside (flatten_state html_escape m flatten_init (events t)) = 0.
Proof.
  split; [|apply flatten_inside_document].
  by destruct (flatten_started_document html_escape m t flatten_init eq_refl)
    as [H|(_ & H & _)].
Qed.

(** X8.  Of a container that a matcher accepts, every status the filter
    forwards on its Close carries a flattened message: its text is the
    message rule applied to some original text, so it starts with the HTML
    marker and ends with the note. *)
Theorem flatten_matched_statuses
    (html_escape : string → string) (m : Matchers)
    (st : FlattenState) (elem : Element) (cs : list Xml) :
  started st < 0 → in_containers (tag elem) = true →
  trigger_matches m elem = true →
  Forall (λ ev : Event, ev.1 = EvEnd → tag ev.2 = "status" →
                        is_flattened_status html_escape ev)
         (yielded (flatten_loop html_escape m st (events (Node elem cs)))).
Proof.
  intros Hst Hc Hm.
  destruct (flatten_matched_container html_escape m elem cs st Hst Hc Hm)
    as [-> _].
  constructor.
  { intros _ Hs. cbn [snd] in Hs.
    destruct (container_not_tag _ Hc) as [_ Hn]. done. }
  apply Forall_app. split.
  - induction cs as [|c cs IH]; [constructor|].
    cbn [flat_map]. apply Forall_app. split; [|exact IH].
    apply flattened_events_status.
  - constructor; [|constructor]. intros _ Hs. cbn [snd] in Hs.
    destruct (container_not_tag _ Hc) as [_ Hn]. done.
Qed.

Lemma flatten_matched_statuses_witness :
  started flatten_init < 0
  ∧ Forall (λ ev : Event, ev.1 = EvEnd → tag ev.2 = "status" →
                          is_flattened_status html_escape_model ev)
      (yielded (flatten_loop html_escape_model sample_matchers flatten_init
                  (events (Node (named "kw" "Flat")
                             [Node (with_text "status" "middle") []])))).
Proof.
  split; [reflexivity|].
  apply (flatten_matched_statuses html_escape_model sample_matchers);
    reflexivity.
Defined.

(** ** The factory with one or more sources *)

Section FactoryFacts.
Variable env : Env.

Lemma single_result_opened source options opened :
  ∃ k, (_single_result env source options opened).1
       = opened ++ take k [source]
       ∧ ((∃ r, (_single_result env source options opened).2 = Returns r) →
          k = 1%nat).
Proof.
  rewrite single_result_unfold.
  destruct (ExecutionResultBuilder_new source options) as [self|err].
  - exists 1%nat. done.
  - exists 0%nat. cbn. rewrite app_nil_r. split; [done|]. by intros [r ?].
Qed.

Lemma single_result_raises source options opened e :
  (_single_result env source options opened).2 = Raises e →
  ∃ message, e = DataError message.
Proof.
  rewrite single_result_unfold.
  destruct (ExecutionResultBuilder_new source options) as [self|err];
    cbn [snd].
  - destruct (_ ≫= _); [done|]. intros [= <-]. unfold report. eauto.
  - intros [= <-]. unfold report. eauto.
Qed.

Lemma bind_unfold {A B} (x : M A) (f : A → M B) opened :
  (x ≫= f) opened
  = match x opened with
    | (opened', Returns a) => f a opened'
    | (opened', Raises e) => (opened', Raises e)
    end.
Proof. done. Qed.

Lemma take_S_cons_app {A} (x : A) l k :
  [x] ++ take k l = take (S k) (x :: l).
Proof. done. Qed.

Lemma all_results_opened sources options opened :
  ∃ k, (all_results env sources options opened).1 = opened ++ take k sources
       ∧ ((∃ rs, (all_results env sources options opened).2 = Returns rs) →
          k = length sources).
Proof.
  revert opened. induction sources as [|src sources IH]; intros opened.
  - exists 0%nat. cbn. by rewrite app_nil_r.
  - cbn [all_results]. rewrite bind_unfold.
    destruct (single_result_opened src options opened) as (k1 & Ho & Hk).
    destruct (_single_result env src options opened) as [opened1 [r|e]].
    + cbn [fst snd] in *. rewrite (Hk (ex_intro _ r eq_refl)) in Ho.
      cbn in Ho. subst opened1. rewrite bind_unfold.
      destruct (IH (opened ++ [src])) as (k & Hk1 & Hk2).
      destruct (all_results env sources options (opened ++ [src]))
        as [opened2 [rs|e]]; cbn [fst snd ret] in *.
      * exists (S k). rewrite Hk1, <- app_assoc, take_S_cons_app.
        split; [done|]. intros _. by rewrite Hk2 by eauto.
      * exists (S k). rewrite Hk1, <- app_assoc, take_S_cons_app.
        split; [done|]. by intros [rs ?].
    + cbn [fst snd] in *. exists (if k1 is O then 0 else 1)%nat.
      split; [|by intros [rs ?]].
      rewrite Ho. by destruct k1 as [|[|k1]].
Qed.

Lemma all_results_raises sources options opened e :
  (all_results env sources options opened).2 = Raises e →
  ∃ message, e = DataError message.
Proof.
  revert opened. induction sources as [|src sources IH]; intros opened;
    [done|].
  cbn [all_results]. rewrite bind_unfold.
  destruct (_single_result env src options opened) as [opened1 [r|e']] eqn:Hs.
  - rewrite bind_unfold.
    destruct (all_results env sources options opened1) as [opened2 [rs|e']]
      eqn:Ha; [done|].
    cbn [snd]. intros [= <-]. apply (IH opened1). by rewrite Ha.
  - cbn [snd]. intros [= <-].
    apply (single_result_raises src options opened). by rewrite Hs.
Qed.

Lemma merge_all_opened result merged options opened :
  ∃ k, (merge_all env result merged options opened).1
       = opened ++ take k merged
       ∧ ((∃ r, (merge_all env result merged options opened).2 = Returns r) →
          k = length merged).
Proof.
  revert result opened. induction merged as [|path merged IH];
    intros result opened.
  - exists 0%nat. cbn. by rewrite app_nil_r.
  - cbn [merge_all]. rewrite bind_unfold.
    destruct (single_result_opened path options opened) as (k1 & Ho & Hk).
    destruct (_single_result env path options opened) as [opened1 [r|e]].
    + cbn [fst snd] in *. rewrite (Hk (ex_intro _ r eq_refl)) in Ho.
      cbn in Ho. subst opened1. rewrite bind_unfold. unfold lift.
      destruct (merger_merge env result r) as [result'|e].
      * destruct (IH result' (opened ++ [path])) as (k & Hk1 & Hk2).
        exists (S k). rewrite Hk1, <- app_assoc, take_S_cons_app.
        split; [done|]. intros Hr. by rewrite Hk2.
      * exists 1%nat. cbn [fst snd]. split; [|by intros [r' ?]].
        by destruct merged.
    + cbn [fst snd] in *. exists (if k1 is O then 0 else 1)%nat.
      split; [|by intros [r ?]].
      rewrite Ho. by destruct k1 as [|[|k1]].
Qed.

Lemma merge_all_raises result merged options opened e :
  (merge_all env result merged options opened).2 = Raises e →
  (∃ message, e = DataError message)
  ∨ (∃ r r', merger_merge env r r' = Raises e).
Proof.
  revert result opened. induction merged as [|path merged IH];
    intros result opened; [done|].
  cbn [merge_all]. rewrite bind_unfold.
  destruct (_single_result env path options opened) as [opened1 [r|e']] eqn:Hs.
  - rewrite bind_unfold. unfold lift.
    destruct (merger_merge env result r) as [result'|e'] eqn:Hm.
    + apply IH.
    + cbn [snd]. intros [= <-]. right. eauto.
  - cbn [snd]. intros [= <-]. left.
    apply (single_result_raises path options opened). by rewrite Hs.
Qed.
End FactoryFacts.

(** X9.  With a single source the factory reads that source whether or not
    merging is asked for: merging with nothing to merge is a plain read. *)
Theorem execution_result_single_source
    (env : Env) (source : Source) (options : Options) (opened : list Source) :
  ExecutionResult env [source] options opened
  = _single_result env source (pop_merge options) opened.
Proof.
  unfold ExecutionResult. destruct (opt_merge options).
  - unfold _merge_results. rewrite bind_unfold.
    by destruct (_single_result env source (pop_merge options) opened)
      as [opened' [r|e]].
  - done.
Qed.

(** X10.  The factory opens its sources from left to right, each at most
    once, and stops at the first failure: the sources opened by a call are
    an initial part of the sources given, and all of them when the call
    returns a result. *)
Theorem execution_result_opens_in_order
    (env : Env) (sources : list Source) (options : Options)
    (opened : list Source) :
  ∃ k,
    (ExecutionResult env sources options opened).1 = opened ++ take k sources
    ∧ ((∃ r, (ExecutionResult env sources options opened).2 = Returns r) →
       k = length sources).
Proof.
  unfold ExecutionResult. destruct sources as [|original merged].
  { exists 0%nat. cbn. rewrite app_nil_r. split; [done|]. by intros [r ?]. }
  destruct (opt_merge options).
  - unfold _merge_results. rewrite bind_unfold.
    destruct (single_result_opened env original (pop_merge options) opened)
      as (k1 & Ho & Hk).
    destruct (_single_result env original (pop_merge options) opened)
      as [opened1 [r|e]]; cbn [fst snd] in *.
    + rewrite (Hk (ex_intro _ r eq_refl)) in Ho. cbn in Ho. subst opened1.
      destruct (merge_all_opened env r merged (pop_merge options)
                  (opened ++ [original])) as (k & Hk1 & Hk2).
      exists (S k). rewrite Hk1, <- app_assoc, take_S_cons_app.
      split; [done|]. intros Hr. by rewrite Hk2.
    + exists (if k1 is O then 0 else 1)%nat. split; [|by intros [r ?]].
      rewrite Ho. by destruct k1 as [|[|k1]].
  - destruct (bool_decide _) eqn:Hlen.
    + unfold _combine_results. rewrite bind_unfold.
      destruct (all_results_opened env (original :: merged)
                  (pop_merge options) opened) as (k & Hk1 & Hk2).
      exists k.
      destruct (all_results env (original :: merged) (pop_merge options)
                  opened) as [opened1 [rs|e]]; cbn [fst snd ret] in *.
      * split; [done|]. intros _. apply Hk2. eauto.
      * split; [done|]. by intros [r ?].
    + apply bool_decide_eq_false in Hlen.
      destruct merged as [|? ?]; [|cbn [length] in Hlen; lia].
      destruct (single_result_opened env original (pop_merge options) opened)
        as (k1 & Ho & Hk).
      exists k1. split; [exact Ho|exact Hk].
Qed.

(** X11.  Whatever goes wrong while the factory reads its sources reaches
    the caller as a [DataError]: an exception of any other kind can only
    come from the merger. *)
Theorem execution_result_raises_data_error
    (env : Env) (sources : list Source) (options : Options)
    (opened : list Source) (e : Exn) :
  (ExecutionResult env sources options opened).2 = Raises e →
  (∃ message, e = DataError message)
  ∨ (∃ r r', merger_merge env r r' = Raises e).
Proof.
  unfold ExecutionResult. destruct sources as [|original merged].
  { intros [= <-]. eauto. }
  destruct (opt_merge options).
  - unfold _merge_results. rewrite bind_unfold.
    destruct (_single_result env original (pop_merge options) opened)
      as [opened1 [r|e']] eqn:Hs.
    + apply merge_all_raises.
    + cbn [snd]. intros [= <-]. left.
      apply (single_result_raises env original (pop_merge options) opened).
      by rewrite Hs.
  - destruct (bool_decide _).
    + unfold _combine_results. rewrite bind_unfold.
      destruct (all_results env (original :: merged) (pop_merge options)
                  opened) as [opened1 [rs|e']] eqn:Ha; [done|].
      cbn [snd]. intros [= <-]. left.
      apply (all_results_raises env (original :: merged) (pop_merge options)
               opened). by rewrite Ha.
    + intros H. left. by apply single_result_raises in H.
Qed.

Lemma execution_result_raises_data_error_witness :
  (ExecutionResult (tree_env missing_file) ["a.xml"; "b.xml"]
     default_options []).2
  = Raises (DataError
      "Reading XML source 'a.xml' failed: No such file or directory")
  ∧ ((∃ message,
        DataError "Reading XML source 'a.xml' failed: No such file or directory"
        = DataError message)
     ∨ (∃ r r',
          merger_merge (tree_env missing_file) r r'
          = Raises (DataError
              "Reading XML source 'a.xml' failed: No such file or directory"))).
Proof.
  split; [reflexivity|].
  apply (execution_result_raises_data_error (tree_env missing_file)
           ["a.xml"; "b.xml"] default_options []).
  reflexivity.
Defined.

(** * Properties of the test libraries *)

(** ** [lineno] *)

Lemma lineno_loop_spec start increment lines :
  (∃ (i : nat) line,
     lines !! i = Some line
     ∧ startswith (strip line) "class " = true
     ∧ (∀ (j : nat) line', (j < i)%nat → lines !! j = Some line' →
                           startswith (strip line') "class " = false)
     ∧ lineno_loop start increment lines = start + increment + Z.of_nat i)
  ∨ (Forall (λ line, startswith (strip line) "class " = false) lines
     ∧ lineno_loop start increment lines = start).
Proof.
  revert increment. induction lines as [|line lines IH]; intros increment.
  - right. by split.
  - cbn [lineno_loop].
    destruct (startswith (strip line) "class ") eqn:Hc.
    + left. exists 0%nat, line.
      split; [done|]. split; [exact Hc|]. split; [|lia].
      intros j line' Hj. lia.
    + destruct (IH (increment + 1)) as [(i & l & Hl & Hs & Hm & Hr)|[Hall Hr]].
      * left. exists (S i), l.
        split; [exact Hl|]. split; [exact Hs|]. split; [|lia].
        intros [|j] line' Hj Hl'.
        -- cbn in Hl'. by simplify_eq.
        -- apply (Hm j); [lia|exact Hl'].
      * right. split; [by constructor|done].
Qed.

(** X12.  The line number of a class library is the number of the first
    source line that, surrounding whitespace apart, starts with ["class "]:
    the line at that offset from [start_lineno] is such a line and no
    earlier one is; without such a line it is [start_lineno] itself.  In
    either case it lies within the source lines read. *)
Theorem lineno_first_class_line (lines : list string) (start_lineno : Z) :
  let n := lineno false (Some (lines, start_lineno)) in
  start_lineno ≤ n ≤ start_lineno + Z.of_nat (length lines)
  ∧ ((∃ (i : nat) line,
        lines !! i = Some line
        ∧ startswith (strip line) "class " = true
        ∧ (∀ (j : nat) line', (j < i)%nat → lines !! j = Some line' →
                              startswith (strip line') "class " = false)
        ∧ n = start_lineno + Z.of_nat i)
     ∨ (Forall (λ line, startswith (strip line) "class " = false) lines
        ∧ n = start_lineno)).
Proof.
  cbn [lineno negb]. cbv zeta.
  destruct (lineno_loop_spec start_lineno 0 lines)
    as [(i & l & Hl & Hs & Hm & Hr)|[Hall Hr]].
  - split.
    + apply lookup_lt_Some in Hl. lia.
    + left. exists i, l.
      split; [exact Hl|]. split; [exact Hs|]. split; [exact Hm|lia].
  - split; [lia|]. by right.
Qed.

(** ** The library instance *)

Section InstanceFacts.
Variable env : LibEnv.

(** X13.  Putting an instance in place with [reset_instance] and then
    putting back what it returned leaves the library exactly as it was; in
    a library of global scope neither call changes anything. *)
Theorem reset_instance_round_trip
    (self : Library) (instance : option LibObject) :
  (reset_instance instance self).1 = Done (_libinst self)
  ∧ reset_instance (_libinst self) (reset_instance instance self).2
    = (Done (if is_global self then _libinst self else instance), self)
  ∧ (is_global self = true → (reset_instance instance self).2 = self).
Proof.
  destruct self as [cls name code inst hl [] pos named hs log]; done.
Qed.

Lemma base_get_instance_some self instance :
  _libinst self = Some instance →
  _BaseTestLibrary_get_instance env true self
  = (Done (Some instance),
     match has_listener self with
     | None => set_has_listener (Some (nonempty (listeners_of instance))) self
     | Some _ => self
     end).
Proof.
  intros Hi. unfold _BaseTestLibrary_get_instance. cbn [negb]. rewrite Hi.
  destruct self as [cls name code inst [b|] g pos named hs log];
    cbn in *; by rewrite Hi.
Qed.

(** X14.  [get_instance] of a class library makes the instance once: if a
    call returns, the instance it returns is stored, whether the library
    has listeners is settled and agrees with the listeners of that
    instance unless it was settled before, and a further call returns the
    same instance and changes nothing. *)
Theorem get_instance_once
    (self self' : Library) (result : option LibObject) :
  lib_class self ≠ _ModuleLibrary →
  get_instance env true self = (Done result, self') →
  ∃ instance,
    result = Some instance
    ∧ _libinst self' = Some instance
    ∧ has_listener self'
      = Some (match has_listener self with
              | Some b => b
              | None => nonempty (listeners_of instance)
              end)
    ∧ get_instance env true self' = (Done result, self').
Proof.
  intros Hcls. unfold get_instance.
  assert (Hb : ∀ s, lib_class s = lib_class self →
            match lib_class s with
            | _ModuleLibrary => _ModuleLibrary_get_instance true s
            | _ => _BaseTestLibrary_get_instance env true s
            end = _BaseTestLibrary_get_instance env true s).
  { intros s ->. by destruct (lib_class self). }
  rewrite (Hb self eq_refl).
  unfold _BaseTestLibrary_get_instance at 1. cbn [negb].
  destruct self as [cls name code inst hl g pos named hs log].
  cbn [_libinst _libcode has_listener lib_class] in *.
  destruct inst as [instance|].
  - destruct hl as [b|]; cbn; intros [= <- <-].
    + exists instance. repeat split. by rewrite Hb.
    + exists instance. repeat split. by rewrite Hb.
  - unfold _get_instance. cbn [positional_args named_args].
    destruct (instantiate code pos named) as [instance|e].
    + destruct hl as [b|]; cbn; intros [= <- <-].
      * exists instance. repeat split. by rewrite Hb.
      * exists instance. repeat split. by rewrite Hb.
    + unfold _raise_creating_instance_failed.
      destruct (get_error_details env e). cbn. done.
Qed.

(** X15.  When calling the library code fails, with whatever exception,
    [get_instance] raises a [DataError] that names the library, and the
    library is left as it was: no instance is stored and whether it has
    listeners stays open. *)
Theorem get_instance_failure (self : Library) (e : PyExn) :
  lib_class self ≠ _ModuleLibrary →
  _libinst self = None →
  instantiate (_libcode self) (positional_args self) (named_args self)
  = Fail e →
  ∃ rest,
    get_instance env true self
    = (Fail (PyDataError ("Initializing library '" +:+ lib_name self
                          +:+ "' with " +:+ rest) ""), self).
Proof.
  intros Hcls Hi He. unfold get_instance.
  replace (match lib_class self with
           | _ModuleLibrary => _ModuleLibrary_get_instance true self
           | _ => _BaseTestLibrary_get_instance env true self
           end) with (_BaseTestLibrary_get_instance env true self)
    by (by destruct (lib_class self)).
  unfold _BaseTestLibrary_get_instance, _get_instance. cbn [negb].
  rewrite Hi, He. unfold _raise_creating_instance_failed.
  destruct (get_error_details env e) as [message details].
  unfold lraise. eexists. reflexivity.
Qed.
End InstanceFacts.

Lemma get_instance_once_witness :
  ∃ instance,
    Some sample_object = Some instance
    ∧ _libinst (set_has_listener (Some false)
                  (set_libinst (Some sample_object) sample_library))
      = Some instance
    ∧ has_listener (set_has_listener (Some false)
                      (set_libinst (Some sample_object) sample_library))
      = Some (nonempty (listeners_of instance))
    ∧ get_instance sample_lib_env true
        (set_has_listener (Some false)
           (set_libinst (Some sample_object) sample_library))
      = (Done (Some sample_object),
         set_has_listener (Some false)
           (set_libinst (Some sample_object) sample_library)).
Proof.
  apply (get_instance_once sample_lib_env sample_library); [done|reflexivity].
Defined.

Lemma get_instance_failure_witness :
  ∃ rest,
    get_instance sample_lib_env true failing_library
    = (Fail (PyDataError ("Initializing library 'Broken' with " +:+ rest) ""),
       failing_library).
Proof.
  apply (get_instance_failure sample_lib_env failing_library
           (PyException "ValueError" "bad argument")); [done|reflexivity..].
Defined.

(** ** Handler methods *)

Section HandlerMethodFacts.
Variable env : LibEnv.

Lemma validate_Done method method' :
  _validate_handler_method method = Done method' →
  method' = method
  ∧ (isroutine method = true ∨ ispartial method = true)
  ∧ robot_not_keyword method = false.
Proof.
  unfold _validate_handler_method.
  destruct (isroutine method) eqn:Hr, (ispartial method) eqn:Hp;
    cbn [orb negb]; destruct (robot_not_keyword method) eqn:Hn;
    intros [= <-]; auto.
Qed.


Lemma getattr_or_data_error_Done libcode name method :
  getattr_or_data_error env libcode name = Done method →
  obj_getattr libcode name = Done method
  ∧ (isroutine method = true ∨ ispartial method = true)
  ∧ robot_not_keyword method = false.
Proof.
  unfold getattr_or_data_error.
  destruct (obj_getattr libcode name) as [m|e].
  - intros (-> & H1 & H2)%validate_Done. done.
  - destruct (is_Exception e); [|done].
    by destruct (get_error_details env e).
Qed.


Lemma class_lookup_spec libinst name items :
  class_lookup env libinst name items
  = if existsb (λ dict : gmap string bool,
                  bool_decide (dict !! name = Some true)) items
    then getattr_or_data_error env libinst name
    else Fail (PyDataError "Not a method or function." "").
Proof.
  induction items as [|dict items IH]; [done|].
  cbn [class_lookup existsb].
  destruct (dict !! name) as [[]|]; cbn; [done|exact IH..].
Qed.

(** X16.  A method that [_get_handler_method] of a static or hybrid library
    returns is the attribute of that name, is a routine or a partial, is
    not marked [robot_not_keyword], and, in a module with [__all__], is
    listed there. *)
Theorem handler_method_is_exposed
    (cls : LibClass) (libcode : LibObject) (name : string) (method : Method) :
  cls ≠ _DynamicLibrary →
  _get_handler_method env cls libcode name = Done method →
  obj_getattr libcode name = Done method
  ∧ (isroutine method = true ∨ ispartial method = true)
  ∧ robot_not_keyword method = false
  ∧ (cls = _ModuleLibrary →
     ∀ contains, obj_all libcode = Some contains →
                 contains name = Done true).
Proof.
  intros Hcls. destruct cls; cbn [_get_handler_method]; [| | |done].
  - unfold _ModuleLibrary_get_handler_method,
      _BaseTestLibrary_get_handler_method.
    destruct (getattr_or_data_error env libcode name) as [m|e] eqn:Hg;
      [|done].
    apply getattr_or_data_error_Done in Hg as (Hg & Hr & Hn).
    destruct (obj_all libcode) as [contains|].
    + destruct (contains name) as [[]|e] eqn:Hin; [|done..].
      intros [= <-]. repeat split; try done.
      by intros _ contains' [= <-].
    + intros [= <-]. repeat split; done.
  - unfold _ClassLibrary_get_handler_method. rewrite class_lookup_spec.
    destruct (existsb _ _); [|done].
    intros (Hg & Hr & Hn)%getattr_or_data_error_Done. repeat split; done.
  - unfold _BaseTestLibrary_get_handler_method.
    intros (Hg & Hr & Hn)%getattr_or_data_error_Done. repeat split; done.
Qed.


End HandlerMethodFacts.

Lemma handler_method_is_exposed_witness :
  obj_getattr decorated_module "log_message"
  = Done (keyword_method "log_message")
  ∧ (isroutine (keyword_method "log_message") = true
     ∨ ispartial (keyword_method "log_message") = true)
  ∧ robot_not_keyword (keyword_method "log_message") = false
  ∧ (_ModuleLibrary = _ModuleLibrary →
     ∀ contains, obj_all decorated_module = Some contains →
                 contains "log_message" = Done true).
Proof.
  apply (handler_method_is_exposed sample_lib_env _ModuleLibrary);
    [done|reflexivity].
Defined.



(** ** Handler names *)

Section HandlerNameFacts.
Variable env : LibEnv.

Lemma select_names_filter predicate names selected :
  select_names predicate names = Done selected →
  selected = List.filter (keeps predicate) names.
Proof.
  revert selected. induction names as [|name names IH]; intros selected.
  - by intros [= <-].
  - cbn [select_names List.filter]. unfold keeps at 1.
    destruct (predicate name) as [keep|e]; [|done].
    destruct (select_names predicate names) as [rest|e]; [|done].
    intros [= <-]. rewrite <- (IH rest eq_refl). by destruct keep.
Qed.

Lemma filter_sublist {A} (f : A → bool) l : List.filter f l `sublist_of` l.
Proof.
  induction l as [|x l IH]; [done|]. cbn [List.filter].
  destruct (f x); [by apply sublist_skip|by apply sublist_cons].
Qed.

(** Every name the comprehension goes through gets an answer when the
    comprehension returns. *)
Lemma select_names_answers predicate names selected name :
  select_names predicate names = Done selected →
  name ∈ names → ∃ keep, predicate name = Done keep.
Proof.
  revert selected. induction names as [|name' names IH]; intros selected.
  - intros _ Hin. by apply elem_of_nil in Hin.
  - cbn [select_names].
    destruct (predicate name') as [keep|e] eqn:Hp; [|done].
    destruct (select_names predicate names) as [rest|e]; [|done].
    intros _ [->|Hin]%elem_of_cons; [by exists keep|].
    by apply (IH rest).
Qed.

(** [has_robot_name(name)] answers true exactly when the handler method
    can be got and has [robot_name]; it answers at all only if getting the
    method returns or raises a [DataError]. *)
Lemma has_robot_name_of_true cls libcode name :
  has_robot_name_of env cls libcode name = Done true
  ↔ ∃ method, _get_handler_method env cls libcode name = Done method
              ∧ has_robot_name method = true.
Proof.
  unfold has_robot_name_of.
  destruct (_get_handler_method env cls libcode name) as [method|e].
  - split.
    + intros [= H]. by exists method.
    + intros (method' & [= <-] & H). by rewrite H.
  - split.
    + by destruct (is_DataError e).
    + by intros (method & ? & _).
Qed.

Lemma has_robot_name_of_answers cls libcode name keep e :
  has_robot_name_of env cls libcode name = Done keep →
  _get_handler_method env cls libcode name = Fail e →
  is_DataError e = true.
Proof.
  unfold has_robot_name_of. intros H He. rewrite He in H.
  by destruct (is_DataError e).
Qed.

(** X19.  The handler names of a static library are attribute names of the
    library in the order of [dir()].  With [ROBOT_AUTO_KEYWORDS] true they
    are the names that do not start with an underscore together with
    those whose handler method [_get_handler_method] returns and which
    carries [robot_name]; with it false they are only the latter.  When
    the names are returned, every handler method that was asked for (the
    name starts with an underscore, or [ROBOT_AUTO_KEYWORDS] is false) and
    could not be got failed with a [DataError]: any other exception ends
    the collection. *)
Theorem handler_names_selected
    (cls : LibClass) (libcode : LibObject) (names : list string) :
  _BaseTestLibrary_get_handler_names env cls libcode = Done names →
  names `sublist_of` obj_dir libcode
  ∧ (∀ name,
       name ∈ names ↔
       name ∈ obj_dir libcode
       ∧ (ROBOT_AUTO_KEYWORDS libcode = true ∧ is_public name = true
          ∨ ∃ method,
              _get_handler_method env cls libcode name = Done method
              ∧ has_robot_name method = true))
  ∧ (∀ name e,
       name ∈ obj_dir libcode →
       ROBOT_AUTO_KEYWORDS libcode = false ∨ is_public name = false →
       _get_handler_method env cls libcode name = Fail e →
       is_DataError e = true).
Proof.
  unfold _BaseTestLibrary_get_handler_names. intros Hsel.
  split; [|split].
  - apply select_names_filter in Hsel as ->. apply filter_sublist.
  - apply select_names_filter in Hsel as ->.
    intros name. rewrite <- has_robot_name_of_true.
    rewrite !list_elem_of_In, filter_In. unfold keeps.
    destruct (ROBOT_AUTO_KEYWORDS libcode).
    + destruct (is_public name).
      * intuition congruence.
      * destruct (has_robot_name_of env cls libcode name) as [[]|];
          intuition congruence.
    + destruct (has_robot_name_of env cls libcode name) as [[]|];
        intuition congruence.
  - intros name e Hin Hasked He.
    destruct (select_names_answers _ _ _ name Hsel Hin) as [keep Hkeep].
    destruct (ROBOT_AUTO_KEYWORDS libcode).
    + destruct Hasked as [?|Hp]; [done|]. rewrite Hp in Hkeep.
      by apply (has_robot_name_of_answers cls libcode name keep).
    + by apply (has_robot_name_of_answers cls libcode name keep).
Qed.
End HandlerNameFacts.

(** A module with [ROBOT_AUTO_KEYWORDS = False]: of its four names only
    the decorated function [_private] is a handler name; [helper] is not
    in [__all__], [log_message] has no [robot_name] and [__doc__] is no
    function. *)
Lemma handler_names_selected_witness :
  _BaseTestLibrary_get_handler_names sample_lib_env _ModuleLibrary
    decorated_module = Done ["_private"]
  ∧ ["_private"] `sublist_of` obj_dir decorated_module
  ∧ (∀ name,
       name ∈ ["_private"] ↔
       name ∈ obj_dir decorated_module
       ∧ (ROBOT_AUTO_KEYWORDS decorated_module = true
          ∧ is_public name = true
          ∨ ∃ method,
              _get_handler_method sample_lib_env _ModuleLibrary
                decorated_module name = Done method
              ∧ has_robot_name method = true))
  ∧ (∀ name e,
       name ∈ obj_dir decorated_module →
       ROBOT_AUTO_KEYWORDS decorated_module = false
       ∨ is_public name = false →
       _get_handler_method sample_lib_env _ModuleLibrary decorated_module
         name = Fail e →
       is_DataError e = true).
Proof.
  split; [reflexivity|].
  apply (handler_names_selected sample_lib_env _ModuleLibrary
           decorated_module).
  reflexivity.
Defined.

(** ** Creating handlers *)

Section CreateHandlersFacts.
Variable env : LibEnv.

Lemma same_but_handlers_refl self : same_but_handlers self self.
Proof. by repeat split. Qed.

Lemma same_but_handlers_trans a b c :
  same_but_handlers a b → same_but_handlers b c → same_but_handlers a c.
Proof.
  intros (?&?&?&?&?&?&?&?&?) (?&?&?&?&?&?&?&?&?).
  repeat split; try congruence. by etrans.
Qed.

Lemma write_spec message level self :
  write message level self
  = (Done tt,
     mkLibrary (lib_class self) (lib_name self) (_libcode self)
               (_libinst self) (has_listener self) (is_global self)
               (positional_args self) (named_args self) (handlers self)
               (logger self ++ [(message, level)])).
Proof. done. Qed.

Lemma write_frame message level self :
  same_but_handlers self (write message level self).2
  ∧ handlers (write message level self).2 = handlers self.
Proof.
  rewrite write_spec. cbn. repeat split. by apply prefix_app_r.
Qed.

Lemma report_error_spec message details level details_level self :
  ∃ self',
    report_error message details level details_level self = (Done tt, self')
    ∧ same_but_handlers self self'
    ∧ handlers self' = handlers self
    ∧ logger self'
      = logger self
        ++ ((if bool_decide (level ∈ ["ERROR"; "WARN"])
             then "Error in" else "In")
            +:+ " library '" +:+ lib_name self +:+ "': " +:+ message, level)
        :: (if str_truthy details
            then [("Details:" +:+ newline +:+ or_empty details, details_level)]
            else []).
Proof.
  unfold report_error, lbind. rewrite write_spec.
  destruct (str_truthy details).
  - rewrite write_spec. eexists. split; [reflexivity|]. cbn.
    repeat split.
    + rewrite <- app_assoc. by apply prefix_app_r.
    + by rewrite <- app_assoc.
  - eexists. split; [reflexivity|]. cbn.
    repeat split. by apply prefix_app_r.
Qed.

Lemma adding_keyword_failed_spec name error level self :
  ∃ self',
    _adding_keyword_failed name error level self = (Done tt, self')
    ∧ same_but_handlers self self'
    ∧ handlers self' = handlers self.
Proof.
  unfold _adding_keyword_failed.
  destruct (report_error_spec ("Adding keyword '" +:+ name +:+ "' failed: "
              +:+ error.1) (Some error.2) level "DEBUG" self)
    as (self' & H & Hf & Hh & _).
  by exists self'.
Qed.

(** X20.  A name whose handler method cannot be got is skipped and
    reported, with the error's details at level DEBUG if it has any: in a
    module or class library as a note at level INFO that starts with
    ["In library"], in a hybrid library as an error at level ERROR that
    starts with ["Error in library"]. *)
Theorem unavailable_method_is_reported
    (self : Library) (libcode : LibObject) (name message details : string) :
  _get_handler_method env (lib_class self) libcode name
  = Fail (PyDataError message details) →
  ∃ self',
    _try_to_get_handler_method env libcode name self = (Done None, self')
    ∧ same_but_handlers self self'
    ∧ handlers self' = handlers self
    ∧ logger self'
      = logger self
        ++ (match lib_class self with
            | _HybridLibrary | _DynamicLibrary =>
                ("Error in library '" +:+ lib_name self
                 +:+ "': Adding keyword '" +:+ name +:+ "' failed: "
                 +:+ message, "ERROR")
            | _ =>
                ("In library '" +:+ lib_name self
                 +:+ "': Adding keyword '" +:+ name +:+ "' failed: "
                 +:+ message, "INFO")
            end)
        :: (if str_truthy (Some details)
            then [("Details:" +:+ newline +:+ details, "DEBUG")]
            else []).
Proof.
  intros Hm. unfold _try_to_get_handler_method. rewrite Hm.
  unfold _adding_keyword_failed, lbind. cbn [fst snd].
  destruct (report_error_spec ("Adding keyword '" +:+ name +:+ "' failed: "
              +:+ message) (Some details)
              (get_handler_error_level (lib_class self)) "DEBUG" self)
    as (self' & -> & Hf & Hh & Hl).
  exists self'. split; [done|]. split; [done|]. split; [done|].
  rewrite Hl. f_equal. f_equal.
  destruct (lib_class self); cbn [get_handler_error_level];
    simpl bool_decide; cbv iota; by rewrite ?string_app_assoc.
Qed.

Lemma try_to_get_handler_method_spec libcode name self r self' :
  _try_to_get_handler_method env libcode name self = (r, self') →
  same_but_handlers self self' ∧ handlers self' = handlers self
  ∧ ∀ e, r = Fail e → is_DataError e = false.
Proof.
  unfold _try_to_get_handler_method.
  destruct (_get_handler_method env (lib_class self) libcode name)
    as [method|[message details|c m|c]].
  - intros [= <- <-]. split; [apply same_but_handlers_refl|]. done.
  - unfold lbind.
    destruct (adding_keyword_failed_spec name (message, details)
                (get_handler_error_level (lib_class self)) self)
      as (s & -> & Hf & Hh).
    intros [= <- <-]. done.
  - intros [= <- <-]. split; [apply same_but_handlers_refl|].
    split; [done|]. by intros e [= <-].
  - intros [= <- <-]. split; [apply same_but_handlers_refl|].
    split; [done|]. by intros e [= <-].
Qed.

Lemma try_to_create_handler_spec name method self r self' :
  _try_to_create_handler env name method self = (r, self') →
  same_but_handlers self self' ∧ handlers self' = handlers self
  ∧ ∀ e, r = Fail e → is_DataError e = false.
Proof.
  unfold _try_to_create_handler.
  destruct (new_handler env (lib_class self) name method)
    as [handler|[message details|c m|c]].
  - destruct (_get_possible_embedded_args_handler env handler)
      as [[h b]|[message details|c m|c]].
    + intros [= <- <-]. split; [apply same_but_handlers_refl|]. done.
    + unfold lbind.
      destruct (adding_keyword_failed_spec (handler_name handler)
                  (message, details) "ERROR" self) as (s & -> & Hf & Hh).
      intros [= <- <-]. done.
    + intros [= <- <-]. split; [apply same_but_handlers_refl|].
      split; [done|]. by intros e [= <-].
    + intros [= <- <-]. split; [apply same_but_handlers_refl|].
      split; [done|]. by intros e [= <-].
  - unfold lbind.
    destruct (adding_keyword_failed_spec name (message, details) "ERROR" self)
      as (s & -> & Hf & Hh).
    intros [= <- <-]. done.
  - intros [= <- <-]. split; [apply same_but_handlers_refl|].
    split; [done|]. by intros e [= <-].
  - intros [= <- <-]. split; [apply same_but_handlers_refl|].
    split; [done|]. by intros e [= <-].
Qed.

Lemma set_handlers_frame store self :
  same_but_handlers self (set_handlers store self).
Proof. by repeat split. Qed.

Lemma create_handler_for_spec libcode name self r self' :
  create_handler_for env libcode name self = (r, self') →
  same_but_handlers self self' ∧ ∀ e, r = Fail e → is_DataError e = false.
Proof.
  unfold create_handler_for, lbind.
  destruct (_try_to_get_handler_method env libcode name self)
    as [[method|e] s1] eqn:H1;
    apply try_to_get_handler_method_spec in H1 as (Hf1 & _ & He1).
  2:{ intros [= <- <-]. split; [done|]. intros e' [= <-]. by apply He1. }
  destruct method as [method|]; [|by intros [= <- <-]].
  destruct (_try_to_create_handler env name method s1)
    as [[created|e] s2] eqn:H2;
    apply try_to_create_handler_spec in H2 as (Hf2 & _ & He2).
  2:{ intros [= <- <-]. split; [by eapply same_but_handlers_trans|].
      intros e' [= <-]. by apply He2. }
  destruct created as [[handler|] is_embedded]; cbn [fst snd].
  2:{ intros [= <- <-]. split; [by eapply same_but_handlers_trans|done]. }
  destruct (store_add env handler is_embedded (handlers s2))
    as [store|[message details|c m|c]].
  - intros Hw.
    pose proof (write_frame ("Created keyword '" +:+ handler_name handler
                             +:+ "'.") "DEBUG" (set_handlers store s2))
      as [Hf3 _].
    rewrite write_spec in Hw, Hf3. injection Hw as <- <-.
    split; [|done].
    eapply same_but_handlers_trans; [exact Hf1|].
    eapply same_but_handlers_trans; [exact Hf2|].
    eapply same_but_handlers_trans; [apply (set_handlers_frame store)|].
    exact Hf3.
  - destruct (adding_keyword_failed_spec (handler_name handler)
                (message, details) "ERROR" s2) as (s & -> & Hf & Hh).
    intros [= <- <-]. split; [|done].
    eapply same_but_handlers_trans; [exact Hf1|].
    by eapply same_but_handlers_trans.
  - intros [= <- <-]. split; [by eapply same_but_handlers_trans|].
    by intros e [= <-].
  - intros [= <- <-]. split; [by eapply same_but_handlers_trans|].
    by intros e [= <-].
Qed.

Lemma create_handlers_loop_spec libcode names self r self' :
  create_handlers_loop env libcode names self = (r, self') →
  same_but_handlers self self' ∧ ∀ e, r = Fail e → is_DataError e = false.
Proof.
  revert self. induction names as [|name names IH]; intros self.
  - intros [= <- <-]. split; [apply same_but_handlers_refl|done].
  - cbn [create_handlers_loop]. unfold lbind.
    destruct (create_handler_for env libcode name self) as [[[]|e] s1] eqn:H1;
      apply create_handler_for_spec in H1 as [Hf1 He1].
    + intros [Hf He]%IH. split; [by eapply same_but_handlers_trans|done].
    + intros [= <- <-]. split; [done|]. by apply He1.
Qed.
End CreateHandlersFacts.

(** X21.  A [DataError] that concerns a single keyword never leaves
    [_create_handlers]: the only [DataError] it raises is the one for
    keyword names that cannot be got, and then nothing has been stored or
    logged. *)
Theorem create_handlers_data_error
    (env : LibEnv) (libcode : LibObject) (self self' : Library) (e : PyExn) :
  _create_handlers env libcode self = (Fail e, self') →
  is_DataError e = true →
  ∃ e0,
    _get_handler_names env (lib_class self) libcode = Fail e0
    ∧ is_Exception e0 = true
    ∧ e = PyDataError ("Getting keyword names from library '"
                       +:+ lib_name self +:+ "' failed: "
                       +:+ (get_error_details env e0).1)
                      (get_error_details env e0).2
    ∧ self' = self.
Proof.
  unfold _create_handlers.
  destruct (_get_handler_names env (lib_class self) libcode) as [names|e0].
  - intros [_ He]%create_handlers_loop_spec Hd.
    rewrite (He e eq_refl) in Hd. done.
  - destruct (is_Exception e0) eqn:Hex.
    + destruct (get_error_details env e0) as [message details] eqn:Hg.
      intros [= <- <-] _. exists e0. by rewrite Hg.
    + intros [= <- <-] Hd. by destruct e0.
Qed.

(** X22.  [_create_handlers] changes nothing of a library but the handlers
    stored and the log, and it only adds to the log. *)
Theorem create_handlers_frame
    (env : LibEnv) (libcode : LibObject) (self self' : Library)
    (r : Try unit) :
  _create_handlers env libcode self = (r, self') →
  same_but_handlers self self'.
Proof.
  unfold _create_handlers.
  destruct (_get_handler_names env (lib_class self) libcode) as [names|e0].
  - by intros [Hf _]%create_handlers_loop_spec.
  - destruct (is_Exception e0).
    + destruct (get_error_details env e0). intros [= <- <-].
      apply same_but_handlers_refl.
    + intros [= <- <-]. apply same_but_handlers_refl.
Qed.

Lemma get_instance_of_class
    (env : LibEnv) (self self' : Library) (result : option LibObject) :
  lib_class self ≠ _ModuleLibrary →
  get_instance env true self = (Done result, self') →
  ∃ instance,
    result = Some instance
    ∧ _libinst self' = Some instance
    ∧ is_Some (has_listener self')
    ∧ is_global self' = is_global self.
Proof.
  intros Hcls. unfold get_instance.
  replace (match lib_class self with
           | _ModuleLibrary => _ModuleLibrary_get_instance true self
           | _ => _BaseTestLibrary_get_instance env true self
           end) with (_BaseTestLibrary_get_instance env true self)
    by (by destruct (lib_class self)).
  unfold _BaseTestLibrary_get_instance. cbn [negb].
  destruct self as [cls name code inst hl g pos named hs log].
  cbn [_libinst _libcode has_listener lib_class] in *.
  destruct inst as [instance|].
  - destruct hl as [b|]; cbn; intros [= <- <-];
      exists instance; cbn; eauto.
  - unfold _get_instance. cbn [positional_args named_args].
    destruct (instantiate code pos named) as [instance|e].
    + destruct hl as [b|]; cbn; intros [= <- <-];
        exists instance; cbn; eauto.
    + unfold _raise_creating_instance_failed.
      destruct (get_error_details env e). cbn. done.
Qed.

(** X23.  After [create_handlers] has returned, a class library that is not
    of global scope holds no instance any more, one of global scope still
    holds the instance that was made, and in both cases it is settled
    whether the library has listeners. *)
Theorem create_handlers_instance
    (env : LibEnv) (self self' : Library) :
  lib_class self ≠ _ModuleLibrary →
  create_handlers env self = (Done tt, self') →
  (is_global self = false → _libinst self' = None)
  ∧ (is_global self = true → is_Some (_libinst self'))
  ∧ is_Some (has_listener self').
Proof.
  intros Hcls. unfold create_handlers, lbind.
  destruct (get_instance env true self) as [[result|e] s1] eqn:Hg; [|done].
  destruct (get_instance_of_class env self s1 result Hcls Hg)
    as (instance & -> & Hinst & Hl & Hglobal).
  destruct (_create_handlers env instance s1) as [[[]|e] s2] eqn:Hc; [|done].
  unfold _create_handlers in Hc.
  assert (Hf : same_but_handlers s1 s2).
  { destruct (_get_handler_names env (lib_class s1) instance) as [names|e0].
    - by apply create_handlers_loop_spec in Hc as [Hf _].
    - destruct (is_Exception e0); [destruct (get_error_details env e0)|];
        done. }
  destruct Hf as (_ & _ & _ & Hi2 & Hl2 & Hg2 & _).
  unfold reset_instance, lret. intros [= <-].
  rewrite Hg2, Hglobal.
  destruct (is_global self); cbn [negb].
  - split; [done|]. split.
    + intros _. rewrite Hi2, Hinst. eauto.
    + by rewrite Hl2.
  - split; [by destruct s2|]. split; [done|].
    destruct s2. cbn in *. by rewrite Hl2.
Qed.

Lemma create_handlers_instance_witness :
  (create_handlers sample_lib_env sample_library).1 = Done tt
  ∧ (is_global sample_library = false →
     _libinst (create_handlers sample_lib_env sample_library).2 = None)
  ∧ (is_global sample_library = true →
     is_Some (_libinst (create_handlers sample_lib_env sample_library).2))
  ∧ is_Some (has_listener (create_handlers sample_lib_env sample_library).2).
Proof.
  split; [reflexivity|].
  apply (create_handlers_instance sample_lib_env sample_library); [done|].
  reflexivity.
Defined.

Lemma create_handlers_frame_witness :
  same_but_handlers (set_libinst (Some sample_object) sample_library)
    (_create_handlers sample_lib_env sample_object
       (set_libinst (Some sample_object) sample_library)).2.
Proof.
  apply (create_handlers_frame sample_lib_env sample_object _ _
           (_create_handlers sample_lib_env sample_object
              (set_libinst (Some sample_object) sample_library)).1).
  reflexivity.
Defined.

Lemma unavailable_method_is_reported_witness :
  ∃ self',
    _try_to_get_handler_method sample_lib_env sample_object "version"
      sample_library = (Done None, self')
    ∧ same_but_handlers sample_library self'
    ∧ handlers self' = handlers sample_library
    ∧ logger self'
      = [("In library 'Sample': Adding keyword 'version' failed: Not a method or function.",
          "INFO")].
Proof.
  apply (unavailable_method_is_reported sample_lib_env sample_library
           sample_object "version" "Not a method or function." "").
  reflexivity.
Defined.

Lemma create_handlers_data_error_witness :
  ∃ e0,
    _get_handler_names sample_lib_env (lib_class hybrid_library)
      nameless_object = Fail e0
    ∧ is_Exception e0 = true
    ∧ PyDataError
        "Getting keyword names from library 'Hybrid' failed: RuntimeError: no names"
        "Traceback"
      = PyDataError ("Getting keyword names from library '"
                     +:+ lib_name hybrid_library +:+ "' failed: "
                     +:+ (get_error_details sample_lib_env e0).1)
                    (get_error_details sample_lib_env e0).2
    ∧ hybrid_library = hybrid_library.
Proof.
  apply (create_handlers_data_error sample_lib_env nameless_object
           hybrid_library hybrid_library); reflexivity.
Defined.
